(** * Face recognition service: capture loop, single-slot scheduler,
      recognition worker and identity store

    A shallow embedding of [services/face_recognition_service.py].

    - Python floats are rationals ([Q]) where the code only ever sees finite
      values (angles, areas, thresholds) and [PyFloat.t] (a rational or one of
      the IEEE special values) where the code produces [float('inf')].
      Rounding is not modelled.
    - Methods of [FaceRecognitionService] are computations in the monad [PyM]:
      they read and write the object's attributes, may raise, and what they
      wrote before raising stays written, as in Python.
    - The libraries the service calls (OpenCV, face_recognition, numpy's norm,
      scikit-learn, pickle) are the fields of the class [Externals].
    - The two threads are interleaved at the granularity of one capture-loop
      iteration and of the worker's sections between its blocking calls
      ([Queue.get], [time.sleep]). *)

From Stdlib Require Import String List ZArith QArith Qround Bool Lia Lqa.
From Stdlib Require Import Permutation.
Import ListNotations.

Local Open Scope Z_scope.

(** ** Python values *)

(** Floats that may be infinite: [float('inf')] is returned by
    [EmbeddingIndex.query] on an empty index. *)
Module PyFloat.

Inductive t : Type :=
| Fin (q : Q)
| PInf
| NInf
| NaN.

Definition Qltb (x y : Q) : bool := negb (Qle_bool y x).

(** [a < b]; every comparison with NaN is false. *)
Definition ltb (a b : t) : bool :=
  match a, b with
  | Fin x, Fin y => Qltb x y
  | Fin _, PInf => true
  | NInf, Fin _ => true
  | NInf, PInf => true
  | _, _ => false
  end.

(** [a - b] *)
Definition sub (a b : t) : t :=
  match a, b with
  | Fin x, Fin y => Fin (x - y)
  | NaN, _ | _, NaN => NaN
  | PInf, PInf | NInf, NInf => NaN
  | PInf, _ => PInf
  | NInf, _ => NInf
  | Fin _, PInf => NInf
  | Fin _, NInf => PInf
  end.

(** The builtin [max(a, b)]: [b] replaces [a] only when [b > a]. *)
Definition max (a b : t) : t := if ltb a b then b else a.

End PyFloat.

Abbreviation Fin := PyFloat.Fin.
Abbreviation PInf := PyFloat.PInf.

(** Exceptions the modelled code can raise. *)
Inductive exn : Type :=
| ValueError
| IndexError
| AttributeError
| ZeroDivisionError
| UnpicklingError
| OSError
| QueueFull
| QueueEmpty.

Inductive res (A : Type) : Type :=
| Ok (a : A)
| Raise (e : exn).

Arguments Ok {A} a.
Arguments Raise {A} e.

(** [int(x)] on a float: truncation toward zero. *)
Definition py_int (x : Q) : Z :=
  if Qle_bool 0 x then Qfloor x else Qceiling x.

(** [abs(x)] *)
Definition py_abs (x : Q) : Q := if Qle_bool 0 x then x else Qopp x.

(** [l[i]] on a list, negative indices counting from the end. *)
Definition py_getitem {A : Type} (l : list A) (i : Z) : res A :=
  let n := Z.of_nat (length l) in
  let j := if i <? 0 then i + n else i in
  if (j <? 0) || (n <=? j) then Raise IndexError
  else match nth_error l (Z.to_nat j) with
       | Some x => Ok x
       | None => Raise IndexError
       end.

(** A slice bound, as [l[a:b]] normalises it against the length [n]. *)
Definition slice_bound (n i : Z) : Z :=
  if i <? 0 then Z.max 0 (i + n) else Z.min i n.

(** [l[a:b]] *)
Definition py_slice {A : Type} (l : list A) (a b : Z) : list A :=
  let n := Z.of_nat (length l) in
  let a' := slice_bound n a in
  let b' := slice_bound n b in
  firstn (Z.to_nat (b' - a')) (skipn (Z.to_nat a') l).

(** ** Images *)

Definition Pixel : Type := (Z * Z * Z)%type.

(** A [numpy] array of shape [(h, w, 3)]: its rows, and its width, which
    an array keeps even when it has no row. *)
Record Image : Type := mkImage {
  img_rows : list (list Pixel);
  img_cols : Z
}.

Definition shape (a : Image) : Z * Z :=
  (Z.of_nat (length (img_rows a)), img_cols a).

(** [a.size] *)
Definition size (a : Image) : Z :=
  let '(h, w) := shape a in h * w * 3.

(** [frame[y1:y2, x1:x2].copy()] *)
Definition crop (frame : Image) (y1 y2 x1 x2 : Z) : Image :=
  {| img_rows := map (fun r => py_slice r x1 x2) (py_slice (img_rows frame) y1 y2);
     img_cols := let w := img_cols frame in
                 Z.max 0 (slice_bound w x2 - slice_bound w x1) |}.

(** [cv2.cvtColor(img, cv2.COLOR_BGR2RGB)] *)
Definition cvtColor_BGR2RGB (a : Image) : Image :=
  {| img_rows := map (map (fun '(b, g, r) => (r, g, b))) (img_rows a);
     img_cols := img_cols a |}.

Definition Box : Type := (Z * Z * Z * Z)%type.

(** An overlay annotation [(x1, y1, x2, y2, label, score)]. *)
Definition Overlay : Type := (Z * Z * Z * Z * string * Q)%type.

(** A pose sample [(score, -area_rel, face_crop, (yaw, pitch, roll))]. *)
Definition PoseSample : Type := (Q * Q * Image * (Q * Q * Q))%type.

(** ** The identity file *)

(** What [pickle.load] can give back: a mapping with (possibly) the keys
    ['encodings'] and ['names'], or an object without [get]. *)
Inductive Pickled : Type :=
| PMapping (encodings : option (list (list Q))) (names : option (list string))
| PNotMapping.

(** [data.get(key, [])] *)
Definition get_encodings (data : Pickled) : res (list (list Q)) :=
  match data with
  | PMapping (Some e) _ => Ok e
  | PMapping None _ => Ok []
  | PNotMapping => Raise AttributeError
  end.

Definition get_names (data : Pickled) : res (list string) :=
  match data with
  | PMapping _ (Some n) => Ok n
  | PMapping _ None => Ok []
  | PNotMapping => Raise AttributeError
  end.

(** ** The libraries behind the service *)

Class Externals (Tracker : Type) : Type := {
  (** [cv2.TrackerKCF_create()] followed by [tracker.init(frame, box)] *)
  tracker_init : Image -> Box -> Tracker;
  (** [tracker.update(frame)]: the tracker afterwards, [ok] and [bbox] *)
  tracker_update : Tracker -> Image -> Tracker * (bool * (Q * Q * Q * Q));
  (** [_estimate_head_pose_angles]: landmarks, [solvePnP] and the Euler
      angles in degrees; [None] when no pose is available *)
  estimate_head_pose_angles : Image -> option (Q * Q * Q);
  (** [FaceDetector.detect] *)
  detector_detect : Image -> list (Z * Z * Z * Z * Q);
  (** [cv2.resize(img, None, fx=fx, fy=fy)] *)
  cv2_resize : Image -> Q -> Q -> Image;
  (** [face_recognition.face_locations(rgb, model='hog')] *)
  face_locations : Image -> list Box;
  (** [face_recognition.face_encodings(rgb, locs)] *)
  face_encodings : Image -> list Box -> list (list Q);
  (** [np.linalg.norm(row - v)] for one row of the index *)
  norm_diff : list Q -> list Q -> Q;
  (** [_HAS_SKLEARN] *)
  HAS_SKLEARN : bool;
  (** whether [NearestNeighbors.fit] accepts the matrix (it raises otherwise) *)
  nn_fit_accepts : list (list Q) -> bool;
  (** [nn.kneighbors(v, n_neighbors=1)] on the fitted matrix: index, distance *)
  nn_kneighbors : list (list Q) -> list Q -> Z * PyFloat.t;
  (** [pickle.load] on the bytes of a file; [None] when it raises *)
  pickle_load : list Byte.byte -> option Pickled
}.

(** ** EmbeddingIndex *)

Record EmbeddingIndex : Type := mkEmbeddingIndex {
  names : list string;
  data : list (list Q);
  (** the fitted [NearestNeighbors], which holds the matrix it was fitted on *)
  nn : option (list (list Q))
}.

(** [np.asarray(encodings, dtype=np.float32)] on a non-empty list of vectors:
    the rows must all have the length of the first.  The entries stay the
    rationals they are: their rounding to single precision is not
    represented, and a row stands for its copy in the array. *)
Definition np_asarray (encodings : list (list Q)) : res (list (list Q)) :=
  match encodings with
  | [] => Ok []
  | row :: _ =>
      if forallb (fun r => Nat.eqb (length r) (length row)) encodings
      then Ok encodings
      else Raise ValueError
  end.

(** The running minimum of [np.argmin]: the first least element wins. *)
Fixpoint argmin_from (best_i : Z) (best : Q) (i : Z) (l : list Q) : Z * Q :=
  match l with
  | [] => (best_i, best)
  | x :: rest =>
      if PyFloat.Qltb x best then argmin_from i x (i + 1) rest
      else argmin_from best_i best (i + 1) rest
  end.

Section Index.

Context {Tracker : Type} {E : Externals Tracker}.

(** [EmbeddingIndex.__init__] *)
Definition EmbeddingIndex_init (encodings : list (list Q)) (nms : list string)
  : res EmbeddingIndex :=
  match (match encodings with [] => Ok [] | _ :: _ => np_asarray encodings end) with
  | Raise e => Raise e
  | Ok d =>
      if HAS_SKLEARN && (5 <=? Z.of_nat (length d))
      then if nn_fit_accepts d
           then Ok (mkEmbeddingIndex nms d (Some d))
           else Raise ValueError
      else Ok (mkEmbeddingIndex nms d None)
  end.

(** [EmbeddingIndex.query] *)
Definition query (self : EmbeddingIndex) (vec : list Q) : Z * PyFloat.t :=
  match data self with
  | [] => (-1, PInf)
  | row :: rest =>
      match nn self with
      | Some fitted => nn_kneighbors fitted vec
      | None =>
          let '(best_idx, d) :=
            argmin_from 0 (norm_diff row vec) 1 (map (fun r => norm_diff r vec) rest) in
          (best_idx, Fin d)
      end
  end.

End Index.

(** ** FaceRecognitionService: attributes *)

Section ServiceState.

Context {Tracker : Type}.

Record Service : Type := mkService {
  encodings_file : string;
  encodings_file_content : option (list Byte.byte);
  encodings_file_writable : bool;
  on_overlay : option (Image -> list Overlay -> Image);
  recognition_threshold : Q;
  user_exit_frames : Z;
  pose_stride : Z;
  frontality_thr : Q;
  min_face_area_rel : Q;
  processing : bool;
  recognition_queue : list Image;
  tracker : option Tracker;
  track_ok_frames : Z;
  no_face_frames : Z;
  pose_buffer : list PoseSample;
  recognition_in_progress : bool;
  result_displayed : bool;
  lockout_active : bool;
  lockout_start_time : Q;
  frame_count : Z;
  capture_fps : Z;
  display_fps : Z;
  video_scale_factor : Q;
  known_encodings : list (list Q);
  known_names : list string;
  index : option EmbeddingIndex;
  _last_frame : option Image
}.

Definition with_encodings_file_content (v : option (list Byte.byte)) (s : Service) : Service :=
  mkService (encodings_file s) v (encodings_file_writable s) (on_overlay s)
    (recognition_threshold s) (user_exit_frames s) (pose_stride s)
    (frontality_thr s) (min_face_area_rel s) (processing s)
    (recognition_queue s) (tracker s) (track_ok_frames s) (no_face_frames s)
    (pose_buffer s) (recognition_in_progress s) (result_displayed s)
    (lockout_active s) (lockout_start_time s) (frame_count s) (capture_fps s)
    (display_fps s) (video_scale_factor s) (known_encodings s) (known_names s)
    (index s) (_last_frame s).

Definition with_processing (v : bool) (s : Service) : Service :=
  mkService (encodings_file s) (encodings_file_content s)
    (encodings_file_writable s) (on_overlay s) (recognition_threshold s)
    (user_exit_frames s) (pose_stride s) (frontality_thr s)
    (min_face_area_rel s) v (recognition_queue s) (tracker s)
    (track_ok_frames s) (no_face_frames s) (pose_buffer s)
    (recognition_in_progress s) (result_displayed s) (lockout_active s)
    (lockout_start_time s) (frame_count s) (capture_fps s) (display_fps s)
    (video_scale_factor s) (known_encodings s) (known_names s) (index s)
    (_last_frame s).

Definition with_recognition_queue (v : list Image) (s : Service) : Service :=
  mkService (encodings_file s) (encodings_file_content s)
    (encodings_file_writable s) (on_overlay s) (recognition_threshold s)
    (user_exit_frames s) (pose_stride s) (frontality_thr s)
    (min_face_area_rel s) (processing s) v (tracker s) (track_ok_frames s)
    (no_face_frames s) (pose_buffer s) (recognition_in_progress s)
    (result_displayed s) (lockout_active s) (lockout_start_time s)
    (frame_count s) (capture_fps s) (display_fps s) (video_scale_factor s)
    (known_encodings s) (known_names s) (index s) (_last_frame s).

Definition with_tracker (v : option Tracker) (s : Service) : Service :=
  mkService (encodings_file s) (encodings_file_content s)
    (encodings_file_writable s) (on_overlay s) (recognition_threshold s)
    (user_exit_frames s) (pose_stride s) (frontality_thr s)
    (min_face_area_rel s) (processing s) (recognition_queue s) v
    (track_ok_frames s) (no_face_frames s) (pose_buffer s)
    (recognition_in_progress s) (result_displayed s) (lockout_active s)
    (lockout_start_time s) (frame_count s) (capture_fps s) (display_fps s)
    (video_scale_factor s) (known_encodings s) (known_names s) (index s)
    (_last_frame s).

Definition with_track_ok_frames (v : Z) (s : Service) : Service :=
  mkService (encodings_file s) (encodings_file_content s)
    (encodings_file_writable s) (on_overlay s) (recognition_threshold s)
    (user_exit_frames s) (pose_stride s) (frontality_thr s)
    (min_face_area_rel s) (processing s) (recognition_queue s) (tracker s) v
    (no_face_frames s) (pose_buffer s) (recognition_in_progress s)
    (result_displayed s) (lockout_active s) (lockout_start_time s)
    (frame_count s) (capture_fps s) (display_fps s) (video_scale_factor s)
    (known_encodings s) (known_names s) (index s) (_last_frame s).

Definition with_no_face_frames (v : Z) (s : Service) : Service :=
  mkService (encodings_file s) (encodings_file_content s)
    (encodings_file_writable s) (on_overlay s) (recognition_threshold s)
    (user_exit_frames s) (pose_stride s) (frontality_thr s)
    (min_face_area_rel s) (processing s) (recognition_queue s) (tracker s)
    (track_ok_frames s) v (pose_buffer s) (recognition_in_progress s)
    (result_displayed s) (lockout_active s) (lockout_start_time s)
    (frame_count s) (capture_fps s) (display_fps s) (video_scale_factor s)
    (known_encodings s) (known_names s) (index s) (_last_frame s).

Definition with_pose_buffer (v : list PoseSample) (s : Service) : Service :=
  mkService (encodings_file s) (encodings_file_content s)
    (encodings_file_writable s) (on_overlay s) (recognition_threshold s)
    (user_exit_frames s) (pose_stride s) (frontality_thr s)
    (min_face_area_rel s) (processing s) (recognition_queue s) (tracker s)
    (track_ok_frames s) (no_face_frames s) v (recognition_in_progress s)
    (result_displayed s) (lockout_active s) (lockout_start_time s)
    (frame_count s) (capture_fps s) (display_fps s) (video_scale_factor s)
    (known_encodings s) (known_names s) (index s) (_last_frame s).

Definition with_recognition_in_progress (v : bool) (s : Service) : Service :=
  mkService (encodings_file s) (encodings_file_content s)
    (encodings_file_writable s) (on_overlay s) (recognition_threshold s)
    (user_exit_frames s) (pose_stride s) (frontality_thr s)
    (min_face_area_rel s) (processing s) (recognition_queue s) (tracker s)
    (track_ok_frames s) (no_face_frames s) (pose_buffer s) v
    (result_displayed s) (lockout_active s) (lockout_start_time s)
    (frame_count s) (capture_fps s) (display_fps s) (video_scale_factor s)
    (known_encodings s) (known_names s) (index s) (_last_frame s).

Definition with_result_displayed (v : bool) (s : Service) : Service :=
  mkService (encodings_file s) (encodings_file_content s)
    (encodings_file_writable s) (on_overlay s) (recognition_threshold s)
    (user_exit_frames s) (pose_stride s) (frontality_thr s)
    (min_face_area_rel s) (processing s) (recognition_queue s) (tracker s)
    (track_ok_frames s) (no_face_frames s) (pose_buffer s)
    (recognition_in_progress s) v (lockout_active s) (lockout_start_time s)
    (frame_count s) (capture_fps s) (display_fps s) (video_scale_factor s)
    (known_encodings s) (known_names s) (index s) (_last_frame s).

Definition with_lockout_active (v : bool) (s : Service) : Service :=
  mkService (encodings_file s) (encodings_file_content s)
    (encodings_file_writable s) (on_overlay s) (recognition_threshold s)
    (user_exit_frames s) (pose_stride s) (frontality_thr s)
    (min_face_area_rel s) (processing s) (recognition_queue s) (tracker s)
    (track_ok_frames s) (no_face_frames s) (pose_buffer s)
    (recognition_in_progress s) (result_displayed s) v (lockout_start_time s)
    (frame_count s) (capture_fps s) (display_fps s) (video_scale_factor s)
    (known_encodings s) (known_names s) (index s) (_last_frame s).

Definition with_lockout_start_time (v : Q) (s : Service) : Service :=
  mkService (encodings_file s) (encodings_file_content s)
    (encodings_file_writable s) (on_overlay s) (recognition_threshold s)
    (user_exit_frames s) (pose_stride s) (frontality_thr s)
    (min_face_area_rel s) (processing s) (recognition_queue s) (tracker s)
    (track_ok_frames s) (no_face_frames s) (pose_buffer s)
    (recognition_in_progress s) (result_displayed s) (lockout_active s) v
    (frame_count s) (capture_fps s) (display_fps s) (video_scale_factor s)
    (known_encodings s) (known_names s) (index s) (_last_frame s).

Definition with_frame_count (v : Z) (s : Service) : Service :=
  mkService (encodings_file s) (encodings_file_content s)
    (encodings_file_writable s) (on_overlay s) (recognition_threshold s)
    (user_exit_frames s) (pose_stride s) (frontality_thr s)
    (min_face_area_rel s) (processing s) (recognition_queue s) (tracker s)
    (track_ok_frames s) (no_face_frames s) (pose_buffer s)
    (recognition_in_progress s) (result_displayed s) (lockout_active s)
    (lockout_start_time s) v (capture_fps s) (display_fps s)
    (video_scale_factor s) (known_encodings s) (known_names s) (index s)
    (_last_frame s).

Definition with_known_encodings (v : list (list Q)) (s : Service) : Service :=
  mkService (encodings_file s) (encodings_file_content s)
    (encodings_file_writable s) (on_overlay s) (recognition_threshold s)
    (user_exit_frames s) (pose_stride s) (frontality_thr s)
    (min_face_area_rel s) (processing s) (recognition_queue s) (tracker s)
    (track_ok_frames s) (no_face_frames s) (pose_buffer s)
    (recognition_in_progress s) (result_displayed s) (lockout_active s)
    (lockout_start_time s) (frame_count s) (capture_fps s) (display_fps s)
    (video_scale_factor s) v (known_names s) (index s) (_last_frame s).

Definition with_known_names (v : list string) (s : Service) : Service :=
  mkService (encodings_file s) (encodings_file_content s)
    (encodings_file_writable s) (on_overlay s) (recognition_threshold s)
    (user_exit_frames s) (pose_stride s) (frontality_thr s)
    (min_face_area_rel s) (processing s) (recognition_queue s) (tracker s)
    (track_ok_frames s) (no_face_frames s) (pose_buffer s)
    (recognition_in_progress s) (result_displayed s) (lockout_active s)
    (lockout_start_time s) (frame_count s) (capture_fps s) (display_fps s)
    (video_scale_factor s) (known_encodings s) v (index s) (_last_frame s).

Definition with_index (v : option EmbeddingIndex) (s : Service) : Service :=
  mkService (encodings_file s) (encodings_file_content s)
    (encodings_file_writable s) (on_overlay s) (recognition_threshold s)
    (user_exit_frames s) (pose_stride s) (frontality_thr s)
    (min_face_area_rel s) (processing s) (recognition_queue s) (tracker s)
    (track_ok_frames s) (no_face_frames s) (pose_buffer s)
    (recognition_in_progress s) (result_displayed s) (lockout_active s)
    (lockout_start_time s) (frame_count s) (capture_fps s) (display_fps s)
    (video_scale_factor s) (known_encodings s) (known_names s) v
    (_last_frame s).

Definition with_last_frame (v : option Image) (s : Service) : Service :=
  mkService (encodings_file s) (encodings_file_content s)
    (encodings_file_writable s) (on_overlay s) (recognition_threshold s)
    (user_exit_frames s) (pose_stride s) (frontality_thr s)
    (min_face_area_rel s) (processing s) (recognition_queue s) (tracker s)
    (track_ok_frames s) (no_face_frames s) (pose_buffer s)
    (recognition_in_progress s) (result_displayed s) (lockout_active s)
    (lockout_start_time s) (frame_count s) (capture_fps s) (display_fps s)
    (video_scale_factor s) (known_encodings s) (known_names s) (index s) v.

End ServiceState.


(** ** The monad of the service's methods *)

(** What a method does besides changing attributes. *)
Inductive event : Type :=
| EvPrint (msg : string)
| EvPutNowait (item : Image) (accepted : bool)
| EvOverlay (frame : Image) (boxes : list Overlay).

Section Monad.

Context {Tracker : Type}.

(** A computation on the service: its result or the exception it raised,
    the attributes afterwards and what it did, in order. *)
Definition PyM (A : Type) : Type :=
  @Service Tracker -> res A * @Service Tracker * list event.

Local Abbreviation M := PyM.

Definition ret {A : Type} (a : A) : M A := fun s => (Ok a, s, []).

Definition bind {A B : Type} (c : M A) (k : A -> M B) : M B :=
  fun s =>
    match c s with
    | (Ok a, s1, l1) => let '(r, s2, l2) := k a s1 in (r, s2, l1 ++ l2)
    | (Raise e, s1, l1) => (Raise e, s1, l1)
    end.

Definition raise {A : Type} (e : exn) : M A := fun s => (Raise e, s, []).

Definition lift {A : Type} (r : res A) : M A := fun s => (r, s, []).

Definition gets {A : Type} (f : @Service Tracker -> A) : M A :=
  fun s => (Ok (f s), s, []).

Definition modify (f : @Service Tracker -> @Service Tracker) : M unit :=
  fun s => (Ok tt, f s, []).

Definition emit (e : event) : M unit := fun s => (Ok tt, s, [e]).

(** [try: c  except <those in catches>: h] *)
Definition try_except {A : Type} (catches : exn -> bool) (c : M A)
  (h : exn -> M A) : M A :=
  fun s =>
    match c s with
    | (Raise e, s1, l1) =>
        if catches e
        then let '(r, s2, l2) := h e s1 in (r, s2, l1 ++ l2)
        else (Raise e, s1, l1)
    | ok => ok
    end.

End Monad.

Arguments PyM Tracker A : clear implicits.

(** [except Exception] *)
Definition any_exception (e : exn) : bool := true.

(** [except queue.Full] *)
Definition queue_Full (e : exn) : bool :=
  match e with QueueFull => true | _ => false end.

Declare Scope py_scope.
Delimit Scope py_scope with py.
Notation "x <- c ;; k" := (bind c (fun x => k))
  (at level 61, c at next level, right associativity) : py_scope.
Notation "' p <- c ;; k" := (bind c (fun p => k))
  (at level 61, p pattern, c at next level, right associativity) : py_scope.
Notation "c ;; k" := (bind c (fun _ => k))
  (at level 61, right associativity) : py_scope.

Definition result_of {S A : Type} (o : res A * S * list event) : res A := fst (fst o).
Definition state_of {S A : Type} (o : res A * S * list event) : S := snd (fst o).
Definition events_of {S A : Type} (o : res A * S * list event) : list event := snd o.

(** ** queue.Queue(maxsize=1) *)

Module Queue.

Definition maxsize : Z := 1.

Definition empty {A : Type} (q : list A) : bool :=
  Z.of_nat (length q) =? 0.

(** [put_nowait]: raises [Full] at once when the queue is at capacity. *)
Definition put_nowait {A : Type} (q : list A) (item : A) : res (list A) :=
  if (0 <? maxsize) && (maxsize <=? Z.of_nat (length q))
  then Raise QueueFull
  else Ok (q ++ [item]).

(** [get(timeout=...)] once the timeout has run out: the oldest item, or
    [Empty]. *)
Definition get {A : Type} (q : list A) : res (A * list A) :=
  match q with
  | [] => Raise QueueEmpty
  | item :: rest => Ok (item, rest)
  end.

End Queue.

(** [deque(maxlen=12).append]: the oldest sample goes when the buffer is full. *)
Definition pose_buffer_maxlen : Z := 12.

Definition deque_append {A : Type} (buf : list A) (x : A) : list A :=
  if pose_buffer_maxlen <=? Z.of_nat (length buf)
  then tl buf ++ [x]
  else buf ++ [x].

(** ** Candidate selection: [min(self.pose_buffer, key=lambda t: (t[0], t[1]))] *)

Definition sample_key (t : PoseSample) : Q * Q :=
  let '(score, neg_area, _, _) := t in (score, neg_area).

(** [a < b] on pairs of floats: the first components that differ decide. *)
Definition key_lt (a b : Q * Q) : bool :=
  if negb (Qeq_bool (fst a) (fst b)) then PyFloat.Qltb (fst a) (fst b)
  else if negb (Qeq_bool (snd a) (snd b)) then PyFloat.Qltb (snd a) (snd b)
  else false.

(** The loop of [min]: a later item replaces the current one only when its
    key is strictly smaller. *)
Fixpoint min_from (best : PoseSample) (rest : list PoseSample) : PoseSample :=
  match rest with
  | [] => best
  | t :: rest' =>
      if key_lt (sample_key t) (sample_key best) then min_from t rest'
      else min_from best rest'
  end.

Definition py_min (buf : list PoseSample) : res PoseSample :=
  match buf with
  | [] => Raise ValueError
  | t :: rest => Ok (min_from t rest)
  end.

(** [faces.sort(key=area, reverse=True)]: stable, largest first. *)
Definition box_area (b : Z * Z * Z * Z * Q) : Z :=
  let '(x1, y1, x2, y2, _) := b in (x2 - x1) * (y2 - y1).

Fixpoint insert_desc (b : Z * Z * Z * Z * Q) (sorted : list (Z * Z * Z * Z * Q))
  : list (Z * Z * Z * Z * Q) :=
  match sorted with
  | [] => [b]
  | c :: rest =>
      if box_area c <? box_area b then b :: c :: rest
      else c :: insert_desc b rest
  end.

Definition sort_by_area_desc (faces : list (Z * Z * Z * Z * Q))
  : list (Z * Z * Z * Z * Q) :=
  fold_left (fun acc b => insert_desc b acc) faces [].

(** [n / float(d)] *)
Definition py_div (n d : Q) : res Q :=
  if Qeq_bool d 0 then Raise ZeroDivisionError else Ok (n / d)%Q.

Definition Desconhecido : string := "Desconhecido".

(** ** FaceRecognitionService: methods *)

Section ServiceMethods.

Context {Tracker : Type} {E : Externals Tracker}.

Local Open Scope py_scope.

Abbreviation Svc := (@Service Tracker).
Abbreviation M := (PyM Tracker).

(** *** Identity store *)

(** [load_encodings] *)
Definition load_encodings : M bool :=
  content <- gets encodings_file_content ;;
  match content with
  | None => ret false
  | Some bytes =>
      try_except any_exception
        (data <- lift (match pickle_load bytes with
                       | Some d => Ok d
                       | None => Raise UnpicklingError
                       end) ;;
         encs <- lift (get_encodings data) ;;
         modify (with_known_encodings encs) ;;
         nms <- lift (get_names data) ;;
         modify (with_known_names nms) ;;
         ke <- gets known_encodings ;;
         kn <- gets known_names ;;
         ix <- lift (EmbeddingIndex_init ke kn) ;;
         modify (with_index (Some ix)) ;;
         ret true)
        (fun _ => emit (EvPrint "Erro ao carregar encodings:") ;; ret false)
  end.

(** [update_encodings] *)
Definition update_encodings (encodings_data : list Byte.byte) : M bool :=
  try_except any_exception
    (writable <- gets encodings_file_writable ;;
     (if writable
      then modify (with_encodings_file_content (Some encodings_data))
      else raise OSError) ;;
     load_encodings)
    (fun _ => emit (EvPrint "Erro ao atualizar encodings:") ;; ret false).

(** [__init__]: the attributes as the constructor sets them, given the
    state of the file at [encodings_file], then [load_encodings]. *)
Definition init_attributes (encodings_file : string)
  (file_content : option (list Byte.byte)) (file_writable : bool)
  (on_overlay : option (Image -> list Overlay -> Image))
  (capture_fps display_fps : Z) (video_scale_factor : Q) : Svc :=
  {| encodings_file := encodings_file;
     encodings_file_content := file_content;
     encodings_file_writable := file_writable;
     on_overlay := on_overlay;
     recognition_threshold := 0.55;
     user_exit_frames := 12;
     pose_stride := 2;
     frontality_thr := 35;
     min_face_area_rel := 0.05;
     processing := false;
     recognition_queue := [];
     tracker := None;
     track_ok_frames := 0;
     no_face_frames := 0;
     pose_buffer := [];
     recognition_in_progress := false;
     result_displayed := false;
     lockout_active := false;
     lockout_start_time := 0;
     frame_count := 0;
     capture_fps := capture_fps;
     display_fps := display_fps;
     video_scale_factor := video_scale_factor;
     known_encodings := [];
     known_names := [];
     index := None;
     _last_frame := None |}.

Definition FaceRecognitionService_init (encodings_file : string)
  (file_content : option (list Byte.byte)) (file_writable : bool)
  (on_overlay : option (Image -> list Overlay -> Image))
  (capture_fps display_fps : Z) (video_scale_factor : Q) : Svc :=
  state_of (load_encodings
              (init_attributes encodings_file file_content file_writable
                 on_overlay capture_fps display_fps video_scale_factor)).

(** *** Recognition *)

(** The crop as the locator and the encoder get it: enlarged when its
    larger side is under 180 pixels, and in RGB. *)
Definition prepare_face (face_bgr : Image) : Image :=
  let '(h, w) := shape face_bgr in
  let scale_up : Q :=
    if 180 <=? Z.max h w then 1%Q
    else (180 / inject_Z (Z.max 1 (Z.max h w)))%Q in
  let face_bgr :=
    if PyFloat.Qltb 1 scale_up then cv2_resize face_bgr scale_up scale_up
    else face_bgr in
  cvtColor_BGR2RGB face_bgr.

(** [_recognize_face_crop] *)
Definition _recognize_face_crop (face_bgr : Image) : M (string * PyFloat.t) :=
  if size face_bgr =? 0 then ret (Desconhecido, Fin 0)
  else
    let rgb := prepare_face face_bgr in
    let locs := face_locations rgb in
    match locs with
    | [] => ret (Desconhecido, Fin 0)
    | loc0 :: _ =>
        let encs := face_encodings rgb [loc0] in
        match encs with
        | [] => ret (Desconhecido, Fin 0)
        | vec :: _ =>
            ix <- gets index ;;
            known <- gets known_encodings ;;
            match ix with
            | None => ret (Desconhecido, Fin 0)
            | Some ix =>
                if Z.of_nat (length known) =? 0 then ret (Desconhecido, Fin 0)
                else
                  let '(best_idx, dist) := query ix vec in
                  if best_idx <? 0 then ret (Desconhecido, Fin 0)
                  else
                    let confidence :=
                      PyFloat.max (Fin 0) (PyFloat.sub (Fin 1) dist) in
                    thr <- gets recognition_threshold ;;
                    if PyFloat.ltb dist (Fin thr)
                    then
                      nms <- gets known_names ;;
                      name <- lift (py_getitem nms best_idx) ;;
                      ret (name, confidence)
                    else ret (Desconhecido, confidence)
            end
        end
    end.

(** [process_single_frame] *)
Definition process_single_frame (frame : Image) : M (string * PyFloat.t) :=
  _recognize_face_crop frame.

(** *** Tracker *)

(** [_start_tracker] *)
Definition _start_tracker (frame : Image) (box_xyxy : Box) : M unit :=
  let '(x1, y1, x2, y2) := box_xyxy in
  let w := Z.max 2 (x2 - x1) in
  let h := Z.max 2 (y2 - y1) in
  modify (with_tracker (Some (tracker_init frame (x1, y1, w, h)))) ;;
  modify (with_track_ok_frames 0).

(** [_stop_tracker] *)
Definition _stop_tracker : M unit :=
  modify (with_tracker (None : option Tracker)) ;;
  modify (with_track_ok_frames 0).

(** *** One iteration of [_capture_and_display_frames] *)

(** [self.recognition_queue.put_nowait(item)] *)
Definition put_nowait (item : Image) : M unit :=
  q <- gets recognition_queue ;;
  match Queue.put_nowait q item with
  | Ok q' => modify (with_recognition_queue q') ;; emit (EvPutNowait item true)
  | Raise e => emit (EvPutNowait item false) ;; raise e
  end.

(** The pose sampling of a tracked frame, every [pose_stride]-th frame. *)
Definition sample_pose (frame face_crop : Image) (x1 y1 x2 y2 : Z) : M unit :=
  fc <- gets frame_count ;;
  stride <- gets pose_stride ;;
  (if stride =? 0 then raise ZeroDivisionError else ret tt) ;;
  if fc mod stride =? 0
  then
    match estimate_head_pose_angles face_crop with
    | Some (yaw, pitch, roll) =>
        let '(fh, fw) := shape frame in
        area_rel <- lift (py_div (inject_Z ((x2 - x1) * (y2 - y1)))
                                 (inject_Z (fh * fw))) ;;
        let score := (py_abs yaw + 0.8 * py_abs pitch + 0.3 * py_abs roll)%Q in
        buf <- gets pose_buffer ;;
        modify (with_pose_buffer
                  (deque_append buf (score, Qopp area_rel, face_crop,
                                     (yaw, pitch, roll))))
    | None => ret tt
    end
  else ret tt.

(** The hand-over of a crop to the recognition thread: the [try] block of
    the selection. *)
Definition submit_candidate (best_crop : Image) : M unit :=
  try_except queue_Full
    (put_nowait best_crop ;;
     modify (with_recognition_in_progress true) ;;
     modify (with_pose_buffer []))
    (fun _ => ret tt).

(** The choice of a candidate among the buffered samples. *)
Definition select_and_submit : M unit :=
  in_progress <- gets recognition_in_progress ;;
  displayed <- gets result_displayed ;;
  q <- gets recognition_queue ;;
  buf <- gets pose_buffer ;;
  if negb in_progress && negb displayed && Queue.empty q
     && (3 <=? Z.of_nat (length buf))
  then
    best <- lift (py_min buf) ;;
    let '(best_score, neg_area, best_crop, best_ang) := best in
    thr <- gets frontality_thr ;;
    min_area <- gets min_face_area_rel ;;
    if PyFloat.Qltb best_score thr && Qle_bool min_area (Qopp neg_area)
    then submit_candidate best_crop
    else ret tt
  else ret tt.

(** The tracked box clipped to the frame. *)
Definition clip_box (frame : Image) (bbox : Q * Q * Q * Q) : Box :=
  let '(bx, by_, bw, bh) := bbox in
  let x := py_int bx in
  let y := py_int by_ in
  let w := py_int bw in
  let h := py_int bh in
  let '(fh, fw) := shape frame in
  (Z.max 0 x, Z.max 0 y, Z.min fw (x + w), Z.min fh (y + h)).

(** A successful tracker update, up to the pose sample. *)
Definition follow_face (frame : Image) (bbox : Q * Q * Q * Q) : M Box :=
  n <- gets track_ok_frames ;;
  modify (with_track_ok_frames (n + 1)) ;;
  let '(x1, y1, x2, y2) := clip_box frame bbox in
  let face_crop := crop frame y1 y2 x1 x2 in
  sample_pose frame face_crop x1 y1 x2 y2 ;;
  ret (x1, y1, x2, y2).

(** The branch taken while a tracker exists. *)
Definition track_frame (t : Tracker) (frame : Image) : M (list Overlay) :=
  let '(t', (ok_tracker, bbox)) := tracker_update t frame in
  modify (with_tracker (Some t')) ;;
  if ok_tracker
  then
    ' (x1, y1, x2, y2) <- follow_face frame bbox ;;
    select_and_submit ;;
    ret [(x1, y1, x2, y2, "Rostro"%string, 0%Q)]
  else
    _stop_tracker ;;
    modify (with_pose_buffer []) ;;
    modify (with_no_face_frames 0) ;;
    ret [].

(** The branch taken without a tracker: detection on the reduced frame. *)
Definition detect_frame (frame : Image) : M (list Overlay) :=
  scale <- gets video_scale_factor ;;
  let small := cv2_resize frame scale scale in
  let faces := detector_detect small in
  match sort_by_area_desc faces with
  | [] => ret []
  | (x1s, y1s, x2s, y2s, score) :: _ =>
      qx1 <- lift (py_div (inject_Z x1s) scale) ;;
      qy1 <- lift (py_div (inject_Z y1s) scale) ;;
      qx2 <- lift (py_div (inject_Z x2s) scale) ;;
      qy2 <- lift (py_div (inject_Z y2s) scale) ;;
      let x1 := py_int qx1 in
      let y1 := py_int qy1 in
      let x2 := py_int qx2 in
      let y2 := py_int qy2 in
      let '(fh, fw) := shape frame in
      area_rel <- lift (py_div (inject_Z ((x2 - x1) * (y2 - y1)))
                               (inject_Z (fh * fw))) ;;
      min_area <- gets min_face_area_rel ;;
      if Qle_bool min_area area_rel
      then
        _start_tracker frame (x1, y1, x2, y2) ;;
        modify (with_pose_buffer []) ;;
        ret [(x1, y1, x2, y2, "Rostro"%string, 0%Q)]
      else ret []
  end.

(** The end of an iteration: the overlay callback, whose exceptions are
    swallowed, and the frame kept for the display loop. *)
Definition publish (frame : Image) (overlays : list Overlay) : M unit :=
  cb <- gets on_overlay ;;
  shown <- match cb with
           | Some f => emit (EvOverlay frame overlays) ;; ret (f frame overlays)
           | None => ret frame
           end ;;
  modify (with_last_frame (Some shown)).

(** The body of the capture loop once a frame has been read. *)
Definition capture_iteration (frame : Image) : M unit :=
  fc <- gets frame_count ;;
  modify (with_frame_count (fc + 1)) ;;
  trk <- gets tracker ;;
  overlays <- match trk with
              | Some t => track_frame t frame
              | None => detect_frame frame
              end ;;
  publish frame overlays.

(** *** [_process_recognition] *)

(** From the crop taken off the queue to the call of [time.sleep]:
    [true] when a result was produced, [false] when the handler ran. *)
Definition recognize_and_publish (face_crop : Image) (now : Q) : M bool :=
  try_except any_exception
    ('(name, confidence) <- _recognize_face_crop face_crop ;;
     modify (with_recognition_in_progress false) ;;
     modify (with_result_displayed true) ;;
     _stop_tracker ;;
     modify (with_lockout_active true) ;;
     modify (with_lockout_start_time now) ;;
     ret true)
    (fun _ =>
       emit (EvPrint "Erro no reconhecimento:") ;;
       modify (with_recognition_in_progress false) ;;
       ret false).

(** After [time.sleep(1.0)]. *)
Definition end_lockout : M unit :=
  modify (with_result_displayed false) ;;
  modify (with_lockout_active false).

(** [start_async_processing], the camera being open: the queue is drained
    and the two threads are started. *)
Definition start_async_processing : M unit :=
  running <- gets processing ;;
  if running then ret tt
  else
    modify (with_processing true) ;;
    modify (with_recognition_queue []).

End ServiceMethods.

(** ** The two threads *)

(** Where the recognition thread stands in [_process_recognition]. *)
Inductive WorkerPhase : Type :=
| Waiting                          (* in [recognition_queue.get(timeout=0.1)] *)
| Recognizing (face_crop : Image)  (* a crop taken, [_recognize_face_crop] running *)
| Sleeping (wake_at : Q).          (* in [time.sleep(1.0)] *)

Record System {Tracker : Type} : Type := mkSystem {
  svc : @Service Tracker;
  worker : WorkerPhase;
  (** the capture thread is still in its loop *)
  capture_alive : bool
}.

Arguments System Tracker : clear implicits.
Arguments mkSystem {Tracker}.

(** What the scheduler can let happen next: the capture thread reads a frame
    and runs one iteration, its read fails, or the recognition thread runs
    from one blocking call to the next, the clock showing [now]. *)
Inductive step : Type :=
| CaptureTick (frame : Image)
| CaptureReadFail
| WorkerStep (now : Q).

Section Threads.

Context {Tracker : Type} {E : Externals Tracker}.

Definition capture_step (frame : Image) (sys : System Tracker) : System Tracker :=
  if capture_alive sys && processing (svc sys)
  then
    let o := capture_iteration frame (svc sys) in
    {| svc := state_of o;
       worker := worker sys;
       capture_alive := match result_of o with Ok _ => true | Raise _ => false end |}
  else sys.

Definition capture_read_fail (sys : System Tracker) : System Tracker :=
  if capture_alive sys && processing (svc sys)
  then {| svc := svc sys; worker := worker sys; capture_alive := false |}
  else sys.

Definition worker_step (now : Q) (sys : System Tracker) : System Tracker :=
  match worker sys with
  | Waiting =>
      if processing (svc sys)
      then match Queue.get (recognition_queue (svc sys)) with
           | Ok (face_crop, rest) =>
               {| svc := with_recognition_queue rest (svc sys);
                  worker := Recognizing face_crop;
                  capture_alive := capture_alive sys |}
           | Raise _ => sys
           end
      else sys
  | Recognizing face_crop =>
      let o := recognize_and_publish face_crop now (svc sys) in
      {| svc := state_of o;
         worker := match result_of o with
                   | Ok true => Sleeping (now + 1.0)
                   | _ => Waiting
                   end;
         capture_alive := capture_alive sys |}
  | Sleeping wake_at =>
      if Qle_bool wake_at now
      then {| svc := state_of (end_lockout (svc sys));
              worker := Waiting;
              capture_alive := capture_alive sys |}
      else sys
  end.

Definition run_step (st : step) (sys : System Tracker) : System Tracker :=
  match st with
  | CaptureTick frame => capture_step frame sys
  | CaptureReadFail => capture_read_fail sys
  | WorkerStep now => worker_step now sys
  end.

Definition run (steps : list step) (sys : System Tracker) : System Tracker :=
  fold_left (fun acc st => run_step st acc) steps sys.

(** The system once [start_async_processing] has started the threads. *)
Definition started (s : @Service Tracker) : System Tracker :=
  {| svc := state_of (start_async_processing s);
     worker := Waiting;
     capture_alive := true |}.

End Threads.

(** ** A concrete environment

    A camera looking at one face that fills the frame: the detector finds it,
    the tracker keeps it for as many frames as its counter says, the pose is
    nearly frontal.  The tracker loses the face after nine frames.  The
    identity file holds two people when its bytes are
    [x00], and two vectors of different lengths when they are [x01]. *)
Module Example.

Definition pixel : Pixel := (0, 0, 0).

Definition frame : Image :=
  {| img_rows := repeat (repeat pixel 4) 4; img_cols := 4 |}.

Definition l1 (r v : list Q) : Q :=
  fold_right Qplus 0%Q (map (fun p => py_abs (fst p - snd p)) (combine r v)).

Definition good_file : list Byte.byte := [Byte.x00].
Definition ragged_file : list Byte.byte := [Byte.x01].

Definition people : Pickled :=
  PMapping (Some [[0; 0]; [1; 1]]%Q) (Some ["ana"; "bia"]%string).

Definition ragged : Pickled :=
  PMapping (Some [[0; 1]; [0]]%Q) (Some ["cris"; "duda"]%string).

Definition externals : Externals nat :=
  {| tracker_init := fun _ _ => 9%nat;
     tracker_update := fun t _ =>
       match t with
       | O => (O, (false, (0, 0, 0, 0)%Q))
       | S t' => (t', (true, (0, 0, 4, 4)%Q))
       end;
     estimate_head_pose_angles := fun _ => Some (1, 2, 3)%Q;
     detector_detect := fun _ => [(0, 0, 2, 2, 0.9%Q)];
     cv2_resize := fun img _ _ => img;
     face_locations := fun _ => [(0, 4, 4, 0)];
     face_encodings := fun _ _ => [[0; 0.5]%Q];
     norm_diff := l1;
     HAS_SKLEARN := false;
     nn_fit_accepts := fun _ => true;
     nn_kneighbors := fun _ _ => (0, Fin 0);
     pickle_load := fun bytes =>
       match bytes with
       | [Byte.x00] => Some people
       | [Byte.x01] => Some ragged
       | _ => None
       end |}.

(** The service as constructed next to the two-people file. *)
Definition service : @Service nat :=
  FaceRecognitionService_init (E := externals) "encodings.pickle"
    (Some good_file) true None 15 15 0.5.

Definition system : System nat := started service.

(** Six iterations find the face, track it and hand a crop over; the worker
    takes it, and two more frames are tracked while it recognises. *)
Definition steps_to_recognition : list step :=
  repeat (CaptureTick frame) 6
  ++ [WorkerStep 10; CaptureTick frame; CaptureTick frame].

Definition during_recognition : System nat :=
  run (E := externals) steps_to_recognition system.

(** The crop the worker is recognising, and what recognition makes of it. *)
Definition taken_crop : Image :=
  Eval vm_compute in
    match worker during_recognition with
    | Recognizing face_crop => face_crop
    | _ => frame
    end.

Definition recognised : string * PyFloat.t :=
  Eval vm_compute in
    match result_of (_recognize_face_crop (E := externals) taken_crop
                       (svc during_recognition)) with
    | Ok r => r
    | Raise _ => (Desconhecido, Fin 0)
    end.

(** After ten iterations the tracker has used up its nine frames: the face
    is lost on the next one. *)
Definition about_to_lose : System nat :=
  run (E := externals) (repeat (CaptureTick frame) 10) system.




(** The service as constructed where there is no identity file. *)
Definition empty_service : @Service nat :=
  FaceRecognitionService_init (E := externals) "encodings.pickle"
    None true None 15 15 0.5.

(** The two-people service once the file has been replaced by the ragged one. *)
Definition service_over_ragged_file : @Service nat :=
  with_encodings_file_content (Some ragged_file) service.

(** What the index of [service] answers for the vector the encoder gives. *)
Definition people_index : EmbeddingIndex :=
  {| names := ["ana"; "bia"]%string; data := [[0; 0]; [1; 1]]%Q; nn := None |}.

Definition nearest : Z * PyFloat.t :=
  Eval vm_compute in query (E := externals) people_index [0; 0.5]%Q.

(** Three samples, two of them equally frontal. *)
Definition buffer : list PoseSample :=
  [(2, -(0.1), frame, (2, 0, 0));
   (1, -(0.2), frame, (1, 0, 0));
   (1, -(0.3), frame, (1, 0, 0))]%Q.

End Example.

(** ** Further methods and helpers of the file *)

Section MoreMethods.

Context {Tracker : Type} {E : Externals Tracker}.

Local Open Scope py_scope.

(** [stop_async_processing], up to the joins of the two threads. *)
Definition stop_async_processing : PyM Tracker unit :=
  modify (with_processing false).

(** The dictionary [get_recognition_stats] returns, a field per key. *)
Record Stats : Type := mkStats {
  known_people : Z;
  stats_recognition_threshold : Q;
  stats_display_fps : Z;
  stats_capture_fps : Z;
  tracker_active : bool
}.

(** [get_recognition_stats] *)
Definition get_recognition_stats : PyM Tracker Stats :=
  nms <- gets known_names ;;
  thr <- gets recognition_threshold ;;
  dfps <- gets display_fps ;;
  cfps <- gets capture_fps ;;
  trk <- gets tracker ;;
  ret {| known_people := Z.of_nat (length nms);
         stats_recognition_threshold := thr;
         stats_display_fps := dfps;
         stats_capture_fps := cfps;
         tracker_active := match trk with Some _ => true | None => false end |}.

End MoreMethods.

(** ** The two threads, statement by statement

    [worker_step] takes the recognition thread from one blocking call to the
    next in one go.  Below the thread is followed one statement at a time,
    so that the capture loop can run between any two of its writes, and the
    run flag is read where the source reads it: at the head of each loop,
    before the blocking call.  An iteration of the capture loop, from the
    frame read to [_last_frame], remains one move. *)

(** Where the capture thread stands in [_capture_and_display_frames]. *)
Inductive CapturePc : Type :=
| AtWhile        (* line 254, about to evaluate the loop condition *)
| InRead         (* line 259, in [video_capture.read()] *)
| CaptureLeft.   (* past the loop *)

(** Where the recognition thread stands in [_process_recognition]: the line
    it is about to execute, or the blocking call it is in. *)
Inductive WorkerPc : Type :=
| AtLoopHead                       (* line 331 *)
| InGet                            (* line 333, in [get(timeout=0.1)] *)
| AtRecognize (face_crop : Image)  (* line 337 *)
| AtClearInProgress                (* line 338 *)
| AtSetDisplayed                   (* line 339 *)
| AtDropTracker                    (* line 344, then line 222 *)
| AtResetTrackCount                (* line 223 *)
| AtSetLockout                     (* line 346 *)
| AtStampLockout                   (* line 347 *)
| AtSleep                          (* line 349, about to call [time.sleep] *)
| InSleep (wake_at : Q)            (* line 349, in [time.sleep(1.0)] *)
| AtClearDisplayed                 (* line 350 *)
| AtClearLockout                   (* line 351 *)
| AtPrintError                     (* line 353 *)
| AtHandlerClear                   (* line 354 *)
| WorkerLeft.                      (* past the loop *)

Record Threads {Tracker : Type} : Type := mkThreads {
  shared : @Service Tracker;
  capture_pc : CapturePc;
  worker_pc : WorkerPc
}.

Arguments Threads Tracker : clear implicits.
Arguments mkThreads {Tracker}.

(** What can happen next. *)
Inductive move : Type :=
| CaptureTest                   (* the capture thread evaluates line 254 *)
| CaptureFrame (frame : Image)  (* [read] gives a frame: lines 259 to 326 *)
| CaptureNoFrame                (* [read] fails: lines 259 to 262 *)
| WorkerLine (now : Q)          (* the worker executes the statement it is
                                   at, the clock showing [now] *)
| GetTimesOut                   (* the 0.1 s of [get] run out: lines 334, 335 *)
| StopRequested.                (* [stop_async_processing], line 244 *)

Section Lines.

Context {Tracker : Type} {E : Externals Tracker}.

Definition capture_test (th : Threads Tracker) : Threads Tracker :=
  match capture_pc th with
  | AtWhile =>
      {| shared := shared th;
         capture_pc := if processing (shared th) then InRead else CaptureLeft;
         worker_pc := worker_pc th |}
  | _ => th
  end.

Definition capture_frame (frame : Image) (th : Threads Tracker)
  : Threads Tracker :=
  match capture_pc th with
  | InRead =>
      let o := capture_iteration frame (shared th) in
      {| shared := state_of o;
         capture_pc := match result_of o with
                       | Ok _ => AtWhile
                       | Raise _ => CaptureLeft
                       end;
         worker_pc := worker_pc th |}
  | _ => th
  end.

Definition capture_no_frame (th : Threads Tracker) : Threads Tracker :=
  match capture_pc th with
  | InRead =>
      {| shared := shared th; capture_pc := CaptureLeft;
         worker_pc := worker_pc th |}
  | _ => th
  end.

Definition worker_line (now : Q) (th : Threads Tracker) : Threads Tracker :=
  let s := shared th in
  let goes (s' : @Service Tracker) (pc : WorkerPc) :=
    {| shared := s'; capture_pc := capture_pc th; worker_pc := pc |} in
  match worker_pc th with
  | AtLoopHead => goes s (if processing s then InGet else WorkerLeft)
  | InGet =>
      match Queue.get (recognition_queue s) with
      | Ok (face_crop, rest) =>
          goes (with_recognition_queue rest s) (AtRecognize face_crop)
      | Raise _ => th
      end
  | AtRecognize face_crop =>
      let o := _recognize_face_crop face_crop s in
      goes (state_of o)
           (match result_of o with
            | Ok _ => AtClearInProgress
            | Raise _ => AtPrintError
            end)
  | AtClearInProgress => goes (with_recognition_in_progress false s) AtSetDisplayed
  | AtSetDisplayed => goes (with_result_displayed true s) AtDropTracker
  | AtDropTracker => goes (with_tracker None s) AtResetTrackCount
  | AtResetTrackCount => goes (with_track_ok_frames 0 s) AtSetLockout
  | AtSetLockout => goes (with_lockout_active true s) AtStampLockout
  | AtStampLockout => goes (with_lockout_start_time now s) AtSleep
  | AtSleep => goes s (InSleep (now + 1.0))
  | InSleep wake_at => if Qle_bool wake_at now then goes s AtClearDisplayed else th
  | AtClearDisplayed => goes (with_result_displayed false s) AtClearLockout
  | AtClearLockout => goes (with_lockout_active false s) AtLoopHead
  | AtPrintError => goes s AtHandlerClear
  | AtHandlerClear => goes (with_recognition_in_progress false s) AtLoopHead
  | WorkerLeft => th
  end.

Definition get_times_out (th : Threads Tracker) : Threads Tracker :=
  match worker_pc th, recognition_queue (shared th) with
  | InGet, [] =>
      {| shared := shared th; capture_pc := capture_pc th;
         worker_pc := AtLoopHead |}
  | _, _ => th
  end.

Definition stop_requested (th : Threads Tracker) : Threads Tracker :=
  {| shared := state_of (stop_async_processing (shared th));
     capture_pc := capture_pc th;
     worker_pc := worker_pc th |}.

Definition make_move (m : move) (th : Threads Tracker) : Threads Tracker :=
  match m with
  | CaptureTest => capture_test th
  | CaptureFrame frame => capture_frame frame th
  | CaptureNoFrame => capture_no_frame th
  | WorkerLine now => worker_line now th
  | GetTimesOut => get_times_out th
  | StopRequested => stop_requested th
  end.

Definition play (moves : list move) (th : Threads Tracker) : Threads Tracker :=
  fold_left (fun acc m => make_move m acc) moves th.

(** The threads of a [System], each at the head of its pass. *)
Definition threads_of (sys : System Tracker) : Threads Tracker :=
  {| shared := svc sys;
     capture_pc := if capture_alive sys then AtWhile else CaptureLeft;
     worker_pc := match worker sys with
                  | Waiting => AtLoopHead
                  | Recognizing face_crop => AtRecognize face_crop
                  | Sleeping wake_at => InSleep wake_at
                  end |}.

(** The moves a [step] is made of. *)
Definition moves_of (st : step) (sys : System Tracker) : list move :=
  match st with
  | CaptureTick frame =>
      if capture_alive sys && processing (svc sys)
      then [CaptureTest; CaptureFrame frame] else []
  | CaptureReadFail =>
      if capture_alive sys && processing (svc sys)
      then [CaptureTest; CaptureNoFrame] else []
  | WorkerStep now =>
      match worker sys with
      | Waiting =>
          if processing (svc sys)
          then match recognition_queue (svc sys) with
               | [] => []
               | _ :: _ => [WorkerLine now; WorkerLine now]
               end
          else []
      | Recognizing face_crop =>
          match result_of (_recognize_face_crop face_crop (svc sys)) with
          | Ok _ => repeat (WorkerLine now) 8
          | Raise _ => repeat (WorkerLine now) 3
          end
      | Sleeping wake_at =>
          if Qle_bool wake_at now then repeat (WorkerLine now) 3 else []
      end
  end.

End Lines.

(** *** [FaceDetector.detect] *)

(** A MediaPipe detection: its relative bounding box and its scores. *)
Record MpDetection : Type := mkMpDetection {
  bb_xmin : Q;
  bb_ymin : Q;
  bb_width : Q;
  bb_height : Q;
  mp_score : list Q
}.

(** The box of one detection in a frame of [h] rows and [w] columns. *)
Definition mediapipe_box (h w : Z) (d : MpDetection) : Z * Z * Z * Z * Q :=
  let x1 := Z.max 0 (py_int (bb_xmin d * inject_Z w)) in
  let y1 := Z.max 0 (py_int (bb_ymin d * inject_Z h)) in
  let x2 := Z.min w (py_int ((bb_xmin d + bb_width d) * inject_Z w)) in
  let y2 := Z.min h (py_int ((bb_ymin d + bb_height d) * inject_Z h)) in
  let score := match mp_score d with s :: _ => s | [] => 0%Q end in
  (x1, y1, x2, y2, score).

(** [detect]: [mp_process] is [self.mp_face.process] on the RGB frame (its
    detections, none when the attribute is missing or empty), and
    [detect_multi_scale] the Haar cascade on the grey frame. *)
Definition FaceDetector_detect (use_mediapipe : bool)
  (mp_process : Image -> list MpDetection)
  (detect_multi_scale : Image -> list (Z * Z * Z * Z))
  (frame_bgr : Image) : list (Z * Z * Z * Z * Q) :=
  if use_mediapipe
  then
    let rgb := cvtColor_BGR2RGB frame_bgr in
    let '(h, w) := shape frame_bgr in
    map (mediapipe_box h w) (mp_process rgb)
  else
    map (fun '(x, y, w, h) => (x, y, x + w, y + h, 0.8%Q))
        (detect_multi_scale frame_bgr).

(** *** The end of [_estimate_head_pose_angles] *)

(** [a % b] on floats: the result has the sign of [b]. *)
Definition py_mod (a b : Q) : Q := (a - b * inject_Z (Qfloor (a / b)))%Q.

(** [norm180] *)
Definition norm180 (a : Q) : Q := (py_mod (a + 180) 360 - 180)%Q.

(** The three angles in degrees as they are returned: each brought into
    the half-open turn, the pitch then folded. *)
Definition normalize_angles (yaw pitch roll : Q) : Q * Q * Q :=
  let yaw := norm180 yaw in
  let pitch := norm180 pitch in
  let roll := norm180 roll in
  let pitch :=
    if PyFloat.Qltb 90 (py_abs pitch)
    then ((180 - py_abs pitch) * (if PyFloat.Qltb 0 pitch then 1 else -1))%Q
    else pitch in
  (yaw, pitch, roll).

(** *** [initialize_camera] *)

(** The fallback loop: [opens k i] tells whether the [k]-th
    [cv2.VideoCapture] of the call, made on index [i], is opened. *)
Fixpoint try_indices (opens : nat -> Z -> bool) (attempt : nat)
  (indices : list Z) : option Z :=
  match indices with
  | [] => None
  | i :: rest =>
      if opens attempt i then Some i
      else try_indices opens (S attempt) rest
  end.

(** [initialize_camera]: the index of the capture it keeps, [None] when it
    raises [RuntimeError]. *)
Definition initialize_camera (opens : nat -> Z -> bool) (camera_index : Z)
  : option Z :=
  if opens O camera_index then Some camera_index
  else try_indices opens 1%nat [1; 2; 3; 4].

(** ** More of the concrete environment

    The same camera, with two more identity files: [x02] decodes to a
    mapping without the key ['encodings'], [x03] to two encodings with a
    single name. *)
Module Scenario.

Definition nameless_file : list Byte.byte := [Byte.x02].
Definition short_names_file : list Byte.byte := [Byte.x03].
Definition garbage_file : list Byte.byte := [Byte.xff].

Definition no_encodings : Pickled := PMapping None (Some ["eva"]%string).

Definition short_names : Pickled :=
  PMapping (Some [[1; 1]; [0; 0]]%Q) (Some ["ana"]%string).

Definition externals : Externals nat :=
  {| tracker_init := tracker_init (Externals := Example.externals);
     tracker_update := tracker_update (Externals := Example.externals);
     estimate_head_pose_angles :=
       estimate_head_pose_angles (Externals := Example.externals);
     detector_detect := detector_detect (Externals := Example.externals);
     cv2_resize := cv2_resize (Externals := Example.externals);
     face_locations := face_locations (Externals := Example.externals);
     face_encodings := face_encodings (Externals := Example.externals);
     norm_diff := Example.l1;
     HAS_SKLEARN := false;
     nn_fit_accepts := fun _ => true;
     nn_kneighbors := fun _ _ => (0, Fin 0);
     pickle_load := fun bytes =>
       match bytes with
       | [Byte.x00] => Some Example.people
       | [Byte.x01] => Some Example.ragged
       | [Byte.x02] => Some no_encodings
       | [Byte.x03] => Some short_names
       | _ => None
       end |}.

(** A service next to a file it may not write. *)
Definition read_only_service : @Service nat :=
  FaceRecognitionService_init (E := externals) "encodings.pickle"
    (Some Example.good_file) false None 15 15 0.5.

(** The service after the update with the file of two encodings and one
    name. *)
Definition service_short_names : @Service nat :=
  state_of (update_encodings (E := externals) short_names_file
              Example.empty_service).

(** The worker holding a crop that service cannot name. *)
Definition unnameable : System nat :=
  {| svc := with_recognition_in_progress true
              (with_processing true service_short_names);
     worker := Recognizing Example.frame;
     capture_alive := true |}.

(** A MediaPipe detection in the middle of the frame, and a Haar
    rectangle. *)
Definition centred : MpDetection :=
  {| bb_xmin := 0.25; bb_ymin := 0.25; bb_width := 0.5; bb_height := 0.5;
     mp_score := [0.9%Q] |}.

Definition mp_process (rgb : Image) : list MpDetection := [centred].

Definition cascade (gray : Image) : list (Z * Z * Z * Z) := [(1, 1, 2, 2)].

(** A camera present at index 2 only. *)
Definition opens (attempt : nat) (i : Z) : bool := i =? 2.

(** An index whose second and third rows are equally near [[0; 0.5]], and
    what it answers for that vector. *)
Definition tied_index : EmbeddingIndex :=
  {| names := ["ana"; "bia"; "caio"]%string;
     data := [[1; 1]; [0; 0]; [0; 1]]%Q;
     nn := None |}.

Definition tied_nearest : Z * PyFloat.t :=
  Eval vm_compute in query (E := externals) tied_index [0; 0.5]%Q.

(** Three buffered samples with crops of their own, the two most frontal of
    equal score, in a service that tracks a face. *)
Definition candidates : list PoseSample :=
  [(20, -(0.0625), crop Example.frame 0 1 0 1, (20, 0, 0));
   (10, -(0.25), crop Example.frame 0 2 0 2, (10, 0, 0));
   (10, -(0.5625), crop Example.frame 0 3 0 3, (10, 0, 0))]%Q.

Definition selecting : @Service nat :=
  with_pose_buffer candidates (with_tracker (Some 4%nat) Example.service).

(** The capture thread going through [n] frames. *)
Definition frames (n : nat) : list move :=
  concat (repeat [CaptureTest; CaptureFrame Example.frame] n).

(** A slow recognition: the crop of the sixth frame is taken, eleven frames
    pass while it is recognised, and the eighteenth frame falls between the
    worker's lines 338 and 339. *)
Definition overlap : list move :=
  frames 6 ++ [WorkerLine 10; WorkerLine 10]
  ++ frames 11 ++ [WorkerLine 11; WorkerLine 11]
  ++ frames 1 ++ repeat (WorkerLine 11) 6.

(** The run flag is lowered while the worker waits in [get] with a crop
    queued and the capture thread reads a frame. *)
Definition stopping : Threads nat :=
  play (E := externals)
    ([WorkerLine 0] ++ frames 6 ++ [CaptureTest; StopRequested])
    (threads_of Example.system).

Definition winding_down : list move :=
  [WorkerLine 10; CaptureFrame Example.frame; CaptureTest; WorkerLine 10].

End Scenario.

(** ** Vocabulary of the properties *)

(** The order of the keys [(score, -area)]: first components first. *)
Definition lex_le (a b : Q * Q) : Prop :=
  (fst a < fst b)%Q \/ (fst a == fst b /\ snd a <= snd b)%Q.

Definition score_of (t : PoseSample) : Q :=
  let '(score, _, _, _) := t in score.

(** The area ratio of a sample, which the buffer stores negated. *)
Definition area_of (t : PoseSample) : Q :=
  let '(_, neg_area, _, _) := t in Qopp neg_area.

(** The crop a sample carries. *)
Definition crop_of (t : PoseSample) : Image :=
  let '(_, _, face_crop, _) := t in face_crop.

(** The key the spec orders the samples by: quality score first, then the
    larger area ratio. *)
Definition quality_key (t : PoseSample) : Q * Q :=
  (score_of t, Qopp (area_of t)).

(** Vectors of one length. *)
Definition rectangular (encodings : list (list Q)) : Prop :=
  forall r r', In r encodings -> In r' encodings -> length r = length r'.

Definition load_message : event := EvPrint "Erro ao carregar encodings:".

(** The queue holds at most one request. *)
Definition queue_bounded {Tracker : Type} (s : @Service Tracker) : Prop :=
  (length (recognition_queue s) <= 1)%nat.

(** Outside the worker's sleep nothing is displayed and no lockout is on. *)
Definition lockout_consistent {Tracker : Type} (sys : System Tracker) : Prop :=
  match worker sys with
  | Sleeping _ => True
  | _ => result_displayed (svc sys) = false /\ lockout_active (svc sys) = false
  end.

(** The worker sleeps until [wake_at] with the result displayed. *)
Definition in_lockout {Tracker : Type} (wake_at : Q) (sys : System Tracker) : Prop :=
  worker sys = Sleeping wake_at /\
  result_displayed (svc sys) = true /\
  lockout_active (svc sys) = true.

(** [c], started where [P] holds, ends (returning or raising) where [Q]
    holds, and every event it produces satisfies [Ev]. *)
Definition triple {Tracker A : Type} (P : @Service Tracker -> Prop)
  (c : PyM Tracker A) (Q : @Service Tracker -> Prop) (Ev : event -> Prop) : Prop :=
  forall s, P s -> Q (state_of (c s)) /\ Forall Ev (events_of (c s)).

(** The two display flags have the given values. *)
Definition flags_are {Tracker : Type} (displayed lockout : bool)
  (s : @Service Tracker) : Prop :=
  result_displayed s = displayed /\ lockout_active s = lockout.

(** The producer's view of the slot is the one it had in [s0]. *)
Definition same_slot {Tracker : Type} (s0 s : @Service Tracker) : Prop :=
  recognition_in_progress s = recognition_in_progress s0 /\
  recognition_queue s = recognition_queue s0.

(** An enqueue is only attempted from [s0] when no recognition is in
    progress and the queue is empty there, and then it is accepted. *)
Definition put_allowed {Tracker : Type} (s0 : @Service Tracker) (ev : event)
  : Prop :=
  match ev with
  | EvPutNowait _ accepted =>
      recognition_in_progress s0 = false /\
      recognition_queue s0 = [] /\
      accepted = true
  | _ => True
  end.

(** Tracking, or else an empty pose buffer. *)
Definition tracking_or_cleared {Tracker : Type} (s : @Service Tracker) : Prop :=
  tracker s <> None \/ pose_buffer s = [].

(** Not tracking, or else an empty pose buffer. *)
Definition absent_or_cleared {Tracker : Type} (s : @Service Tracker) : Prop :=
  tracker s = None \/ pose_buffer s = [].

Definition anywhere {Tracker : Type} (s : @Service Tracker) : Prop := True.

Definition any_event (ev : event) : Prop := True.

(** The pose buffer respects the bound of its deque. *)
Definition pose_buffer_bounded {Tracker : Type} (s : @Service Tracker) : Prop :=
  Z.of_nat (length (pose_buffer s)) <= pose_buffer_maxlen.

(** The producer's view of the slot and of the display is the one of [s0]. *)
Definition same_view {Tracker : Type} (s0 s : @Service Tracker) : Prop :=
  recognition_in_progress s = recognition_in_progress s0 /\
  recognition_queue s = recognition_queue s0 /\
  result_displayed s = result_displayed s0.

(** Since [s0] the slot has not moved, or one crop was put on the empty
    queue of an idle service showing no result. *)
Definition slot_moved {Tracker : Type} (s0 s : @Service Tracker) : Prop :=
  result_displayed s = result_displayed s0 /\
  ((recognition_in_progress s = recognition_in_progress s0 /\
    recognition_queue s = recognition_queue s0) \/
   (recognition_in_progress s0 = false /\
    result_displayed s0 = false /\
    recognition_queue s0 = [] /\
    recognition_in_progress s = true /\
    exists item, recognition_queue s = [item])).

(** The crop the worker has taken off the queue and for which it has not
    yet cleared [recognition_in_progress]. *)
Definition in_hand (pc : WorkerPc) : nat :=
  match pc with
  | AtRecognize _ | AtClearInProgress | AtPrintError | AtHandlerClear => 1%nat
  | _ => 0%nat
  end.

(** One request at most is queued or in the worker's hand, the flag being
    raised while one is. *)
Definition one_in_flight {Tracker : Type} (th : Threads Tracker) : Prop :=
  match in_hand (worker_pc th) with
  | O =>
      recognition_queue (shared th) = [] \/
      (recognition_in_progress (shared th) = true /\
       exists item, recognition_queue (shared th) = [item])
  | S _ =>
      recognition_queue (shared th) = [] /\
      recognition_in_progress (shared th) = true
  end.

(** The passes a thread still makes once the run flag is down: the frame
    the capture thread is reading, the crop the worker is waiting for. *)
Definition frames_owed (pc : CapturePc) : Z :=
  match pc with InRead => 1 | _ => 0 end.

Definition gets_owed (pc : WorkerPc) : nat :=
  match pc with InGet => 1%nat | _ => 0%nat end.

(** Areas from the largest down. *)
Fixpoint descending (l : list (Z * Z * Z * Z * Q)) : Prop :=
  match l with
  | [] => True
  | b :: rest => (forall c, In c rest -> box_area c <= box_area b) /\ descending rest
  end.

(** A distance a neighbour search may answer: not negative, not minus
    infinity. *)
Definition sane_distance (d : PyFloat.t) : Prop :=
  match d with
  | PyFloat.Fin q => (0 <= q)%Q
  | PyFloat.NInf => False
  | _ => True
  end.

Definition update_message : event := EvPrint "Erro ao atualizar encodings:".

Definition recognition_message : event := EvPrint "Erro no reconhecimento:".

(** The frame is counted [fc], the stride is [k] and the pose buffer holds
    [n] samples at most. *)
Definition counted_with {Tracker : Type} (n : nat) (fc k : Z)
  (s : @Service Tracker) : Prop :=
  frame_count s = fc /\ pose_stride s = k /\ (length (pose_buffer s) <= n)%nat.

(** A detected box brought back from the reduced frame to the full one. *)
Definition rescaled_box (scale : Q) (face : Z * Z * Z * Z * Q) : Box :=
  let '(x1s, y1s, x2s, y2s, _) := face in
  (py_int (inject_Z x1s / scale), py_int (inject_Z y1s / scale),
   py_int (inject_Z x2s / scale), py_int (inject_Z y2s / scale)).

(** The share of the frame a box covers. *)
Definition area_ratio (frame : Image) (box : Box) : Q :=
  let '(x1, y1, x2, y2) := box in
  let '(fh, fw) := shape frame in
  (inject_Z ((x2 - x1) * (y2 - y1)) / inject_Z (fh * fw))%Q.

(** An image whose rows all have the width the array declares. *)
Definition well_formed_image (a : Image) : Prop :=
  0 <= img_cols a /\
  forall row, In row (img_rows a) -> Z.of_nat (length row) = img_cols a.

(** * Properties *)

(** ** Comparisons of floats *)

Lemma Qltb_lt (x y : Q) : PyFloat.Qltb x y = true <-> (x < y)%Q.
Proof.
  unfold PyFloat.Qltb. rewrite negb_true_iff.
  split; intro H.
  - apply Qnot_le_lt. intro Hle. apply Qle_bool_iff in Hle. congruence.
  - destruct (Qle_bool y x) eqn:Hb; [|reflexivity].
    apply Qle_bool_iff in Hb. exfalso. apply (Qlt_not_le _ _ H Hb).
Qed.

Lemma Qltb_ge (x y : Q) : PyFloat.Qltb x y = false <-> (y <= x)%Q.
Proof.
  unfold PyFloat.Qltb. rewrite negb_false_iff. apply Qle_bool_iff.
Qed.

(** On finite floats [max(0.0, 1.0 - d)] is the mathematical maximum. *)
Lemma confidence_finite (d : Q) :
  exists c : Q,
    PyFloat.max (Fin 0) (PyFloat.sub (Fin 1) (Fin d)) = Fin c /\
    (0 <= c)%Q /\ (1 - d <= c)%Q /\ (c == 0 \/ c == 1 - d)%Q.
Proof.
  unfold PyFloat.max, PyFloat.sub, PyFloat.ltb.
  destruct (PyFloat.Qltb 0 (1 - d)) eqn:Hc.
  - exists (1 - d)%Q. apply Qltb_lt in Hc.
    split; [reflexivity|]. split; [lra|]. split; [lra|].
    right. reflexivity.
  - exists 0%Q. apply Qltb_ge in Hc.
    split; [reflexivity|]. split; [lra|]. split; [lra|].
    left. reflexivity.
Qed.

(** ** The brute-force nearest neighbour *)

Lemma argmin_from_least (l : list Q) :
  forall (best_i : Z) (best : Q) (i : Z),
    (snd (argmin_from best_i best i l) <= best)%Q /\
    (forall x, In x l -> (snd (argmin_from best_i best i l) <= x)%Q) /\
    ((fst (argmin_from best_i best i l) = best_i /\
      snd (argmin_from best_i best i l) = best) \/
     (i <= fst (argmin_from best_i best i l) /\
      nth_error l (Z.to_nat (fst (argmin_from best_i best i l) - i))
      = Some (snd (argmin_from best_i best i l)))).
Proof.
  induction l as [|x rest IH]; intros best_i best i; cbn [argmin_from].
  - split; [apply Qle_refl|]. split; [intros x []|]. left. split; reflexivity.
  - destruct (PyFloat.Qltb x best) eqn:Hlt.
    + apply Qltb_lt in Hlt.
      destruct (IH i x (i + 1)) as (Hle & Hall & Hwhere).
      split; [lra|]. split.
      * intros y [<-|Hy]; [exact Hle | apply Hall; exact Hy].
      * right. destruct Hwhere as [[Hi Hd]|[Hi Hnth]].
        -- rewrite Hi, Hd. split; [lia|].
           replace (i - i) with 0 by lia. reflexivity.
        -- split; [lia|].
           replace (Z.to_nat (fst (argmin_from i x (i + 1) rest) - i))
             with (S (Z.to_nat (fst (argmin_from i x (i + 1) rest) - (i + 1))))
             by lia.
           exact Hnth.
    + apply Qltb_ge in Hlt.
      destruct (IH best_i best (i + 1)) as (Hle & Hall & Hwhere).
      split; [exact Hle|]. split.
      * intros y [<-|Hy]; [lra | apply Hall; exact Hy].
      * destruct Hwhere as [Hsame|[Hi Hnth]]; [left; exact Hsame|].
        right. split; [lia|].
        replace (Z.to_nat (fst (argmin_from best_i best (i + 1) rest) - i))
          with (S (Z.to_nat (fst (argmin_from best_i best (i + 1) rest)
                             - (i + 1))))
          by lia.
        exact Hnth.
Qed.

(** Without a fitted [NearestNeighbors] the query answers a row of the index
    at least distance from the vector, and that distance. *)
Lemma query_brute_force_nearest {Tracker : Type} {E : Externals Tracker}
  (ix : EmbeddingIndex) (vec : list Q) (best_idx : Z) (dist : PyFloat.t) :
  nn ix = None ->
  query ix vec = (best_idx, dist) ->
  0 <= best_idx ->
  exists row,
    nth_error (data ix) (Z.to_nat best_idx) = Some row /\
    dist = Fin (norm_diff row vec) /\
    forall r, In r (data ix) -> (norm_diff row vec <= norm_diff r vec)%Q.
Proof.
  intros Hnn Hq Hidx. unfold query in Hq. rewrite Hnn in Hq.
  destruct (data ix) as [|row rest]; [injection Hq as <- _; lia|].
  pose proof (argmin_from_least (map (fun r => norm_diff r vec) rest)
                0 (norm_diff row vec) 1) as (Hle & Hall & Hwhere).
  destruct (argmin_from 0 (norm_diff row vec) 1
              (map (fun r => norm_diff r vec) rest)) as [j d].
  cbn [fst snd] in *. injection Hq as <- <-.
  destruct Hwhere as [[Hj Hd]|[Hj Hnth]].
  - subst j d. exists row. split; [reflexivity|]. split; [reflexivity|].
    intros r [<-|Hr]; [apply Qle_refl|].
    apply Hall. apply in_map_iff. exists r. split; [reflexivity | exact Hr].
  - rewrite nth_error_map in Hnth.
    destruct (nth_error rest (Z.to_nat (j - 1))) as [r0|] eqn:Hr0;
      [|discriminate].
    cbn in Hnth. injection Hnth as Hd. subst d.
    exists r0. split.
    + replace (Z.to_nat j) with (S (Z.to_nat (j - 1))) by lia. exact Hr0.
    + split; [reflexivity|].
      intros r [<-|Hr]; [exact Hle|].
      apply Hall. apply in_map_iff. exists r. split; [reflexivity | exact Hr].
Qed.

(** ** Recognition *)

Section RecognitionFacts.

Context {Tracker : Type} {E : Externals Tracker}.

Local Abbreviation Svc := (@Service Tracker).

(** [_recognize_face_crop] only reads the service. *)
Lemma recognize_reads_only (face_bgr : Image) (s : Svc) :
  state_of (_recognize_face_crop face_bgr s) = s /\
  events_of (_recognize_face_crop face_bgr s) = [].
Proof.
  unfold _recognize_face_crop.
  destruct (size face_bgr =? 0); [split; reflexivity|].
  destruct (face_locations (prepare_face face_bgr)) as [|loc0 locs];
    [split; reflexivity|].
  destruct (face_encodings (prepare_face face_bgr) [loc0]) as [|vec encs];
    [split; reflexivity|].
  unfold bind, gets, ret, lift, state_of, events_of; cbn.
  destruct (index s) as [ix|]; [|split; reflexivity].
  destruct (Z.of_nat (length (known_encodings s)) =? 0); [split; reflexivity|].
  destruct (query ix vec) as [best_idx dist].
  destruct (best_idx <? 0); [split; reflexivity|].
  cbn.
  destruct (PyFloat.ltb dist (Fin (recognition_threshold s))); cbn;
    [|split; reflexivity].
  destruct (py_getitem (known_names s) best_idx); split; reflexivity.
Qed.

(** The four early exits and the guard on the index all give the sentinel. *)
Lemma recognize_sentinel_cases (face_bgr : Image) (s : Svc) :
  size face_bgr = 0 \/
  face_locations (prepare_face face_bgr) = [] \/
  (exists loc0 locs,
      face_locations (prepare_face face_bgr) = loc0 :: locs /\
      face_encodings (prepare_face face_bgr) [loc0] = []) \/
  index s = None \/
  known_encodings s = [] \/
  (exists ix, index s = Some ix /\ data ix = []) ->
  _recognize_face_crop face_bgr s = (Ok (Desconhecido, Fin 0), s, []).
Proof.
  intro H. unfold _recognize_face_crop.
  destruct (size face_bgr =? 0) eqn:Hsize; [reflexivity|].
  destruct H as [H|H]; [apply Z.eqb_neq in Hsize; contradiction|].
  destruct (face_locations (prepare_face face_bgr)) as [|loc0 locs] eqn:Hlocs;
    [reflexivity|].
  destruct H as [H|H]; [discriminate|].
  destruct (face_encodings (prepare_face face_bgr) [loc0]) as [|vec encs] eqn:Hencs;
    [reflexivity|].
  destruct H as [(l0 & ls & Hl & He)|H].
  { injection Hl as <- <-. rewrite Hencs in He. discriminate. }
  unfold bind, gets, ret; cbn.
  destruct (index s) as [ix|] eqn:Hix; [|reflexivity].
  destruct H as [H|H]; [discriminate|].
  destruct (Z.of_nat (length (known_encodings s)) =? 0) eqn:Hknown; [reflexivity|].
  destruct H as [H|(ix' & Hix' & Hdata)].
  { rewrite H in Hknown. discriminate. }
  injection Hix' as <-.
  unfold query. rewrite Hdata. reflexivity.
Qed.

(** Past the early exits, the result is decided by the distance alone. *)
Lemma recognize_past_guards (face_bgr : Image) (s : Svc) (ix : EmbeddingIndex)
  (loc0 : Box) (locs : list Box) (vec : list Q) (encs : list (list Q))
  (best_idx : Z) (dist : PyFloat.t) :
  size face_bgr <> 0 ->
  face_locations (prepare_face face_bgr) = loc0 :: locs ->
  face_encodings (prepare_face face_bgr) [loc0] = vec :: encs ->
  index s = Some ix ->
  known_encodings s <> [] ->
  query ix vec = (best_idx, dist) ->
  0 <= best_idx ->
  result_of (_recognize_face_crop face_bgr s) =
    let confidence := PyFloat.max (Fin 0) (PyFloat.sub (Fin 1) dist) in
    if PyFloat.ltb dist (Fin (recognition_threshold s))
    then match py_getitem (known_names s) best_idx with
         | Ok name => Ok (name, confidence)
         | Raise e => Raise e
         end
    else Ok (Desconhecido, confidence).
Proof.
  intros Hsize Hlocs Hencs Hix Hknown Hq Hidx.
  unfold _recognize_face_crop.
  apply Z.eqb_neq in Hsize. rewrite Hsize, Hlocs, Hencs.
  unfold bind, gets, ret, lift, result_of; cbn.
  rewrite Hix.
  destruct (known_encodings s) as [|k ks]; [contradiction|].
  cbn [length]. rewrite Nat2Z.inj_succ.
  destruct (Z.succ (Z.of_nat (length ks)) =? 0) eqn:Hz;
    [apply Z.eqb_eq in Hz; lia|].
  rewrite Hq.
  destruct (best_idx <? 0) eqn:Hneg; [apply Z.ltb_lt in Hneg; lia|].
  cbn.
  destruct (PyFloat.ltb dist (Fin (recognition_threshold s))); cbn;
    [|reflexivity].
  destruct (py_getitem (known_names s) best_idx); reflexivity.
Qed.

End RecognitionFacts.

(** ** Candidate selection *)

Lemma lex_le_refl (a : Q * Q) : lex_le a a.
Proof. right. split; [reflexivity | apply Qle_refl]. Qed.

Lemma lex_le_trans (a b c : Q * Q) : lex_le a b -> lex_le b c -> lex_le a c.
Proof.
  unfold lex_le. intros [Hab|[Hab Hab']] [Hbc|[Hbc Hbc']].
  - left. lra.
  - left. lra.
  - left. lra.
  - right. split; lra.
Qed.

Lemma Qeq_bool_false (x y : Q) : Qeq_bool x y = false -> ~ (x == y)%Q.
Proof. intros H Heq. apply Qeq_bool_iff in Heq. congruence. Qed.

Lemma key_lt_true (a b : Q * Q) : key_lt a b = true -> lex_le a b.
Proof.
  unfold key_lt, lex_le.
  destruct (Qeq_bool (fst a) (fst b)) eqn:H1; cbn.
  - apply Qeq_bool_iff in H1.
    destruct (Qeq_bool (snd a) (snd b)) eqn:H2; cbn; [discriminate|].
    intro H. apply Qltb_lt in H. right. split; [assumption | lra].
  - intro H. apply Qltb_lt in H. left. assumption.
Qed.

Lemma key_lt_false (a b : Q * Q) : key_lt a b = false -> lex_le b a.
Proof.
  unfold key_lt, lex_le.
  destruct (Qeq_bool (fst a) (fst b)) eqn:H1; cbn.
  - apply Qeq_bool_iff in H1.
    destruct (Qeq_bool (snd a) (snd b)) eqn:H2; cbn.
    + apply Qeq_bool_iff in H2. intros _. right. split; lra.
    + intro H. apply Qltb_ge in H. right. split; lra.
  - apply Qeq_bool_false in H1. intro H. apply Qltb_ge in H.
    left. destruct (Q_dec (fst b) (fst a)) as [[Hlt|Hgt]|Heq].
    + assumption.
    + lra.
    + exfalso. apply H1. symmetry. assumption.
Qed.

Lemma min_from_least (rest : list PoseSample) :
  forall best,
    In (min_from best rest) (best :: rest) /\
    forall t, In t (best :: rest) ->
              lex_le (sample_key (min_from best rest)) (sample_key t).
Proof.
  induction rest as [|u rest IH]; intro best; cbn [min_from].
  - split; [left; reflexivity|].
    intros t [<-|[]]. apply lex_le_refl.
  - destruct (key_lt (sample_key u) (sample_key best)) eqn:Hlt.
    + destruct (IH u) as [Hin Hle]. split.
      * right. exact Hin.
      * intros t [<-|Ht]; [|apply Hle; exact Ht].
        apply lex_le_trans with (sample_key u).
        -- apply Hle. left. reflexivity.
        -- apply key_lt_true. exact Hlt.
    + destruct (IH best) as [Hin Hle]. split.
      * destruct Hin as [Hin|Hin]; [left; exact Hin | right; right; exact Hin].
      * intros t [<-|[<-|Ht]].
        -- apply Hle. left. reflexivity.
        -- apply lex_le_trans with (sample_key best).
           ++ apply Hle. left. reflexivity.
           ++ apply key_lt_false. exact Hlt.
        -- apply Hle. right. exact Ht.
Qed.

(** The key [min] is called with is the quality score of the sample followed
    by the opposite of its area ratio. *)
Lemma lex_le_quality (a b : PoseSample) :
  lex_le (sample_key a) (sample_key b) -> lex_le (quality_key a) (quality_key b).
Proof.
  destruct a as [[[sa na] ca] aa], b as [[[sb nb] cb] ab].
  unfold lex_le, quality_key, score_of, area_of, sample_key. cbn.
  intros [H|[H1 H2]]; [left; exact H | right; split; [exact H1 | lra]].
Qed.

Lemma py_min_least (buf : list PoseSample) (best : PoseSample) :
  py_min buf = Ok best ->
  In best buf /\
  forall t, In t buf -> lex_le (quality_key best) (quality_key t).
Proof.
  destruct buf as [|t0 rest]; cbn [py_min]; [discriminate|].
  intro H. injection H as <-.
  destruct (min_from_least rest t0) as [Hin Hle].
  split; [exact Hin|].
  intros t Ht. apply lex_le_quality. apply Hle. exact Ht.
Qed.

(** C3. Candidate selection is a function of the buffer alone: on a buffer
    of at least three samples [min] returns a buffered sample whose quality
    score and area ratio make the key [(qualityScore, -areaRatio)] least in
    the lexicographic order: no sample has a smaller quality score, and
    among the samples of the same quality score as the winner none has a
    larger area ratio. *)
Theorem candidate_selection_minimises_key (buf : list PoseSample) :
  (3 <= length buf)%nat ->
  exists best,
    py_min buf = Ok best /\
    In best buf /\
    (forall t, In t buf -> lex_le (quality_key best) (quality_key t)) /\
    (forall t, In t buf -> (score_of best <= score_of t)%Q) /\
    (forall t, In t buf -> (score_of t == score_of best)%Q ->
               (area_of t <= area_of best)%Q).
Proof.
  intro Hlen. destruct buf as [|t0 rest]; [cbn in Hlen; lia|].
  exists (min_from t0 rest). cbn [py_min].
  destruct (min_from_least rest t0) as [Hin Hle].
  assert (Hkey : forall t, In t (t0 :: rest) ->
                           lex_le (quality_key (min_from t0 rest))
                                  (quality_key t)).
  { intros t Ht. apply lex_le_quality. apply Hle. exact Ht. }
  split; [reflexivity|]. split; [exact Hin|]. split; [exact Hkey|]. split.
  - intros t Ht. destruct (Hkey t Ht) as [H|[H _]]; cbn in H; lra.
  - intros t Ht Heq.
    destruct (Hkey t Ht) as [H|[_ H]]; cbn in H; lra.
Qed.

Lemma candidate_selection_minimises_key_witness :
  (3 <= length Example.buffer)%nat /\
  py_min Example.buffer = Ok (1, -(0.3), Example.frame, (1, 0, 0))%Q /\
  exists best,
    py_min Example.buffer = Ok best /\
    In best Example.buffer /\
    (forall t, In t Example.buffer -> lex_le (quality_key best) (quality_key t)) /\
    (forall t, In t Example.buffer -> (score_of best <= score_of t)%Q) /\
    (forall t, In t Example.buffer -> (score_of t == score_of best)%Q ->
               (area_of t <= area_of best)%Q).
Proof.
  split; [cbn; lia|]. split; [reflexivity|].
  apply (candidate_selection_minimises_key Example.buffer). cbn. lia.
Defined.

(** ** Identity store *)

Section StoreFacts.

Context {Tracker : Type} {E : Externals Tracker}.

Local Abbreviation Svc := (@Service Tracker).

(** Every way [load_encodings] can go. *)
Lemma load_encodings_cases (s : Svc) :
  load_encodings s =
    match encodings_file_content s with
    | None => (Ok false, s, [])
    | Some bytes =>
        match pickle_load bytes with
        | None => (Ok false, s, [load_message])
        | Some PNotMapping => (Ok false, s, [load_message])
        | Some (PMapping e n) =>
            let encs := match e with Some e => e | None => [] end in
            let nms := match n with Some n => n | None => [] end in
            let s' := with_known_names nms (with_known_encodings encs s) in
            match EmbeddingIndex_init encs nms with
            | Ok ix => (Ok true, with_index (Some ix) s', [])
            | Raise _ => (Ok false, s', [load_message])
            end
        end
    end.
Proof.
  unfold load_encodings, bind, gets. cbn.
  destruct (encodings_file_content s) as [bytes|]; [|reflexivity].
  unfold try_except, bind, lift, modify, gets, emit, ret. cbn.
  destruct (pickle_load bytes) as [[e n|]|]; cbn; try reflexivity.
  destruct e as [e|], n as [n|]; cbn -[EmbeddingIndex_init];
    match goal with
    | |- context [EmbeddingIndex_init ?a ?b] =>
        destruct (EmbeddingIndex_init a b); reflexivity
    end.
Qed.

Lemma rectangular_asarray (encodings : list (list Q)) :
  rectangular encodings -> np_asarray encodings = Ok encodings.
Proof.
  intro Hrect. unfold np_asarray.
  destruct encodings as [|row rest]; [reflexivity|].
  replace (forallb (fun r => Nat.eqb (length r) (length row)) (row :: rest))
    with true; [reflexivity|].
  symmetry. apply forallb_forall. intros r Hr.
  apply Nat.eqb_eq. apply Hrect; [exact Hr | left; reflexivity].
Qed.

End StoreFacts.

Section StoreTheorems.

Context {Tracker : Type} {E : Externals Tracker}.

Local Abbreviation Svc := (@Service Tracker).

(** A load that fails before the first assignment changes nothing. *)
Lemma load_encodings_early_failure (s : Svc) :
  encodings_file_content s = None \/
  (exists bytes, encodings_file_content s = Some bytes /\
                 (pickle_load bytes = None \/ pickle_load bytes = Some PNotMapping)) ->
  result_of (load_encodings s) = Ok false /\ state_of (load_encodings s) = s.
Proof.
  intro H. rewrite load_encodings_cases.
  destruct H as [H|(bytes & Hc & [H|H])].
  - rewrite H. split; reflexivity.
  - rewrite Hc, H. split; reflexivity.
  - rewrite Hc, H. split; reflexivity.
Qed.

(** C8. A load that fails in the index constructor (here: the file decodes
    to a mapping whose encodings [EmbeddingIndex] rejects) returns [False],
    but by then [known_encodings] and [known_names] hold the file's
    sequences while [index] is still the one built from the previous ones:
    the failed load is not atomic. *)
Theorem load_encodings_failure_keeps_half (s : Svc) (bytes : list Byte.byte)
  (encs : list (list Q)) (nms : list string) (err : exn) :
  encodings_file_content s = Some bytes ->
  pickle_load bytes = Some (PMapping (Some encs) (Some nms)) ->
  EmbeddingIndex_init encs nms = Raise err ->
  result_of (load_encodings s) = Ok false /\
  known_encodings (state_of (load_encodings s)) = encs /\
  known_names (state_of (load_encodings s)) = nms /\
  index (state_of (load_encodings s)) = index s.
Proof.
  intros Hc Hp Hi. rewrite load_encodings_cases, Hc, Hp. cbn zeta.
  rewrite Hi. repeat split; reflexivity.
Qed.

Lemma EmbeddingIndex_init_rectangular (encs : list (list Q)) (nms : list string) :
  rectangular encs ->
  (HAS_SKLEARN = true -> (5 <= length encs)%nat -> nn_fit_accepts encs = true) ->
  exists ix, EmbeddingIndex_init encs nms = Ok ix /\
             names ix = nms /\ data ix = encs.
Proof.
  intros Hrect Hfit. unfold EmbeddingIndex_init.
  replace (match encs with [] => Ok [] | _ :: _ => np_asarray encs end)
    with (Ok (A := list (list Q)) encs)
    by (destruct encs; [reflexivity | symmetry; apply rectangular_asarray; exact Hrect]).
  destruct (HAS_SKLEARN && (5 <=? Z.of_nat (length encs))) eqn:Hsk.
  - apply andb_prop in Hsk. destruct Hsk as [Hs Hn].
    apply Z.leb_le in Hn. rewrite Hfit; [|exact Hs|lia].
    eexists. repeat split.
  - eexists. repeat split.
Qed.

(** C9. When the backing path can be written and the bytes [B] decode to a
    mapping with [encs] under ['encodings'] and [nms] under ['names'], two
    sequences of one length, the vectors of one length too (and acceptable to
    the neighbour search where one is built), [update_encodings B] returns
    [True], leaves [B] in the file, [known_names = nms] and
    [known_encodings = encs] in that order, and an index over them; a load
    after it gives the same again. *)
Theorem update_encodings_round_trip (s : Svc) (B : list Byte.byte)
  (encs : list (list Q)) (nms : list string) :
  encodings_file_writable s = true ->
  pickle_load B = Some (PMapping (Some encs) (Some nms)) ->
  length encs = length nms ->
  rectangular encs ->
  (HAS_SKLEARN = true -> (5 <= length encs)%nat -> nn_fit_accepts encs = true) ->
  let s' := state_of (update_encodings B s) in
  result_of (update_encodings B s) = Ok true /\
  encodings_file_content s' = Some B /\
  known_names s' = nms /\
  known_encodings s' = encs /\
  (exists ix, index s' = Some ix /\ names ix = nms /\ data ix = encs) /\
  result_of (load_encodings s') = Ok true /\
  known_names (state_of (load_encodings s')) = nms /\
  known_encodings (state_of (load_encodings s')) = encs.
Proof.
  intros Hw Hp _ Hrect Hfit.
  destruct (EmbeddingIndex_init_rectangular encs nms Hrect Hfit)
    as (ix & Hix & Hn & Hd).
  assert (Hload : forall s0 : Svc,
             encodings_file_content s0 = Some B ->
             load_encodings s0 =
               (Ok true,
                with_index (Some ix)
                  (with_known_names nms (with_known_encodings encs s0)), [])).
  { intros s0 Hc. rewrite load_encodings_cases, Hc, Hp. cbn zeta.
    rewrite Hix. reflexivity. }
  assert (Hup : update_encodings B s =
                  (Ok true,
                   with_index (Some ix)
                     (with_known_names nms
                        (with_known_encodings encs
                           (with_encodings_file_content (Some B) s))), [])).
  { unfold update_encodings, try_except, bind, gets.
    cbn -[load_encodings]. rewrite Hw.
    unfold modify. cbn -[load_encodings].
    rewrite (Hload (with_encodings_file_content (Some B) s)); reflexivity. }
  cbn zeta. rewrite Hup. unfold state_of, result_of. cbn [fst snd].
  rewrite Hload by reflexivity. cbn.
  repeat split. exists ix. repeat split; assumption.
Qed.

End StoreTheorems.

Lemma load_encodings_failure_keeps_half_witness :
  known_names Example.service_over_ragged_file = ["ana"; "bia"]%string /\
  result_of (load_encodings (E := Example.externals)
               Example.service_over_ragged_file) = Ok false /\
  known_encodings (state_of (load_encodings (E := Example.externals)
                               Example.service_over_ragged_file))
    = [[0; 1]; [0]]%Q /\
  known_names (state_of (load_encodings (E := Example.externals)
                           Example.service_over_ragged_file))
    = ["cris"; "duda"]%string /\
  index (state_of (load_encodings (E := Example.externals)
                     Example.service_over_ragged_file))
    = index Example.service_over_ragged_file.
Proof.
  split; [reflexivity|].
  apply (load_encodings_failure_keeps_half (E := Example.externals)
           Example.service_over_ragged_file Example.ragged_file
           [[0; 1]; [0]]%Q ["cris"; "duda"]%string ValueError);
    reflexivity.
Defined.

Lemma update_encodings_round_trip_witness :
  let s' := state_of (update_encodings (E := Example.externals)
                        Example.good_file Example.empty_service) in
  result_of (update_encodings (E := Example.externals)
               Example.good_file Example.empty_service) = Ok true /\
  encodings_file_content s' = Some Example.good_file /\
  known_names s' = ["ana"; "bia"]%string /\
  known_encodings s' = [[0; 0]; [1; 1]]%Q /\
  (exists ix, index s' = Some ix /\ names ix = ["ana"; "bia"]%string /\
              data ix = [[0; 0]; [1; 1]]%Q) /\
  result_of (load_encodings (E := Example.externals) s') = Ok true /\
  known_names (state_of (load_encodings (E := Example.externals) s'))
    = ["ana"; "bia"]%string /\
  known_encodings (state_of (load_encodings (E := Example.externals) s'))
    = [[0; 0]; [1; 1]]%Q.
Proof.
  apply (update_encodings_round_trip (E := Example.externals)
           Example.empty_service Example.good_file
           [[0; 0]; [1; 1]]%Q ["ana"; "bia"]%string).
  - reflexivity.
  - reflexivity.
  - reflexivity.
  - intros r r' [<-|[<-|[]]] [<-|[<-|[]]]; reflexivity.
  - intros H. discriminate H.
Defined.

Lemma py_getitem_nth {A : Type} (l : list A) (i : Z) (x : A) :
  0 <= i -> nth_error l (Z.to_nat i) = Some x -> py_getitem l i = Ok x.
Proof.
  intros Hi Hnth. unfold py_getitem.
  assert (Hlt : (Z.to_nat i < length l)%nat)
    by (apply nth_error_Some; congruence).
  destruct (i <? 0) eqn:Hneg; [apply Z.ltb_lt in Hneg; lia|].
  rewrite Hneg. cbn.
  destruct (Z.of_nat (length l) <=? i) eqn:Hge; [apply Z.leb_le in Hge; lia|].
  rewrite Hnth. reflexivity.
Qed.

Section RecognitionTheorems.

Context {Tracker : Type} {E : Externals Tracker}.

Local Abbreviation Svc := (@Service Tracker).

Lemma init_recognition_threshold (path : string)
  (content : option (list Byte.byte)) (writable : bool)
  (cb : option (Image -> list Overlay -> Image)) (cfps dfps : Z) (scale : Q) :
  recognition_threshold
    (FaceRecognitionService_init path content writable cb cfps dfps scale)
  = 0.55%Q.
Proof.
  unfold FaceRecognitionService_init. rewrite load_encodings_cases.
  cbn [encodings_file_content init_attributes].
  destruct content as [bytes|]; [|reflexivity].
  destruct (pickle_load bytes) as [[e n|]|]; try reflexivity.
  cbn zeta.
  destruct (EmbeddingIndex_init _ _); reflexivity.
Qed.

(** C2. A recognition that gets past the early exits (non-empty crop, a face
    located in it, an embedding produced, an index and a non-empty
    [known_encodings]) and whose query answers a valid index [best_idx] at
    distance [dist] returns the confidence [max(0.0, 1.0 - dist)]; with
    [dist < recognition_threshold] the name is [known_names[best_idx]],
    otherwise it is ['Desconhecido'], with that same confidence.  For a
    finite distance the confidence is the larger of [0] and [1 - dist]; where
    no [NearestNeighbors] was fitted, [dist] is the distance of the row at
    [best_idx] and no row is nearer; the threshold of a service just
    constructed is [0.55]. *)
Theorem recognition_by_nearest_distance (face_bgr : Image) (s : Svc)
  (ix : EmbeddingIndex) (loc0 : Box) (locs : list Box) (vec : list Q)
  (encs : list (list Q)) (best_idx : Z) (dist : PyFloat.t) :
  size face_bgr <> 0 ->
  face_locations (prepare_face face_bgr) = loc0 :: locs ->
  face_encodings (prepare_face face_bgr) [loc0] = vec :: encs ->
  index s = Some ix ->
  known_encodings s <> [] ->
  query ix vec = (best_idx, dist) ->
  0 <= best_idx ->
  let confidence := PyFloat.max (Fin 0) (PyFloat.sub (Fin 1) dist) in
  (PyFloat.ltb dist (Fin (recognition_threshold s)) = true ->
   forall name, nth_error (known_names s) (Z.to_nat best_idx) = Some name ->
                result_of (_recognize_face_crop face_bgr s)
                = Ok (name, confidence)) /\
  (PyFloat.ltb dist (Fin (recognition_threshold s)) = false ->
   result_of (_recognize_face_crop face_bgr s) = Ok (Desconhecido, confidence)) /\
  (forall d, dist = Fin d ->
             (PyFloat.ltb dist (Fin (recognition_threshold s)) = true
              <-> (d < recognition_threshold s)%Q) /\
             exists c, confidence = Fin c /\
                       (0 <= c)%Q /\ (1 - d <= c)%Q /\
                       (c == 0 \/ c == 1 - d)%Q) /\
  (nn ix = None ->
   exists row,
     nth_error (data ix) (Z.to_nat best_idx) = Some row /\
     dist = Fin (norm_diff row vec) /\
     forall r, In r (data ix) -> (norm_diff row vec <= norm_diff r vec)%Q) /\
  (forall path content writable cb cfps dfps scale,
      recognition_threshold
        (FaceRecognitionService_init path content writable cb cfps dfps scale)
      = 0.55%Q).
Proof.
  intros Hsize Hlocs Hencs Hix Hknown Hq Hidx confidence.
  pose proof (recognize_past_guards face_bgr s ix loc0 locs vec encs best_idx
                dist Hsize Hlocs Hencs Hix Hknown Hq Hidx) as Hres.
  cbn zeta in Hres. fold confidence in Hres.
  split; [|split; [|split; [|split]]].
  - intros Hlt name Hname. rewrite Hres, Hlt.
    rewrite (py_getitem_nth _ _ _ Hidx Hname). reflexivity.
  - intros Hge. rewrite Hres, Hge. reflexivity.
  - intros d ->. split.
    + cbn. apply Qltb_lt.
    + apply confidence_finite.
  - intro Hnn. exact (query_brute_force_nearest ix vec best_idx dist Hnn Hq Hidx).
  - intros. apply init_recognition_threshold.
Qed.

(** C7. [_recognize_face_crop] returns [('Desconhecido', 0.0)] when the crop
    is empty, when no face is located in it, when no embedding is produced,
    and when there is no known identity: no index, an empty
    [known_encodings], or an index without rows, whose query answers
    [(-1, inf)], as does the query of any index built from no encoding. *)
Theorem recognition_sentinel (face_bgr : Image) (s : Svc) :
  size face_bgr = 0 \/
  face_locations (prepare_face face_bgr) = [] \/
  (exists loc0 locs,
      face_locations (prepare_face face_bgr) = loc0 :: locs /\
      face_encodings (prepare_face face_bgr) [loc0] = []) \/
  index s = None \/
  known_encodings s = [] \/
  (exists ix, index s = Some ix /\ data ix = []) ->
  _recognize_face_crop face_bgr s = (Ok (Desconhecido, Fin 0), s, []) /\
  (forall ix vec, data ix = [] -> query ix vec = (-1, PInf)) /\
  (forall nms vec,
      exists ix, EmbeddingIndex_init [] nms = Ok ix /\
                 query ix vec = (-1, PInf)).
Proof.
  intro H. split; [|split].
  - apply recognize_sentinel_cases. exact H.
  - intros ix vec Hd. unfold query. rewrite Hd. reflexivity.
  - intros nms vec. unfold EmbeddingIndex_init. cbn [length Z.of_nat].
    replace (HAS_SKLEARN && (5 <=? 0)) with false
      by (destruct HAS_SKLEARN; reflexivity).
    eexists. split; reflexivity.
Qed.

(** C10. [process_single_frame] returns a result and leaves every attribute
    of the service as it was: tracker, pose buffer, queue, the three status
    flags and the known identities; it prints nothing, enqueues nothing and
    calls no overlay. *)
Theorem process_single_frame_reads_only (frame : Image) (s : Svc) :
  state_of (process_single_frame frame s) = s /\
  events_of (process_single_frame frame s) = [] /\
  tracker (state_of (process_single_frame frame s)) = tracker s /\
  pose_buffer (state_of (process_single_frame frame s)) = pose_buffer s /\
  recognition_queue (state_of (process_single_frame frame s))
  = recognition_queue s /\
  recognition_in_progress (state_of (process_single_frame frame s))
  = recognition_in_progress s /\
  result_displayed (state_of (process_single_frame frame s))
  = result_displayed s /\
  lockout_active (state_of (process_single_frame frame s)) = lockout_active s /\
  known_names (state_of (process_single_frame frame s)) = known_names s /\
  known_encodings (state_of (process_single_frame frame s)) = known_encodings s /\
  index (state_of (process_single_frame frame s)) = index s.
Proof.
  unfold process_single_frame.
  destruct (recognize_reads_only frame s) as [Hs He].
  rewrite Hs. repeat split. exact He.
Qed.

End RecognitionTheorems.

Lemma recognition_by_nearest_distance_witness :
  let s := Example.service in
  let confidence :=
    PyFloat.max (Fin 0) (PyFloat.sub (Fin 1) (snd Example.nearest)) in
  (PyFloat.ltb (snd Example.nearest) (Fin (recognition_threshold s)) = true ->
   forall name,
     nth_error (known_names s) (Z.to_nat (fst Example.nearest)) = Some name ->
     result_of (_recognize_face_crop (E := Example.externals) Example.frame s)
     = Ok (name, confidence)) /\
  (PyFloat.ltb (snd Example.nearest) (Fin (recognition_threshold s)) = false ->
   result_of (_recognize_face_crop (E := Example.externals) Example.frame s)
   = Ok (Desconhecido, confidence)) /\
  (forall d, snd Example.nearest = Fin d ->
             (PyFloat.ltb (snd Example.nearest)
                (Fin (recognition_threshold s)) = true
              <-> (d < recognition_threshold s)%Q) /\
             exists c, confidence = Fin c /\
                       (0 <= c)%Q /\ (1 - d <= c)%Q /\
                       (c == 0 \/ c == 1 - d)%Q) /\
  (nn Example.people_index = None ->
   exists row,
     nth_error (data Example.people_index) (Z.to_nat (fst Example.nearest))
     = Some row /\
     snd Example.nearest = Fin (norm_diff (Externals := Example.externals)
                                  row [0; 0.5]%Q) /\
     forall r, In r (data Example.people_index) ->
               (norm_diff (Externals := Example.externals) row [0; 0.5]
                <= norm_diff (Externals := Example.externals) r [0; 0.5])%Q) /\
  (forall path content writable cb cfps dfps scale,
      recognition_threshold
        (FaceRecognitionService_init (E := Example.externals)
           path content writable cb cfps dfps scale)
      = 0.55%Q).
Proof.
  apply (recognition_by_nearest_distance (E := Example.externals)
           Example.frame Example.service Example.people_index
           (0, 4, 4, 0) [] [0; 0.5]%Q [] (fst Example.nearest)
           (snd Example.nearest)).
  - vm_compute. discriminate.
  - reflexivity.
  - reflexivity.
  - reflexivity.
  - vm_compute. discriminate.
  - reflexivity.
  - vm_compute. discriminate.
Defined.

Lemma recognition_sentinel_witness :
  _recognize_face_crop (E := Example.externals) Example.frame
    Example.empty_service
  = (Ok (Desconhecido, Fin 0), Example.empty_service, []) /\
  (forall ix vec, data ix = [] ->
                  query (E := Example.externals) ix vec = (-1, PInf)) /\
  (forall nms vec,
      exists ix, EmbeddingIndex_init (E := Example.externals) [] nms = Ok ix /\
                 query (E := Example.externals) ix vec = (-1, PInf)).
Proof.
  apply (recognition_sentinel (E := Example.externals) Example.frame
           Example.empty_service).
  right. right. right. left. reflexivity.
Defined.

(** ** A small program logic for the methods *)

Section Logic.

Context {Tracker : Type}.

Local Abbreviation Svc := (@Service Tracker).
Local Abbreviation M := (PyM Tracker).

Variable Ev : event -> Prop.

Lemma triple_ret {A : Type} (P : Svc -> Prop) (a : A) : triple P (ret a) P Ev.
Proof. intros s H. split; [exact H | constructor]. Qed.

Lemma triple_raise {A : Type} (P : Svc -> Prop) (e : exn) :
  triple P (raise (A := A) e) P Ev.
Proof. intros s H. split; [exact H | constructor]. Qed.

Lemma triple_lift {A : Type} (P : Svc -> Prop) (r : res A) :
  triple P (lift r) P Ev.
Proof. intros s H. split; [exact H | constructor]. Qed.

Lemma triple_gets {A : Type} (P : Svc -> Prop) (f : Svc -> A) :
  triple P (gets f) P Ev.
Proof. intros s H. split; [exact H | constructor]. Qed.

Lemma triple_emit (P : Svc -> Prop) (e : event) :
  Ev e -> triple P (emit e) P Ev.
Proof. intros He s H. split; [exact H | repeat constructor; exact He]. Qed.

Lemma triple_modify (P Q : Svc -> Prop) (f : Svc -> Svc) :
  (forall s, P s -> Q (f s)) -> triple P (modify f) Q Ev.
Proof. intros Hf s H. split; [apply Hf; exact H | constructor]. Qed.

Lemma triple_bind {A B : Type} (P R Q : Svc -> Prop) (c : M A) (k : A -> M B) :
  triple P c R Ev ->
  (forall s, R s -> Q s) ->
  (forall a, triple R (k a) Q Ev) ->
  triple P (bind c k) Q Ev.
Proof.
  intros Hc HRQ Hk s HP. specialize (Hc s HP).
  unfold bind, state_of, events_of in *.
  destruct (c s) as [[[a|e] s1] l1]; cbn in *.
  - destruct Hc as [HR Hl1]. specialize (Hk a s1 HR).
    unfold state_of, events_of in Hk.
    destruct (k a s1) as [[r s2] l2]; cbn in *.
    destruct Hk as [HQ Hl2]. split; [exact HQ|].
    apply Forall_app. split; assumption.
  - destruct Hc as [HR Hl1]. split; [apply HRQ; exact HR | exact Hl1].
Qed.

Lemma triple_bind_inv {A B : Type} (P : Svc -> Prop) (c : M A) (k : A -> M B) :
  triple P c P Ev ->
  (forall a, triple P (k a) P Ev) ->
  triple P (bind c k) P Ev.
Proof. intros Hc Hk. apply triple_bind with (R := P); auto. Qed.

Lemma triple_try {A : Type} (P : Svc -> Prop) (catches : exn -> bool)
  (c : M A) (h : exn -> M A) :
  triple P c P Ev ->
  (forall e, triple P (h e) P Ev) ->
  triple P (try_except catches c h) P Ev.
Proof.
  intros Hc Hh s HP. specialize (Hc s HP).
  unfold try_except, state_of, events_of in *.
  destruct (c s) as [[[a|e] s1] l1]; cbn in *; [exact Hc|].
  destruct (catches e); [|exact Hc].
  destruct Hc as [HP1 Hl1]. specialize (Hh e s1 HP1).
  unfold state_of, events_of in Hh.
  destruct (h e s1) as [[r s2] l2]; cbn in *.
  destruct Hh as [HP2 Hl2]. split; [exact HP2|].
  apply Forall_app. split; assumption.
Qed.

Lemma triple_weaken {A : Type} (P P' Q Q' : Svc -> Prop) (c : M A) :
  triple P c Q Ev ->
  (forall s, P' s -> P s) ->
  (forall s, Q s -> Q' s) ->
  triple P' c Q' Ev.
Proof.
  intros Hc HP HQ s H. destruct (Hc s (HP s H)) as [H1 H2].
  split; [apply HQ; exact H1 | exact H2].
Qed.

End Logic.

(** One step of a proof that a method keeps an invariant: the rule of the
    construct at the head of the program. *)
Ltac keep_step :=
  lazymatch goal with
  | |- triple _ (bind _ _) _ _ => apply triple_bind_inv; [|intro]
  | |- triple _ (ret _) _ _ => apply triple_ret
  | |- triple _ (raise _) _ _ => apply triple_raise
  | |- triple _ (lift _) _ _ => apply triple_lift
  | |- triple _ (gets _) _ _ => apply triple_gets
  | |- triple _ (emit _) _ _ => apply triple_emit
  | |- triple _ (modify _) _ _ => apply triple_modify
  | |- triple _ (try_except _ _ _) _ _ => apply triple_try; [|intro]
  | |- triple _ (match ?x with _ => _ end) _ _ => destruct x
  | |- triple _ (let _ := _ in _) _ _ => cbv zeta
  end.

Ltac keeps known :=
  repeat first [ solve [known] | keep_step ].

(** ** The capture loop and the queue *)

Section QueueFacts.

Context {Tracker : Type} {E : Externals Tracker}.

Local Abbreviation Svc := (@Service Tracker).

Lemma put_nowait_full (s : Svc) (item : Image) :
  recognition_queue s <> [] ->
  put_nowait item s = (Raise QueueFull, s, [EvPutNowait item false]).
Proof.
  intro H. unfold put_nowait, bind, gets, Queue.put_nowait. cbn.
  destruct (recognition_queue s) as [|x q]; [contradiction|].
  cbn [length]. rewrite Nat2Z.inj_succ.
  replace (Queue.maxsize <=? Z.succ (Z.of_nat (length q))) with true
    by (symmetry; apply Z.leb_le; unfold Queue.maxsize; lia).
  reflexivity.
Qed.

Lemma put_nowait_empty (s : Svc) (item : Image) :
  recognition_queue s = [] ->
  put_nowait item s
  = (Ok tt, with_recognition_queue [item] s, [EvPutNowait item true]).
Proof.
  intro H. unfold put_nowait, bind, gets, Queue.put_nowait. cbn.
  rewrite H. reflexivity.
Qed.

Lemma put_nowait_keeps_bound (item : Image) :
  triple (Tracker := Tracker) queue_bounded (put_nowait item) queue_bounded
    any_event.
Proof.
  intros s Hq.
  destruct (recognition_queue s) as [|x q] eqn:Hqueue.
  - rewrite (put_nowait_empty s item Hqueue). cbn.
    split; [|repeat constructor]. unfold queue_bounded. cbn. lia.
  - rewrite (put_nowait_full s item) by congruence. cbn.
    split; [exact Hq | repeat constructor].
Qed.

(** [put_nowait] writes no attribute but the queue. *)
Lemma put_nowait_keeps (P : Svc -> Prop) (item : Image) :
  (forall q s, P s -> P (with_recognition_queue q s)) ->
  triple P (put_nowait item) P any_event.
Proof.
  intros HP s H.
  destruct (recognition_queue s) as [|x q] eqn:Hqueue.
  - rewrite (put_nowait_empty s item Hqueue). cbn.
    split; [apply HP; exact H | repeat constructor].
  - rewrite (put_nowait_full s item) by congruence. cbn.
    split; [exact H | repeat constructor].
Qed.

End QueueFacts.

Ltac side_condition :=
  first [ exact I
        | apply put_nowait_keeps_bound
        | apply put_nowait_keeps; intros ? ? H; exact H
        | intros ? H; exact H ].

Ltac unfold_iteration :=
  unfold capture_iteration, track_frame, detect_frame, follow_face,
    sample_pose, select_and_submit, submit_candidate, publish,
    _start_tracker, _stop_tracker.

Section CaptureFacts.

Context {Tracker : Type} {E : Externals Tracker}.

Local Abbreviation Svc := (@Service Tracker).

Lemma capture_iteration_keeps_bound (frame : Image) :
  triple (Tracker := Tracker) queue_bounded (capture_iteration frame)
    queue_bounded any_event.
Proof. unfold_iteration. keeps side_condition. Qed.

Lemma capture_iteration_keeps_flags (d l : bool) (frame : Image) :
  triple (Tracker := Tracker) (flags_are d l) (capture_iteration frame)
    (flags_are d l) any_event.
Proof. unfold_iteration. keeps side_condition. Qed.

(** An iteration is its branch followed by [publish], run once the frame
    has been counted. *)
Lemma capture_iteration_unfold (frame : Image) (s : Svc) :
  capture_iteration frame s =
    bind (match tracker s with
          | Some t => track_frame t frame
          | None => detect_frame frame
          end)
         (publish frame)
         (with_frame_count (frame_count s + 1) s).
Proof.
  unfold capture_iteration.
  unfold bind at 1 2 3. unfold gets at 1 2. unfold modify at 1. cbn.
  destruct (bind _ _ _) as [[r s2] l2]. reflexivity.
Qed.


(** The selection attempts an enqueue only when the flag is down and the
    queue is empty. *)
Lemma select_and_submit_guarded (s0 : Svc) :
  triple (same_slot s0) select_and_submit anywhere (put_allowed s0).
Proof.
  intros s [Hp Hq]. split; [exact I|].
  unfold select_and_submit, bind, gets, lift, events_of. cbn.
  destruct (recognition_in_progress s) eqn:Hprog; cbn; [constructor|].
  destruct (result_displayed s); cbn; [constructor|].
  destruct (recognition_queue s) as [|x q] eqn:Hqueue; cbn; [|constructor].
  destruct (3 <=? Z.of_nat (length (pose_buffer s))); cbn; [|constructor].
  destruct (py_min (pose_buffer s)) as [[[[sc na] cr] an]|e]; cbn;
    [|constructor].
  destruct (PyFloat.Qltb sc (frontality_thr s)
            && Qle_bool (min_face_area_rel s) (- na)); cbn; [|constructor].
  unfold submit_candidate, try_except, bind.
  rewrite (put_nowait_empty s cr Hqueue). cbn.
  constructor; [|constructor].
  cbn. repeat split; congruence.
Qed.

Lemma track_frame_guarded (s0 : Svc) (t : Tracker) (frame : Image) :
  triple (same_slot s0) (track_frame t frame) anywhere (put_allowed s0).
Proof.
  unfold track_frame.
  destruct (tracker_update t frame) as [t' [ok bbox]].
  apply triple_bind with (R := same_slot s0);
    [keeps side_condition | intros; exact I | intros _].
  destruct ok.
  - apply triple_bind with (R := same_slot s0); [|intros; exact I|].
    + unfold follow_face, sample_pose. keeps side_condition.
    + intros [[[x1 y1] x2] y2].
      apply triple_bind with (R := anywhere); [|intros; exact I|].
      * apply select_and_submit_guarded.
      * intros _. apply triple_ret.
  - apply triple_weaken with (P := same_slot s0) (Q := same_slot s0);
      [|intros ? H; exact H | intros; exact I].
    unfold _stop_tracker. keeps side_condition.
Qed.

Lemma capture_iteration_guarded (frame : Image) (s : Svc) :
  Forall (put_allowed s) (events_of (capture_iteration frame s)).
Proof.
  rewrite capture_iteration_unfold.
  assert (H : triple (same_slot s)
                (bind (match tracker s with
                       | Some t => track_frame t frame
                       | None => detect_frame frame
                       end) (publish frame))
                anywhere (put_allowed s)).
  { apply triple_bind with (R := anywhere); [|intros; exact I|].
    - destruct (tracker s) as [t|].
      + apply track_frame_guarded.
      + apply triple_weaken with (P := same_slot s) (Q := same_slot s);
          [|intros ? H; exact H | intros; exact I].
        unfold detect_frame, _start_tracker. keeps side_condition.
    - intro overlays. unfold publish. keeps side_condition. }
  apply H. split; reflexivity.
Qed.

(** While a tracker exists an iteration ends tracking, or with an empty
    pose buffer. *)
Lemma track_frame_lost_clears (t : Tracker) (frame : Image) :
  triple (Tracker := Tracker) anywhere
    (bind (track_frame t frame) (publish frame)) tracking_or_cleared any_event.
Proof.
  apply triple_bind with (R := tracking_or_cleared);
    [|intros ? H; exact H|].
  - unfold track_frame.
    destruct (tracker_update t frame) as [t' [ok bbox]].
    destruct ok.
    + apply triple_bind with (R := fun s : Svc => tracker s <> None);
        [|intros ? H; left; exact H|].
      * apply triple_modify. intros s _. cbn. discriminate.
      * intros _.
        apply triple_weaken with (P := fun s : Svc => tracker s <> None)
                                 (Q := fun s : Svc => tracker s <> None);
          [|intros ? H; exact H | intros ? H; left; exact H].
        unfold follow_face, sample_pose, select_and_submit, submit_candidate.
        keeps side_condition.
    + intros s _. split; [right; reflexivity | repeat constructor].
  - intro overlays. unfold publish. keeps side_condition.
Qed.

(** Without a tracker an iteration ends without one, or with an empty pose
    buffer. *)
Lemma detect_frame_started_clears (frame : Image) :
  triple (Tracker := Tracker) absent_or_cleared
    (bind (detect_frame frame) (publish frame)) absent_or_cleared any_event.
Proof.
  unfold detect_frame, publish.
  keeps ltac:(first [ side_condition
                    | intros s H; split;
                      [right; reflexivity | repeat constructor] ]).
Qed.

End CaptureFacts.

(** ** The recognition thread *)

Section WorkerFacts.

Context {Tracker : Type} {E : Externals Tracker}.

Local Abbreviation Svc := (@Service Tracker).
Local Abbreviation Sys := (System Tracker).

(** The two ways from a crop to the end of the [try] block's first half. *)
Lemma recognize_and_publish_cases (face_crop : Image) (now : Q) (s : Svc) :
  recognize_and_publish face_crop now s =
    match result_of (_recognize_face_crop face_crop s) with
    | Ok _ =>
        (Ok true,
         with_lockout_start_time now
           (with_lockout_active true
              (with_track_ok_frames 0
                 (with_tracker None
                    (with_result_displayed true
                       (with_recognition_in_progress false s))))),
         [])
    | Raise _ =>
        (Ok false, with_recognition_in_progress false s,
         [EvPrint "Erro no reconhecimento:"])
    end.
Proof.
  destruct (recognize_reads_only face_crop s) as [Hs He].
  unfold recognize_and_publish, try_except, bind.
  unfold state_of, events_of, result_of in *.
  destruct (_recognize_face_crop face_crop s) as [[r s1] l1].
  cbn in Hs, He. subst s1 l1.
  destruct r as [[name confidence]|e]; reflexivity.
Qed.

Lemma worker_step_buffer (now : Q) (sys : Sys) :
  pose_buffer (svc (worker_step now sys)) = pose_buffer (svc sys).
Proof.
  unfold worker_step. destruct (worker sys) as [|face_crop|wake_at].
  - destruct (processing (svc sys)); [|reflexivity].
    destruct (recognition_queue (svc sys)) eqn:Hq; reflexivity.
  - cbn. rewrite recognize_and_publish_cases.
    destruct (result_of (_recognize_face_crop face_crop (svc sys))); reflexivity.
  - destruct (Qle_bool wake_at now); reflexivity.
Qed.

Lemma worker_step_bound (now : Q) (sys : Sys) :
  queue_bounded (svc sys) -> queue_bounded (svc (worker_step now sys)).
Proof.
  unfold worker_step, queue_bounded.
  destruct (worker sys) as [|face_crop|wake_at]; intro H.
  - destruct (processing (svc sys)); [|exact H].
    destruct (recognition_queue (svc sys)) as [|x q] eqn:Hq; cbn.
    + rewrite Hq. exact H.
    + cbn in H. lia.
  - cbn. rewrite recognize_and_publish_cases.
    destruct (result_of (_recognize_face_crop face_crop (svc sys))); exact H.
  - destruct (Qle_bool wake_at now); exact H.
Qed.

Lemma worker_step_consistent (now : Q) (sys : Sys) :
  lockout_consistent sys -> lockout_consistent (worker_step now sys).
Proof.
  unfold worker_step, lockout_consistent.
  destruct (worker sys) as [|face_crop|wake_at] eqn:Hw; intro H.
  - destruct (processing (svc sys)); [|rewrite Hw; exact H].
    destruct (recognition_queue (svc sys)) as [|x q]; cbn;
      [rewrite Hw; exact H | exact H].
  - cbn. rewrite recognize_and_publish_cases.
    destruct (result_of (_recognize_face_crop face_crop (svc sys))); cbn;
      [exact I | exact H].
  - destruct (Qle_bool wake_at now); cbn; [split; reflexivity|].
    rewrite Hw. exact I.
Qed.

Lemma worker_step_asleep (wake_at now : Q) (sys : Sys) :
  in_lockout wake_at sys -> (now < wake_at)%Q -> worker_step now sys = sys.
Proof.
  intros (Hw & _) Hlt. unfold worker_step. rewrite Hw.
  destruct (Qle_bool wake_at now) eqn:Hle; [|reflexivity].
  apply Qle_bool_iff in Hle. lra.
Qed.

Lemma worker_step_wakes (wake_at now : Q) (sys : Sys) :
  in_lockout wake_at sys -> (wake_at <= now)%Q ->
  result_displayed (svc (worker_step now sys)) = false /\
  lockout_active (svc (worker_step now sys)) = false /\
  worker (worker_step now sys) = Waiting.
Proof.
  intros (Hw & _) Hle. unfold worker_step. rewrite Hw.
  apply Qle_bool_iff in Hle. rewrite Hle. repeat split.
Qed.

(** The capture thread and the invariants of the system. *)
Lemma capture_step_bound (frame : Image) (sys : Sys) :
  queue_bounded (svc sys) -> queue_bounded (svc (capture_step frame sys)).
Proof.
  intro H. unfold capture_step.
  destruct (capture_alive sys && processing (svc sys)); [|exact H].
  cbn. apply (capture_iteration_keeps_bound frame (svc sys) H).
Qed.

Lemma capture_step_flags (frame : Image) (sys : Sys) :
  result_displayed (svc (capture_step frame sys)) = result_displayed (svc sys) /\
  lockout_active (svc (capture_step frame sys)) = lockout_active (svc sys) /\
  worker (capture_step frame sys) = worker sys.
Proof.
  unfold capture_step.
  destruct (capture_alive sys && processing (svc sys)); [|repeat split].
  cbn.
  destruct (capture_iteration_keeps_flags
              (result_displayed (svc sys)) (lockout_active (svc sys))
              frame (svc sys)) as [[Hd Hl] _]; [split; reflexivity|].
  repeat split; assumption.
Qed.

Lemma capture_read_fail_svc (sys : Sys) :
  svc (capture_read_fail sys) = svc sys /\
  worker (capture_read_fail sys) = worker sys.
Proof.
  unfold capture_read_fail.
  destruct (capture_alive sys && processing (svc sys)); split; reflexivity.
Qed.

Lemma run_step_bound (st : step) (sys : Sys) :
  queue_bounded (svc sys) -> queue_bounded (svc (run_step st sys)).
Proof.
  destruct st as [frame| |now]; cbn.
  - apply capture_step_bound.
  - destruct (capture_read_fail_svc sys) as [-> _]. auto.
  - apply worker_step_bound.
Qed.

Lemma run_bound (steps : list step) :
  forall sys : Sys,
    queue_bounded (svc sys) -> queue_bounded (svc (run steps sys)).
Proof.
  induction steps as [|st steps IH]; intros sys H; [exact H|].
  cbn. apply IH. apply run_step_bound. exact H.
Qed.

Lemma run_step_consistent (st : step) (sys : Sys) :
  lockout_consistent sys -> lockout_consistent (run_step st sys).
Proof.
  destruct st as [frame| |now]; cbn.
  - unfold lockout_consistent.
    destruct (capture_step_flags frame sys) as (-> & -> & ->). auto.
  - unfold lockout_consistent.
    destruct (capture_read_fail_svc sys) as [-> ->]. auto.
  - apply worker_step_consistent.
Qed.

Lemma run_consistent (steps : list step) :
  forall sys : Sys, lockout_consistent sys -> lockout_consistent (run steps sys).
Proof.
  induction steps as [|st steps IH]; intros sys H; [exact H|].
  cbn. apply IH. apply run_step_consistent. exact H.
Qed.

Lemma run_in_lockout (wake_at : Q) (steps : list step) :
  forall sys : Sys,
    (forall t, In (WorkerStep t) steps -> (t < wake_at)%Q) ->
    in_lockout wake_at sys -> in_lockout wake_at (run steps sys).
Proof.
  induction steps as [|st steps IH]; intros sys Hearly H; [exact H|].
  cbn. apply IH; [intros t Ht; apply Hearly; right; exact Ht|].
  destruct st as [frame| |now]; cbn.
  - unfold in_lockout.
    destruct (capture_step_flags frame sys) as (-> & -> & ->). exact H.
  - unfold in_lockout.
    destruct (capture_read_fail_svc sys) as [-> ->]. exact H.
  - rewrite (worker_step_asleep wake_at now sys H); [exact H|].
    apply Hearly. left. reflexivity.
Qed.

End WorkerFacts.

(** ** The scheduler, the tracker and the lockout *)

Section SystemTheorems.

Context {Tracker : Type} {E : Externals Tracker}.

Local Abbreviation Svc := (@Service Tracker).
Local Abbreviation Sys := (System Tracker).

Lemma submit_candidate_full (s : Svc) (item : Image) :
  recognition_queue s <> [] ->
  submit_candidate item s = (Ok tt, s, [EvPutNowait item false]).
Proof.
  intro H. unfold submit_candidate, try_except, bind.
  rewrite (put_nowait_full s item H). reflexivity.
Qed.

(** C1. Along every sequence of capture-loop steps and worker steps the
    queue holds at most one request.  An enqueue on an occupied slot raises
    [Full] at once and changes nothing, and the producer's handler lets the
    iteration go on: the candidate is dropped.  An iteration of the capture
    loop attempts an enqueue only from a state where [recognition_in_progress]
    is false and the queue is empty, and that attempt is accepted.  The
    system that [start_async_processing] starts from a stopped service
    satisfies the bound from the first step on. *)
Theorem single_slot_scheduler (sys : Sys) (steps : list step) :
  queue_bounded (svc sys) ->
  queue_bounded (svc (run steps sys)) /\
  (forall (s : Svc) (item : Image),
      recognition_queue s <> [] ->
      put_nowait item s = (Raise QueueFull, s, [EvPutNowait item false]) /\
      submit_candidate item s = (Ok tt, s, [EvPutNowait item false])) /\
  (forall (frame : Image) (s : Svc) (item : Image) (accepted : bool),
      In (EvPutNowait item accepted) (events_of (capture_iteration frame s)) ->
      recognition_in_progress s = false /\
      recognition_queue s = [] /\
      accepted = true) /\
  (forall (s : Svc) (steps' : list step),
      processing s = false ->
      queue_bounded (svc (run steps' (started s)))).
Proof.
  intro H. split; [|split; [|split]].
  - apply run_bound. exact H.
  - intros s item Hfull. split.
    + apply put_nowait_full. exact Hfull.
    + apply submit_candidate_full. exact Hfull.
  - intros frame s item accepted Hin.
    pose proof (capture_iteration_guarded frame s) as Hall.
    rewrite Forall_forall in Hall. exact (Hall _ Hin).
  - intros s steps' Hstopped. apply run_bound.
    unfold started, start_async_processing, bind, gets, modify, state_of,
      queue_bounded.
    cbn. rewrite Hstopped. cbn. lia.
Qed.

(** C5, as the code has it.  When a step of the capture thread takes the
    tracker from present to absent (its update failed), the pose buffer is
    empty right after.  A step of the recognition thread, the one that stops
    the tracker included, leaves the pose buffer as it was.  When a step of
    the capture thread takes the tracker from absent to present, the pose
    buffer is empty right after. *)
Theorem pose_buffer_cleared_by_capture_thread (sys : Sys) :
  (forall frame,
      tracker (svc sys) <> None ->
      tracker (svc (capture_step frame sys)) = None ->
      pose_buffer (svc (capture_step frame sys)) = []) /\
  (forall now,
      pose_buffer (svc (worker_step now sys)) = pose_buffer (svc sys)) /\
  (forall frame,
      tracker (svc sys) = None ->
      tracker (svc (capture_step frame sys)) <> None ->
      pose_buffer (svc (capture_step frame sys)) = []).
Proof.
  split; [|split].
  - intros frame Hsome Hnone. unfold capture_step in *.
    destruct (capture_alive sys && processing (svc sys)); [|contradiction].
    cbn [svc] in *. rewrite capture_iteration_unfold in Hnone |- *.
    destruct (tracker (svc sys)) as [t|]; [|contradiction].
    destruct (track_frame_lost_clears t frame
                (with_frame_count (frame_count (svc sys) + 1) (svc sys)) I)
      as [[H|H] _]; [contradiction | exact H].
  - intro now. apply worker_step_buffer.
  - intros frame Hnone Hsome. unfold capture_step in *.
    destruct (capture_alive sys && processing (svc sys)); [|contradiction].
    cbn [svc] in *. rewrite capture_iteration_unfold in Hsome |- *.
    rewrite Hnone in Hsome |- *.
    destruct (detect_frame_started_clears frame
                (with_frame_count (frame_count (svc sys) + 1) (svc sys)))
      as [[H|H] _]; [left; exact Hnone | contradiction | exact H].
Qed.

(** C6. When the worker produces a result with the clock at [T] it clears
    [recognition_in_progress], stops the tracker, sets [result_displayed] and
    [lockout_active], notes [T] and sleeps until [T + 1.0].  Whatever the
    capture thread does and as long as the worker is not scheduled at or
    after [T + 1.0], both flags stay set.  The first time the worker runs at
    or after [T + 1.0] it clears both, and they stay cleared until the worker
    sleeps again after another result. *)
Theorem lockout_lasts_one_second (sys : Sys) (face_crop : Image) (T : Q)
  (name : string) (confidence : PyFloat.t) :
  worker sys = Recognizing face_crop ->
  result_of (_recognize_face_crop face_crop (svc sys)) = Ok (name, confidence) ->
  let sys1 := worker_step T sys in
  (recognition_in_progress (svc sys1) = false /\
   tracker (svc sys1) = None /\
   result_displayed (svc sys1) = true /\
   lockout_active (svc sys1) = true /\
   lockout_start_time (svc sys1) = T /\
   worker sys1 = Sleeping (T + 1.0)) /\
  (forall steps,
      (forall t, In (WorkerStep t) steps -> (t < T + 1.0)%Q) ->
      result_displayed (svc (run steps sys1)) = true /\
      lockout_active (svc (run steps sys1)) = true) /\
  (forall steps t,
      (forall t', In (WorkerStep t') steps -> (t' < T + 1.0)%Q) ->
      (T + 1.0 <= t)%Q ->
      let sys2 := worker_step t (run steps sys1) in
      result_displayed (svc sys2) = false /\
      lockout_active (svc sys2) = false /\
      forall more,
        (result_displayed (svc (run more sys2)) = false /\
         lockout_active (svc (run more sys2)) = false) \/
        exists wake_at, worker (run more sys2) = Sleeping wake_at).
Proof.
  intros Hw Hres sys1.
  assert (H1 : recognition_in_progress (svc sys1) = false /\
               tracker (svc sys1) = None /\
               result_displayed (svc sys1) = true /\
               lockout_active (svc sys1) = true /\
               lockout_start_time (svc sys1) = T /\
               worker sys1 = Sleeping (T + 1.0)).
  { unfold sys1, worker_step. rewrite Hw. cbv beta iota zeta.
    rewrite recognize_and_publish_cases, Hres. cbn. repeat split. }
  assert (Hlock : in_lockout (T + 1.0) sys1).
  { destruct H1 as (_ & _ & Hd & Hl & _ & Hs). repeat split; assumption. }
  split; [exact H1|]. split.
  - intros steps Hearly.
    destruct (run_in_lockout (T + 1.0) steps sys1 Hearly Hlock) as (_ & Hd & Hl).
    split; assumption.
  - intros steps t Hearly Hlate sys2.
    pose proof (run_in_lockout (T + 1.0) steps sys1 Hearly Hlock) as Hlock'.
    destruct (worker_step_wakes (T + 1.0) t _ Hlock' Hlate) as (Hd & Hl & Hwait).
    split; [exact Hd|]. split; [exact Hl|].
    intro more.
    assert (Hc : lockout_consistent sys2).
    { unfold lockout_consistent. fold sys2 in Hwait. rewrite Hwait.
      split; assumption. }
    pose proof (run_consistent more sys2 Hc) as Hc'.
    unfold lockout_consistent in Hc'.
    destruct (worker (run more sys2)) as [|c|w] eqn:Hphase.
    + left. exact Hc'.
    + left. exact Hc'.
    + right. exists w. reflexivity.
Qed.

End SystemTheorems.

Lemma single_slot_scheduler_witness :
  queue_bounded (svc Example.system) /\
  queue_bounded
    (svc (run (E := Example.externals) Example.steps_to_recognition
            Example.system)) /\
  (forall (s : @Service nat) (item : Image),
      recognition_queue s <> [] ->
      put_nowait item s = (Raise QueueFull, s, [EvPutNowait item false]) /\
      submit_candidate item s = (Ok tt, s, [EvPutNowait item false])) /\
  (forall (frame : Image) (s : @Service nat) (item : Image) (accepted : bool),
      In (EvPutNowait item accepted)
         (events_of (capture_iteration (E := Example.externals) frame s)) ->
      recognition_in_progress s = false /\
      recognition_queue s = [] /\
      accepted = true) /\
  (forall (s : @Service nat) (steps' : list step),
      processing s = false ->
      queue_bounded (svc (run (E := Example.externals) steps' (started s)))).
Proof.
  split.
  - unfold queue_bounded. vm_compute. lia.
  - apply (single_slot_scheduler (E := Example.externals) Example.system
             Example.steps_to_recognition).
    unfold queue_bounded. vm_compute. lia.
Defined.

Lemma pose_buffer_cleared_by_capture_thread_witness :
  tracker (svc Example.about_to_lose) <> None /\
  tracker (svc (capture_step (E := Example.externals) Example.frame
                  Example.about_to_lose)) = None /\
  pose_buffer (svc (capture_step (E := Example.externals) Example.frame
                      Example.about_to_lose)) = [].
Proof.
  assert (H1 : tracker (svc Example.about_to_lose) <> None)
    by (vm_compute; discriminate).
  assert (H2 : tracker (svc (capture_step (E := Example.externals)
                               Example.frame Example.about_to_lose)) = None)
    by (vm_compute; reflexivity).
  split; [exact H1|]. split; [exact H2|].
  exact (proj1 (pose_buffer_cleared_by_capture_thread (E := Example.externals)
                  Example.about_to_lose) Example.frame H1 H2).
Defined.

(** C5 as stated fails: the worker stops the tracker while the pose buffer
    holds the sample taken during recognition. *)
Lemma pose_buffer_survives_worker_stop :
  tracker (svc Example.during_recognition) <> None /\
  tracker (svc (run_step (E := Example.externals) (WorkerStep 11)
                  Example.during_recognition)) = None /\
  pose_buffer (svc (run_step (E := Example.externals) (WorkerStep 11)
                      Example.during_recognition)) <> [].
Proof.
  split; [|split]; vm_compute; discriminate || reflexivity.
Qed.

Lemma lockout_lasts_one_second_witness :
  let sys1 := worker_step (E := Example.externals) 11
                Example.during_recognition in
  (recognition_in_progress (svc sys1) = false /\
   tracker (svc sys1) = None /\
   result_displayed (svc sys1) = true /\
   lockout_active (svc sys1) = true /\
   lockout_start_time (svc sys1) = 11%Q /\
   worker sys1 = Sleeping (11 + 1.0)) /\
  (forall steps,
      (forall t, In (WorkerStep t) steps -> (t < 11 + 1.0)%Q) ->
      result_displayed (svc (run (E := Example.externals) steps sys1)) = true /\
      lockout_active (svc (run (E := Example.externals) steps sys1)) = true) /\
  (forall steps t,
      (forall t', In (WorkerStep t') steps -> (t' < 11 + 1.0)%Q) ->
      (11 + 1.0 <= t)%Q ->
      let sys2 := worker_step (E := Example.externals) t
                    (run (E := Example.externals) steps sys1) in
      result_displayed (svc sys2) = false /\
      lockout_active (svc sys2) = false /\
      forall more,
        (result_displayed (svc (run (E := Example.externals) more sys2)) = false /\
         lockout_active (svc (run (E := Example.externals) more sys2)) = false) \/
        exists wake_at,
          worker (run (E := Example.externals) more sys2) = Sleeping wake_at).
Proof.
  apply (lockout_lasts_one_second (E := Example.externals)
           Example.during_recognition Example.taken_crop 11
           (fst Example.recognised) (snd Example.recognised)).
  - vm_compute. reflexivity.
  - vm_compute. reflexivity.
Defined.

Section SelectionTheorem.

Context {Tracker : Type} {E : Externals Tracker}.

Local Abbreviation Svc := (@Service Tracker).


End SelectionTheorem.



(** * Further properties *)

(** ** The index *)

Lemma forallb_false_witness {A : Type} (f : A -> bool) (l : list A) :
  forallb f l = false -> exists x, In x l /\ f x = false.
Proof.
  induction l as [|a l IH]; cbn; [discriminate|].
  destruct (f a) eqn:Hfa; cbn.
  - intro H. destruct (IH H) as (x & Hx & Hfx).
    exists x. split; [right; exact Hx | exact Hfx].
  - intros _. exists a. split; [left; reflexivity | exact Hfa].
Qed.

Lemma np_asarray_ok_rectangular (encs d : list (list Q)) :
  np_asarray encs = Ok d -> d = encs /\ rectangular encs.
Proof.
  unfold np_asarray. destruct encs as [|row rest].
  - intro H. injection H as <-. split; [reflexivity|]. intros r r' [].
  - destruct (forallb _ (row :: rest)) eqn:Hall; [|discriminate].
    intro H. injection H as <-. split; [reflexivity|].
    rewrite forallb_forall in Hall.
    intros r r' Hr Hr'.
    apply Hall in Hr. apply Hall in Hr'.
    apply Nat.eqb_eq in Hr. apply Nat.eqb_eq in Hr'. congruence.
Qed.

Lemma np_asarray_ragged (encs : list (list Q)) :
  ~ rectangular encs -> np_asarray encs = Raise ValueError.
Proof.
  intro Hnot. destruct (np_asarray encs) as [d|e] eqn:Hd.
  - exfalso. apply Hnot. apply (np_asarray_ok_rectangular encs d Hd).
  - unfold np_asarray in Hd. destruct encs as [|row rest]; [discriminate|].
    destruct (forallb _ (row :: rest)); [discriminate|].
    injection Hd as <-. reflexivity.
Qed.

Section IndexTheorems.

Context {Tracker : Type} {E : Externals Tracker}.

(** X1. [EmbeddingIndex(encodings, names)] raises exactly when the encodings
    are not all of one length or, where a neighbour search is fitted
    (scikit-learn present, five encodings or more), when the fit rejects
    them; the exception is then [ValueError]. *)
Theorem EmbeddingIndex_init_raises_iff (encs : list (list Q))
  (nms : list string) :
  (forall e, EmbeddingIndex_init encs nms = Raise e -> e = ValueError) /\
  (EmbeddingIndex_init encs nms = Raise ValueError <->
   (~ rectangular encs \/
    (rectangular encs /\ HAS_SKLEARN = true /\ (5 <= length encs)%nat /\
     nn_fit_accepts encs = false))).
Proof.
  unfold EmbeddingIndex_init.
  assert (Has : (match encs with [] => Ok [] | _ :: _ => np_asarray encs end)
                = np_asarray encs) by (destruct encs; reflexivity).
  rewrite Has. clear Has.
  destruct (np_asarray encs) as [d|e0] eqn:Hd.
  - destruct (np_asarray_ok_rectangular encs d Hd) as [-> Hrect].
    destruct (HAS_SKLEARN && (5 <=? Z.of_nat (length encs))) eqn:Hsk.
    + apply andb_prop in Hsk. destruct Hsk as [Hs Hn]. apply Z.leb_le in Hn.
      destruct (nn_fit_accepts encs) eqn:Hfit.
      * split; [intros e H; discriminate|]. split; [discriminate|].
        intros [Hnot|(_ & _ & _ & Hf)]; [contradiction | discriminate].
      * split; [intros e H; injection H as <-; reflexivity|].
        split; [|reflexivity].
        intros _. right. repeat split; try assumption. lia.
    + split; [intros e H; discriminate|]. split; [discriminate|].
      intros [Hnot|(_ & Hs & Hn & _)]; [contradiction|].
      rewrite Hs in Hsk. cbn in Hsk. apply Z.leb_gt in Hsk. lia.
  - assert (Hnot : ~ rectangular encs).
    { intro Hrect. rewrite (rectangular_asarray encs Hrect) in Hd.
      discriminate. }
    rewrite (np_asarray_ragged encs Hnot) in Hd. injection Hd as <-.
    split; [intros e H; injection H as <-; reflexivity|].
    split; [intros _; left; exact Hnot | reflexivity].
Qed.

Lemma EmbeddingIndex_init_fields (encs : list (list Q)) (nms : list string)
  (ix : EmbeddingIndex) :
  EmbeddingIndex_init encs nms = Ok ix ->
  names ix = nms /\
  data ix = encs /\
  rectangular encs /\
  nn ix = (if HAS_SKLEARN && (5 <=? Z.of_nat (length encs))
           then Some encs else None) /\
  ((length encs < 5)%nat -> nn ix = None).
Proof.
  unfold EmbeddingIndex_init.
  assert (Has : (match encs with [] => Ok [] | _ :: _ => np_asarray encs end)
                = np_asarray encs) by (destruct encs; reflexivity).
  rewrite Has. clear Has.
  destruct (np_asarray encs) as [d|e0] eqn:Hd; [|discriminate].
  destruct (np_asarray_ok_rectangular encs d Hd) as [-> Hrect].
  destruct (HAS_SKLEARN && (5 <=? Z.of_nat (length encs))) eqn:Hsk.
  - destruct (nn_fit_accepts encs); [|discriminate].
    intro H. injection H as <-. cbn. repeat split; try assumption.
    intro Hlt. apply andb_prop in Hsk. destruct Hsk as [_ Hn].
    apply Z.leb_le in Hn. lia.
  - intro H. injection H as <-. cbn. repeat split; assumption.
Qed.

End IndexTheorems.

Lemma EmbeddingIndex_init_raises_iff_witness :
  EmbeddingIndex_init (E := Example.externals) [[0; 1]; [0]]%Q
    ["cris"; "duda"]%string = Raise ValueError.
Proof.
  apply (proj2 (proj2 (EmbeddingIndex_init_raises_iff (E := Example.externals)
                         [[0; 1]; [0]]%Q ["cris"; "duda"]%string))).
  left. intro Hrect.
  specialize (Hrect [0; 1]%Q [0]%Q (or_introl eq_refl)
                (or_intror (or_introl eq_refl))).
  discriminate Hrect.
Defined.

Lemma argmin_from_first (l : list Q) :
  forall (best_i : Z) (best : Q) (i : Z),
    best_i < i ->
    (forall k x, nth_error l k = Some x ->
                 i + Z.of_nat k < fst (argmin_from best_i best i l) ->
                 (snd (argmin_from best_i best i l) < x)%Q) /\
    (i <= fst (argmin_from best_i best i l) ->
     (snd (argmin_from best_i best i l) < best)%Q).
Proof.
  induction l as [|x rest IH]; intros best_i best i Hlt; cbn [argmin_from].
  - split; [intros k x Hk; destruct k; discriminate|]. cbn. lia.
  - pose proof (argmin_from_least rest) as Hleast.
    destruct (PyFloat.Qltb x best) eqn:Hx.
    + apply Qltb_lt in Hx.
      destruct (IH i x (i + 1)) as [Ha Hb]; [lia|].
      destruct (Hleast i x (i + 1)) as (Hle & _ & _).
      split.
      * intros k y Hk Hpos. destruct k as [|k]; cbn in Hk.
        -- injection Hk as <-. apply Hb. lia.
        -- apply (Ha k y Hk). lia.
      * intros _. lra.
    + apply Qltb_ge in Hx.
      destruct (IH best_i best (i + 1)) as [Ha Hb]; [lia|].
      destruct (Hleast best_i best (i + 1)) as (_ & _ & Hwhere).
      split.
      * intros k y Hk Hpos. destruct k as [|k]; cbn in Hk.
        -- injection Hk as <-.
           assert (Hd : (snd (argmin_from best_i best (i + 1) rest) < best)%Q)
             by (apply Hb; lia).
           lra.
        -- apply (Ha k y Hk). lia.
      * intro Hi. apply Hb.
        destruct Hwhere as [[Hsame _]|[Hge _]]; lia.
Qed.

Section QueryTheorems.

Context {Tracker : Type} {E : Externals Tracker}.

(** X3. The linear scan answers the position of a row of the index and
    the distance of that row, which no row beats; of the rows at that
    distance it is the first: every earlier row is strictly farther. *)
Theorem query_answers_first_nearest (ix : EmbeddingIndex) (vec : list Q)
  (best_idx : Z) (dist : PyFloat.t) :
  nn ix = None ->
  query ix vec = (best_idx, dist) ->
  0 <= best_idx ->
  exists row,
    nth_error (data ix) (Z.to_nat best_idx) = Some row /\
    dist = Fin (norm_diff row vec) /\
    forall k r,
      nth_error (data ix) k = Some r ->
      (norm_diff row vec <= norm_diff r vec)%Q /\
      ((k < Z.to_nat best_idx)%nat ->
       (norm_diff row vec < norm_diff r vec)%Q).
Proof.
  intros Hnn Hq Hidx.
  destruct (query_brute_force_nearest ix vec best_idx dist Hnn Hq Hidx)
    as (row0 & Hrow0 & Hdist & Hmin).
  exists row0. split; [exact Hrow0|]. split; [exact Hdist|].
  intros k r Hk. split; [apply Hmin; apply (nth_error_In _ _ Hk)|].
  intro Hbefore.
  unfold query in Hq. rewrite Hnn in Hq.
  destruct (data ix) as [|row rest]; [destruct k; discriminate|].
  destruct (argmin_from_first (map (fun r => norm_diff r vec) rest)
              0 (norm_diff row vec) 1) as [Ha Hb]; [lia|].
  destruct (argmin_from 0 (norm_diff row vec) 1
              (map (fun r => norm_diff r vec) rest)) as [j d] eqn:Hj.
  cbn [fst snd] in Ha, Hb. injection Hq as <- <-.
  injection Hdist as Hd. rewrite <- Hd.
  destruct k as [|k]; cbn in Hk.
  - injection Hk as <-. apply Hb. lia.
  - apply (Ha k (norm_diff r vec)); [|lia].
    rewrite nth_error_map, Hk. reflexivity.
Qed.

End QueryTheorems.

Lemma query_answers_first_nearest_witness :
  Scenario.tied_nearest = (1, Fin 0.5%Q) /\
  exists row,
    nth_error (data Scenario.tied_index) (Z.to_nat (fst Scenario.tied_nearest))
    = Some row /\
    snd Scenario.tied_nearest
    = Fin (norm_diff (Externals := Scenario.externals) row [0; 0.5]%Q) /\
    forall k r,
      nth_error (data Scenario.tied_index) k = Some r ->
      (norm_diff (Externals := Scenario.externals) row [0; 0.5]
       <= norm_diff (Externals := Scenario.externals) r [0; 0.5]%Q)%Q /\
      ((k < Z.to_nat (fst Scenario.tied_nearest))%nat ->
       (norm_diff (Externals := Scenario.externals) row [0; 0.5]
        < norm_diff (Externals := Scenario.externals) r [0; 0.5]%Q)%Q).
Proof.
  split; [reflexivity|].
  apply (query_answers_first_nearest (E := Scenario.externals)
           Scenario.tied_index [0; 0.5]%Q (fst Scenario.tied_nearest)
           (snd Scenario.tied_nearest)).
  - reflexivity.
  - reflexivity.
  - vm_compute. discriminate.
Defined.

(** ** The identity store, continued *)

Section MoreStoreTheorems.

Context {Tracker : Type} {E : Externals Tracker}.

Local Abbreviation Svc := (@Service Tracker).

Lemma update_encodings_cases (B : list Byte.byte) (s : Svc) :
  update_encodings B s =
    if encodings_file_writable s
    then load_encodings (with_encodings_file_content (Some B) s)
    else (Ok false, s, [update_message]).
Proof.
  unfold update_encodings, try_except, bind, gets. cbn -[load_encodings].
  destruct (encodings_file_writable s); [|reflexivity].
  unfold modify. cbn -[load_encodings].
  rewrite load_encodings_cases. cbn.
  destruct (pickle_load B) as [[e n|]|]; try reflexivity.
  cbn zeta. destruct (EmbeddingIndex_init _ _); reflexivity.
Qed.

(** X4. Loading again changes nothing: a second [load_encodings] returns
    what the first returned and leaves the service as the first left it. *)
Theorem load_encodings_idempotent (s : Svc) :
  result_of (load_encodings (state_of (load_encodings s)))
  = result_of (load_encodings s) /\
  state_of (load_encodings (state_of (load_encodings s)))
  = state_of (load_encodings s).
Proof.
  rewrite (load_encodings_cases s).
  destruct (encodings_file_content s) as [bytes|] eqn:Hc.
  - destruct (pickle_load bytes) as [[e n|]|] eqn:Hp.
    + cbn zeta.
      destruct (EmbeddingIndex_init _ _) as [ix|err] eqn:Hi;
        unfold state_of, result_of; cbn [fst snd];
        rewrite load_encodings_cases; cbn [encodings_file_content
          with_index with_known_names with_known_encodings];
        rewrite Hc, Hp; cbn zeta; rewrite Hi; split; reflexivity.
    + unfold state_of, result_of; cbn [fst snd].
      rewrite load_encodings_cases, Hc, Hp. split; reflexivity.
    + unfold state_of, result_of; cbn [fst snd].
      rewrite load_encodings_cases, Hc, Hp. split; reflexivity.
  - unfold state_of, result_of; cbn [fst snd].
    rewrite load_encodings_cases, Hc. split; reflexivity.
Qed.

(** X5. [load_encodings] writes no attribute but [known_encodings],
    [known_names] and [index]: the file, the queue, the tracker, the pose
    buffer and the flags are as before, whatever the file holds. *)
Theorem load_encodings_writes_identities_only (s : Svc) :
  exists encs nms ix,
    state_of (load_encodings s)
    = with_index ix (with_known_names nms (with_known_encodings encs s)).
Proof.
  assert (Hsame : s = with_index (index s)
                        (with_known_names (known_names s)
                           (with_known_encodings (known_encodings s) s)))
    by (destruct s; reflexivity).
  rewrite load_encodings_cases.
  destruct (encodings_file_content s) as [bytes|].
  - destruct (pickle_load bytes) as [[e n|]|].
    + cbn zeta. destruct (EmbeddingIndex_init _ _) as [ix|err].
      * eexists _, _, (Some ix). reflexivity.
      * exists (match e with Some e => e | None => [] end),
               (match n with Some n => n | None => [] end), (index s).
        destruct s. reflexivity.
    + exists (known_encodings s), (known_names s), (index s). exact Hsame.
    + exists (known_encodings s), (known_names s), (index s). exact Hsame.
  - exists (known_encodings s), (known_names s), (index s). exact Hsame.
Qed.

(** X6. After a load that returned [True] the three attributes go
    together: the index was built from the loaded lists, its names are
    [known_names], it has one row for each of [known_encodings], and the
    encodings are of one length. *)
Theorem load_encodings_success_pairs (s : Svc) :
  result_of (load_encodings s) = Ok true ->
  exists ix,
    index (state_of (load_encodings s)) = Some ix /\
    EmbeddingIndex_init (known_encodings (state_of (load_encodings s)))
      (known_names (state_of (load_encodings s))) = Ok ix /\
    names ix = known_names (state_of (load_encodings s)) /\
    length (data ix) = length (known_encodings (state_of (load_encodings s))) /\
    rectangular (known_encodings (state_of (load_encodings s))).
Proof.
  rewrite load_encodings_cases.
  destruct (encodings_file_content s) as [bytes|]; [|discriminate].
  destruct (pickle_load bytes) as [[e n|]|]; try discriminate.
  cbn zeta.
  destruct (EmbeddingIndex_init _ _) as [ix|err] eqn:Hi; [|discriminate].
  intros _. exists ix.
  destruct (EmbeddingIndex_init_fields _ _ ix Hi) as (Hn & Hd & Hrect & _).
  unfold state_of. cbn.
  split; [reflexivity|]. split; [exact Hi|]. split; [exact Hn|].
  split; [rewrite Hd; reflexivity | exact Hrect].
Qed.

(** X7. A file that decodes to a mapping without the key ['encodings']
    loads as an empty identity set: the load returns [True],
    [known_encodings] is empty, and from then on every crop is recognised as
    [('Desconhecido', 0.0)], whatever names the file held. *)
Theorem load_encodings_without_encodings_key (s : Svc) (bytes : list Byte.byte)
  (n : option (list string)) :
  encodings_file_content s = Some bytes ->
  pickle_load bytes = Some (PMapping None n) ->
  result_of (load_encodings s) = Ok true /\
  known_encodings (state_of (load_encodings s)) = [] /\
  known_names (state_of (load_encodings s))
  = match n with Some nms => nms | None => [] end /\
  forall face_bgr,
    result_of (_recognize_face_crop face_bgr (state_of (load_encodings s)))
    = Ok (Desconhecido, Fin 0).
Proof.
  intros Hc Hp. rewrite load_encodings_cases, Hc, Hp. cbn zeta.
  assert (Hi : exists ix, EmbeddingIndex_init [] (match n with
                                                   | Some nms => nms
                                                   | None => []
                                                   end) = Ok ix).
  { unfold EmbeddingIndex_init. cbn [length Z.of_nat].
    replace (HAS_SKLEARN && (5 <=? 0)) with false
      by (destruct HAS_SKLEARN; reflexivity).
    eexists. reflexivity. }
  destruct Hi as (ix & Hi). rewrite Hi.
  unfold state_of, result_of. cbn [fst snd].
  repeat split.
  intro face_bgr. rewrite recognize_sentinel_cases; [reflexivity|].
  right. right. right. right. left. reflexivity.
Qed.

(** X8. [update_encodings] on a path that cannot be written returns
    [False], prints its message and changes nothing: neither the file nor
    the identities in memory. *)
Theorem update_encodings_unwritable (s : Svc) (B : list Byte.byte) :
  encodings_file_writable s = false ->
  update_encodings B s = (Ok false, s, [update_message]).
Proof.
  intro Hw. rewrite update_encodings_cases, Hw. reflexivity.
Qed.

(** X9. An update with bytes that do not unpickle, or that unpickle to
    something that is no mapping, returns [False] with the identities in
    memory untouched, but the file has been overwritten by then: it holds
    the rejected bytes, and a later [load_encodings] fails as well. *)
Theorem update_encodings_rejected_overwrites (s : Svc) (B : list Byte.byte) :
  encodings_file_writable s = true ->
  pickle_load B = None \/ pickle_load B = Some PNotMapping ->
  result_of (update_encodings B s) = Ok false /\
  state_of (update_encodings B s) = with_encodings_file_content (Some B) s /\
  result_of (load_encodings (state_of (update_encodings B s))) = Ok false.
Proof.
  intros Hw Hp. rewrite update_encodings_cases, Hw.
  assert (Hfail : load_encodings (with_encodings_file_content (Some B) s)
                  = (Ok false, with_encodings_file_content (Some B) s,
                     [load_message])).
  { rewrite load_encodings_cases. cbn [encodings_file_content
      with_encodings_file_content].
    destruct Hp as [-> | ->]; reflexivity. }
  rewrite Hfail. unfold state_of, result_of. cbn [fst snd].
  rewrite Hfail. repeat split.
Qed.

(** X10. A service constructed where there is no identity file knows
    nobody, has no index, is stopped, tracks nothing and has nothing queued;
    [process_single_frame] answers [('Desconhecido', 0.0)] on every frame. *)
Theorem service_without_file (path : string) (writable : bool)
  (cb : option (Image -> list Overlay -> Image)) (cfps dfps : Z) (scale : Q) :
  let s := FaceRecognitionService_init path None writable cb cfps dfps scale in
  known_names s = [] /\
  known_encodings s = [] /\
  index s = None /\
  processing s = false /\
  tracker s = None /\
  recognition_queue s = [] /\
  pose_buffer s = [] /\
  recognition_in_progress s = false /\
  forall frame,
    result_of (process_single_frame frame s) = Ok (Desconhecido, Fin 0).
Proof.
  cbn zeta. unfold FaceRecognitionService_init.
  rewrite load_encodings_cases. cbn [encodings_file_content init_attributes].
  unfold state_of. cbn [fst snd].
  repeat split.
  intro frame. unfold process_single_frame.
  rewrite recognize_sentinel_cases; [reflexivity|].
  right. right. right. left. reflexivity.
Qed.

(** X11. After an update that succeeds, [get_recognition_stats] reports as
    [known_people] the number of names in the file, and reading the
    statistics changes nothing. *)
Theorem stats_after_update (s : Svc) (B : list Byte.byte)
  (encs : list (list Q)) (nms : list string) :
  result_of (update_encodings B s) = Ok true ->
  pickle_load B = Some (PMapping (Some encs) (Some nms)) ->
  let s' := state_of (update_encodings B s) in
  (exists st, result_of (get_recognition_stats s') = Ok st /\
              known_people st = Z.of_nat (length nms) /\
              stats_recognition_threshold st = recognition_threshold s /\
              tracker_active st
              = match tracker s with Some _ => true | None => false end) /\
  state_of (get_recognition_stats s') = s' /\
  events_of (get_recognition_stats s') = [].
Proof.
  intros Hok Hp. cbn zeta. rewrite update_encodings_cases in Hok |- *.
  destruct (encodings_file_writable s); [|discriminate].
  rewrite load_encodings_cases in Hok |- *.
  cbn [encodings_file_content with_encodings_file_content] in Hok |- *.
  rewrite Hp in Hok |- *. cbn zeta in Hok |- *.
  destruct (EmbeddingIndex_init encs nms) as [ix|err]; [|discriminate].
  unfold state_of, result_of, events_of. cbn.
  split; [|split; reflexivity].
  eexists. split; [reflexivity|]. cbn. repeat split.
Qed.

End MoreStoreTheorems.

Lemma load_encodings_success_pairs_witness :
  exists ix,
    index (state_of (load_encodings (E := Example.externals) Example.service))
    = Some ix /\
    EmbeddingIndex_init (E := Example.externals)
      (known_encodings
         (state_of (load_encodings (E := Example.externals) Example.service)))
      (known_names
         (state_of (load_encodings (E := Example.externals) Example.service)))
    = Ok ix /\
    names ix
    = known_names
        (state_of (load_encodings (E := Example.externals) Example.service)) /\
    length (data ix)
    = length (known_encodings
                (state_of (load_encodings (E := Example.externals)
                             Example.service))) /\
    rectangular
      (known_encodings
         (state_of (load_encodings (E := Example.externals) Example.service))).
Proof.
  apply (load_encodings_success_pairs (E := Example.externals) Example.service).
  reflexivity.
Defined.

Lemma load_encodings_without_encodings_key_witness :
  let s := with_encodings_file_content (Some Scenario.nameless_file)
             Example.service in
  result_of (load_encodings (E := Scenario.externals) s) = Ok true /\
  known_encodings (state_of (load_encodings (E := Scenario.externals) s)) = [] /\
  known_names (state_of (load_encodings (E := Scenario.externals) s))
  = ["eva"]%string /\
  forall face_bgr,
    result_of (_recognize_face_crop (E := Scenario.externals) face_bgr
                 (state_of (load_encodings (E := Scenario.externals) s)))
    = Ok (Desconhecido, Fin 0).
Proof.
  apply (load_encodings_without_encodings_key (E := Scenario.externals)
           (with_encodings_file_content (Some Scenario.nameless_file)
              Example.service)
           Scenario.nameless_file (Some ["eva"]%string)).
  - reflexivity.
  - reflexivity.
Defined.

Lemma update_encodings_unwritable_witness :
  update_encodings (E := Scenario.externals) Example.ragged_file
    Scenario.read_only_service
  = (Ok false, Scenario.read_only_service, [update_message]).
Proof.
  apply (update_encodings_unwritable (E := Scenario.externals)
           Scenario.read_only_service Example.ragged_file).
  reflexivity.
Defined.

Lemma update_encodings_rejected_overwrites_witness :
  result_of (update_encodings (E := Example.externals) Scenario.garbage_file
               Example.service) = Ok false /\
  state_of (update_encodings (E := Example.externals) Scenario.garbage_file
              Example.service)
  = with_encodings_file_content (Some Scenario.garbage_file) Example.service /\
  result_of (load_encodings (E := Example.externals)
               (state_of (update_encodings (E := Example.externals)
                            Scenario.garbage_file Example.service)))
  = Ok false.
Proof.
  apply (update_encodings_rejected_overwrites (E := Example.externals)
           Example.service Scenario.garbage_file).
  - reflexivity.
  - left. reflexivity.
Defined.

Lemma stats_after_update_witness :
  let s' := state_of (update_encodings (E := Example.externals)
                        Example.good_file Example.empty_service) in
  (exists st,
      result_of (get_recognition_stats s') = Ok st /\
      known_people st = Z.of_nat (length ["ana"; "bia"]%string) /\
      stats_recognition_threshold st
      = recognition_threshold Example.empty_service /\
      tracker_active st
      = match tracker Example.empty_service with
        | Some _ => true
        | None => false
        end) /\
  state_of (get_recognition_stats s') = s' /\
  events_of (get_recognition_stats s') = [].
Proof.
  apply (stats_after_update (E := Example.externals) Example.empty_service
           Example.good_file [[0; 0]; [1; 1]]%Q ["ana"; "bia"]%string).
  - reflexivity.
  - reflexivity.
Defined.

(** ** Recognition, continued *)

Lemma py_getitem_In {A : Type} (l : list A) (i : Z) (x : A) :
  py_getitem l i = Ok x -> In x l.
Proof.
  unfold py_getitem.
  destruct ((_ <? 0) || (_ <=? _)); [discriminate|].
  destruct (nth_error l _) as [y|] eqn:Hnth; [|discriminate].
  intro H. injection H as <-. apply (nth_error_In _ _ Hnth).
Qed.

Lemma py_getitem_beyond {A : Type} (l : list A) (i : Z) :
  Z.of_nat (length l) <= i -> py_getitem l i = Raise IndexError.
Proof.
  intro Hi. unfold py_getitem.
  destruct (i <? 0) eqn:Hneg; [apply Z.ltb_lt in Hneg; lia|].
  replace (Z.of_nat (length l) <=? i) with true
    by (symmetry; apply Z.leb_le; exact Hi).
  rewrite orb_true_r. reflexivity.
Qed.

Lemma confidence_of_sane (dist : PyFloat.t) :
  sane_distance dist ->
  exists c, PyFloat.max (Fin 0) (PyFloat.sub (Fin 1) dist) = Fin c /\
            (0 <= c)%Q /\ (c <= 1)%Q.
Proof.
  destruct dist as [d| | |]; cbn [sane_distance]; intro Hsane.
  - destruct (confidence_finite d) as (c & Hc & H0 & _ & Hor).
    exists c. split; [exact Hc|]. split; [exact H0|].
    destruct Hor as [-> | ->]; lra.
  - exists 0%Q. split; [reflexivity|]. split; lra.
  - contradiction.
  - exists 0%Q. split; [reflexivity|]. split; lra.
Qed.

Section MoreRecognitionTheorems.

Context {Tracker : Type} {E : Externals Tracker}.

Local Abbreviation Svc := (@Service Tracker).
Local Abbreviation Sys := (System Tracker).

(** What [_recognize_face_crop] can answer: the sentinel, or what the
    distance of a query decides. *)
Lemma recognize_result_cases (face_bgr : Image) (s : Svc) :
  result_of (_recognize_face_crop face_bgr s) = Ok (Desconhecido, Fin 0) \/
  exists ix vec,
    index s = Some ix /\
    result_of (_recognize_face_crop face_bgr s) =
      let confidence :=
        PyFloat.max (Fin 0) (PyFloat.sub (Fin 1) (snd (query ix vec))) in
      if PyFloat.ltb (snd (query ix vec)) (Fin (recognition_threshold s))
      then match py_getitem (known_names s) (fst (query ix vec)) with
           | Ok name => Ok (name, confidence)
           | Raise e => Raise e
           end
      else Ok (Desconhecido, confidence).
Proof.
  unfold _recognize_face_crop.
  destruct (size face_bgr =? 0); [left; reflexivity|].
  destruct (face_locations (prepare_face face_bgr)) as [|loc0 locs];
    [left; reflexivity|].
  destruct (face_encodings (prepare_face face_bgr) [loc0]) as [|vec encs];
    [left; reflexivity|].
  unfold bind, gets, ret, lift, result_of; cbn.
  destruct (index s) as [ix|]; [|left; reflexivity].
  destruct (Z.of_nat (length (known_encodings s)) =? 0); [left; reflexivity|].
  destruct (query ix vec) as [best_idx dist] eqn:Hq.
  destruct (best_idx <? 0); [left; reflexivity|].
  right. exists ix, vec. split; [reflexivity|].
  rewrite Hq. cbn.
  destruct (PyFloat.ltb dist (Fin (recognition_threshold s))); cbn;
    [|reflexivity].
  destruct (py_getitem (known_names s) best_idx); reflexivity.
Qed.

Lemma query_sane (ix : EmbeddingIndex) (vec : list Q) :
  (forall r v, (0 <= norm_diff r v)%Q) ->
  (forall fitted v, sane_distance (snd (nn_kneighbors fitted v))) ->
  sane_distance (snd (query ix vec)).
Proof.
  intros Hnorm Hnn. unfold query.
  destruct (data ix) as [|row rest]; [exact I|].
  destruct (nn ix) as [fitted|]; [apply Hnn|].
  pose proof (argmin_from_least (map (fun r => norm_diff r vec) rest)
                0 (norm_diff row vec) 1) as (_ & Hall & Hwhere).
  destruct (argmin_from 0 (norm_diff row vec) 1
              (map (fun r => norm_diff r vec) rest)) as [j d].
  cbn [fst snd sane_distance] in *.
  destruct Hwhere as [[_ ->]|[_ Hnth]]; [apply Hnorm|].
  apply nth_error_In in Hnth. apply in_map_iff in Hnth.
  destruct Hnth as (r & <- & _). apply Hnorm.
Qed.

(** X12. Recognition never invents a name: what it returns is
    ['Desconhecido'] or one of [known_names]. *)
Theorem recognition_names_are_known (face_bgr : Image) (s : Svc)
  (name : string) (confidence : PyFloat.t) :
  result_of (_recognize_face_crop face_bgr s) = Ok (name, confidence) ->
  name = Desconhecido \/ In name (known_names s).
Proof.
  intro Hres.
  destruct (recognize_result_cases face_bgr s) as [H|(ix & vec & _ & H)];
    rewrite H in Hres.
  - injection Hres as <- _. left. reflexivity.
  - cbn zeta in Hres.
    destruct (PyFloat.ltb _ _).
    + destruct (py_getitem (known_names s) (fst (query ix vec)))
        as [n|e] eqn:Hget; [|discriminate].
      injection Hres as <- _. right. apply (py_getitem_In _ _ _ Hget).
    + injection Hres as <- _. left. reflexivity.
Qed.

(** X13. When distances are what distances are (the norm is not negative,
    the neighbour search answers neither a negative distance nor minus
    infinity), every confidence returned is a finite number between 0
    and 1, also where the distance is infinite or not a number. *)
Theorem recognition_confidence_in_unit_interval (face_bgr : Image) (s : Svc)
  (name : string) (confidence : PyFloat.t) :
  (forall r v, (0 <= norm_diff r v)%Q) ->
  (forall fitted v, sane_distance (snd (nn_kneighbors fitted v))) ->
  result_of (_recognize_face_crop face_bgr s) = Ok (name, confidence) ->
  exists c, confidence = Fin c /\ (0 <= c)%Q /\ (c <= 1)%Q.
Proof.
  intros Hnorm Hnn Hres.
  destruct (recognize_result_cases face_bgr s) as [H|(ix & vec & _ & H)];
    rewrite H in Hres.
  - injection Hres as _ <-. exists 0%Q. split; [reflexivity|]. split; lra.
  - cbn zeta in Hres.
    pose proof (confidence_of_sane _ (query_sane ix vec Hnorm Hnn)) as Hc.
    destruct (PyFloat.ltb _ _).
    + destruct (py_getitem (known_names s) (fst (query ix vec)));
        [|discriminate].
      injection Hres as _ <-. exact Hc.
    + injection Hres as _ <-. exact Hc.
Qed.

(** X14. When the nearest row lies under the threshold but [known_names] is
    too short to have an entry at its position, [_recognize_face_crop] does
    not answer ['Desconhecido']: it raises [IndexError], and so does
    [process_single_frame]. *)
Theorem recognition_raises_on_short_names (face_bgr : Image) (s : Svc)
  (ix : EmbeddingIndex) (loc0 : Box) (locs : list Box) (vec : list Q)
  (encs : list (list Q)) (best_idx : Z) (dist : PyFloat.t) :
  size face_bgr <> 0 ->
  face_locations (prepare_face face_bgr) = loc0 :: locs ->
  face_encodings (prepare_face face_bgr) [loc0] = vec :: encs ->
  index s = Some ix ->
  known_encodings s <> [] ->
  query ix vec = (best_idx, dist) ->
  PyFloat.ltb dist (Fin (recognition_threshold s)) = true ->
  Z.of_nat (length (known_names s)) <= best_idx ->
  process_single_frame face_bgr s = (Raise IndexError, s, []).
Proof.
  intros Hsize Hlocs Hencs Hix Hknown Hq Hlt Hshort.
  assert (Hidx : 0 <= best_idx) by lia.
  pose proof (recognize_past_guards face_bgr s ix loc0 locs vec encs best_idx
                dist Hsize Hlocs Hencs Hix Hknown Hq Hidx) as Hres.
  cbn zeta in Hres. rewrite Hlt, (py_getitem_beyond _ _ Hshort) in Hres.
  destruct (recognize_reads_only face_bgr s) as [Hs He].
  unfold process_single_frame, result_of, state_of, events_of in *.
  destruct (_recognize_face_crop face_bgr s) as [[r s1] l1].
  cbn [fst snd] in *. subst. reflexivity.
Qed.

(** X15. The recognition thread is never left holding the flag: whatever
    a crop leads to, [recognition_in_progress] is false once the worker is
    through with it.  When recognition raised, the worker prints, goes back
    to waiting and changes nothing else: the tracker keeps running, no
    result is displayed and no lockout starts. *)
Theorem worker_always_clears_in_progress (sys : Sys) (face_crop : Image)
  (now : Q) :
  worker sys = Recognizing face_crop ->
  recognition_in_progress (svc (worker_step now sys)) = false /\
  (forall e,
      result_of (_recognize_face_crop face_crop (svc sys)) = Raise e ->
      svc (worker_step now sys)
      = with_recognition_in_progress false (svc sys) /\
      worker (worker_step now sys) = Waiting).
Proof.
  intro Hw. unfold worker_step. rewrite Hw. cbv beta iota zeta.
  rewrite recognize_and_publish_cases.
  destruct (result_of (_recognize_face_crop face_crop (svc sys))) as [r|e0].
  - split; [reflexivity|]. intros e H. discriminate.
  - split; [reflexivity|]. intros e _. split; reflexivity.
Qed.

End MoreRecognitionTheorems.

Lemma recognition_names_are_known_witness :
  fst Example.recognised = Desconhecido \/
  In (fst Example.recognised) (known_names (svc Example.during_recognition)).
Proof.
  apply (recognition_names_are_known (E := Example.externals)
           Example.taken_crop (svc Example.during_recognition)
           (fst Example.recognised) (snd Example.recognised)).
  vm_compute. reflexivity.
Defined.

Lemma abs_nonneg (x : Q) : (0 <= py_abs x)%Q.
Proof.
  unfold py_abs. destruct (Qle_bool 0 x) eqn:H.
  - apply Qle_bool_iff. exact H.
  - assert (Hn : ~ (0 <= x)%Q) by (intro Hx; apply Qle_bool_iff in Hx; congruence).
    lra.
Qed.

Lemma l1_nonneg (r v : list Q) : (0 <= Example.l1 r v)%Q.
Proof.
  unfold Example.l1.
  induction (combine r v) as [|p l IH]; cbn; [lra|].
  pose proof (abs_nonneg (fst p - snd p)). lra.
Qed.

Lemma recognition_confidence_in_unit_interval_witness :
  exists c, snd Example.recognised = Fin c /\ (0 <= c)%Q /\ (c <= 1)%Q.
Proof.
  apply (recognition_confidence_in_unit_interval (E := Example.externals)
           Example.taken_crop (svc Example.during_recognition)
           (fst Example.recognised) (snd Example.recognised)).
  - exact l1_nonneg.
  - intros fitted v. cbn. lra.
  - vm_compute. reflexivity.
Defined.

Lemma recognition_raises_on_short_names_witness :
  process_single_frame (E := Scenario.externals) Example.frame
    Scenario.service_short_names
  = (Raise IndexError, Scenario.service_short_names, []).
Proof.
  apply (recognition_raises_on_short_names (E := Scenario.externals)
           Example.frame Scenario.service_short_names
           {| names := ["ana"]%string; data := [[1; 1]; [0; 0]]%Q; nn := None |}
           (0, 4, 4, 0) [] [0; 0.5]%Q []
           (fst (query (E := Scenario.externals)
                   {| names := ["ana"]%string; data := [[1; 1]; [0; 0]]%Q;
                      nn := None |} [0; 0.5]%Q))
           (snd (query (E := Scenario.externals)
                   {| names := ["ana"]%string; data := [[1; 1]; [0; 0]]%Q;
                      nn := None |} [0; 0.5]%Q))).
  - vm_compute. discriminate.
  - reflexivity.
  - reflexivity.
  - reflexivity.
  - vm_compute. discriminate.
  - vm_compute. reflexivity.
  - vm_compute. reflexivity.
  - vm_compute. discriminate.
Defined.

Lemma worker_always_clears_in_progress_witness :
  recognition_in_progress
    (svc (worker_step (E := Scenario.externals) 3 Scenario.unnameable)) = false /\
  (forall e,
      result_of (_recognize_face_crop (E := Scenario.externals) Example.frame
                   (svc Scenario.unnameable)) = Raise e ->
      svc (worker_step (E := Scenario.externals) 3 Scenario.unnameable)
      = with_recognition_in_progress false (svc Scenario.unnameable) /\
      worker (worker_step (E := Scenario.externals) 3 Scenario.unnameable)
      = Waiting).
Proof.
  apply (worker_always_clears_in_progress (E := Scenario.externals)
           Scenario.unnameable Example.frame 3).
  reflexivity.
Defined.

(** ** The hand-over between the threads *)

Section SlotFacts.

Context {Tracker : Type} {E : Externals Tracker}.

Local Abbreviation Svc := (@Service Tracker).
Local Abbreviation Sys := (System Tracker).
Local Abbreviation Thr := (Threads Tracker).

Lemma same_view_moved (s0 s : Svc) : same_view s0 s -> slot_moved s0 s.
Proof. intros (Hp & Hq & Hd). split; [exact Hd | left; split; assumption]. Qed.

Lemma select_and_submit_moves (s0 : Svc) :
  triple (same_view s0) select_and_submit (slot_moved s0) any_event.
Proof.
  intros s Hview. split; [|apply Forall_forall; intros; exact I].
  pose proof (same_view_moved s0 s Hview) as Hstay.
  destruct Hview as (Hp & Hq & Hd).
  unfold select_and_submit, bind, gets, lift, state_of. cbn.
  destruct (recognition_in_progress s) eqn:Hprog; cbn; [exact Hstay|].
  destruct (result_displayed s) eqn:Hdisp; cbn; [exact Hstay|].
  destruct (recognition_queue s) as [|x q] eqn:Hqueue; cbn; [|exact Hstay].
  destruct (3 <=? Z.of_nat (length (pose_buffer s))); cbn; [|exact Hstay].
  destruct (py_min (pose_buffer s)) as [[[[sc na] cr] an]|e]; cbn;
    [|exact Hstay].
  destruct (PyFloat.Qltb sc (frontality_thr s)
            && Qle_bool (min_face_area_rel s) (- na)); cbn; [|exact Hstay].
  unfold submit_candidate, try_except, bind.
  rewrite (put_nowait_empty s cr Hqueue). unfold slot_moved. cbn.
  split; [congruence|]. right.
  repeat split; try congruence. exists cr. reflexivity.
Qed.

Lemma track_frame_moves (s0 : Svc) (t : Tracker) (frame : Image) :
  triple (same_view s0) (track_frame t frame) (slot_moved s0) any_event.
Proof.
  unfold track_frame.
  destruct (tracker_update t frame) as [t' [ok bbox]].
  apply triple_bind with (R := same_view s0);
    [keeps side_condition | apply same_view_moved | intros _].
  destruct ok.
  - apply triple_bind with (R := same_view s0); [|apply same_view_moved|].
    + unfold follow_face, sample_pose. keeps side_condition.
    + intros [[[x1 y1] x2] y2].
      apply triple_bind with (R := slot_moved s0); [|intros ? H; exact H|].
      * apply select_and_submit_moves.
      * intros _. apply triple_ret.
  - apply triple_weaken with (P := same_view s0) (Q := same_view s0);
      [|intros ? H; exact H | apply same_view_moved].
    unfold _stop_tracker. keeps side_condition.
Qed.

(** What an iteration does to the slot. *)
Lemma capture_iteration_slot (frame : Image) (s : Svc) :
  slot_moved s (state_of (capture_iteration frame s)).
Proof.
  rewrite capture_iteration_unfold.
  assert (H : triple (same_view s)
                (bind (match tracker s with
                       | Some t => track_frame t frame
                       | None => detect_frame frame
                       end) (publish frame))
                (slot_moved s) any_event).
  { apply triple_bind with (R := slot_moved s); [|intros ? H; exact H|].
    - destruct (tracker s) as [t|].
      + apply track_frame_moves.
      + apply triple_weaken with (P := same_view s) (Q := same_view s);
          [|intros ? H; exact H | apply same_view_moved].
        unfold detect_frame, _start_tracker. keeps side_condition.
    - intro overlays. unfold publish. keeps side_condition. }
  apply H. repeat split.
Qed.

Lemma capture_frame_in_flight (frame : Image) (th : Thr) :
  one_in_flight th -> one_in_flight (capture_frame frame th).
Proof.
  intro H. unfold capture_frame.
  destruct (capture_pc th); try exact H.
  pose proof (capture_iteration_slot frame (shared th)) as (Hd & Hslot).
  unfold one_in_flight in *. cbn [shared worker_pc].
  destruct (in_hand (worker_pc th)).
  - destruct Hslot as [[Hp Hq]|(Hp & Hd0 & Hq & Hp' & item & Hq')].
    + rewrite Hp, Hq. exact H.
    + right. split; [exact Hp'|]. exists item. exact Hq'.
  - destruct H as [Hq Hp].
    destruct Hslot as [[Hp' Hq']|(Hp0 & _)]; [|congruence].
    rewrite Hp', Hq'. split; assumption.
Qed.

Lemma worker_line_in_flight (now : Q) (th : Thr) :
  one_in_flight th -> one_in_flight (worker_line now th).
Proof.
  unfold worker_line, one_in_flight.
  destruct (worker_pc th) as [| |c| | | | | | | |w| | | | |] eqn:Hpc;
    cbn [in_hand shared worker_pc]; intro H;
    try exact H; try (rewrite Hpc; exact H).
  - destruct (processing (shared th)); exact H.
  - destruct (recognition_queue (shared th)) as [|x q] eqn:Hq; cbn.
    + rewrite Hpc. left. exact Hq.
    + destruct H as [H|(Hp & item & Hitem)]; [discriminate|].
      injection Hitem as -> ->. split; [reflexivity | exact Hp].
  - destruct (recognize_reads_only c (shared th)) as [Hs _]. rewrite Hs.
    destruct (result_of (_recognize_face_crop c (shared th))); exact H.
  - left. exact (proj1 H).
  - destruct (Qle_bool w now); cbn [in_hand shared worker_pc];
      [exact H | rewrite Hpc; exact H].
  - left. exact (proj1 H).
Qed.

Lemma make_move_in_flight (m : move) (th : Thr) :
  one_in_flight th -> one_in_flight (make_move m th).
Proof.
  intro H. destruct m as [|frame| |now| |]; cbn [make_move].
  - unfold capture_test. destruct (capture_pc th); exact H.
  - apply capture_frame_in_flight. exact H.
  - unfold capture_no_frame. destruct (capture_pc th); exact H.
  - apply worker_line_in_flight. exact H.
  - unfold get_times_out.
    destruct (worker_pc th) eqn:Hpc; try exact H.
    destruct (recognition_queue (shared th)) eqn:Hq; [|exact H].
    unfold one_in_flight. cbn. left. exact Hq.
  - exact H.
Qed.

Lemma play_in_flight (moves : list move) :
  forall th : Thr, one_in_flight th -> one_in_flight (play moves th).
Proof.
  induction moves as [|m moves IH]; intros th H; [exact H|].
  cbn. apply IH. apply make_move_in_flight. exact H.
Qed.

Lemma play_app (ms ms' : list move) (th : Thr) :
  play (ms ++ ms') th = play ms' (play ms th).
Proof. unfold play. apply fold_left_app. Qed.

Lemma play_cons (m : move) (ms : list move) (th : Thr) :
  play (m :: ms) th = play ms (make_move m th).
Proof. reflexivity. Qed.

Lemma play_nil (th : Thr) : play [] th = th.
Proof. reflexivity. Qed.

Ltac one_line :=
  rewrite play_cons; cbn [make_move]; unfold worker_line;
  cbn [shared capture_pc worker_pc].

(** A [step] is the sequence of its moves, run without the other thread
    coming in between. *)
Lemma steps_are_moves (st : step) (sys : Sys) :
  play (moves_of st sys) (threads_of sys) = threads_of (run_step st sys).
Proof.
  destruct st as [frame| |now]; cbn [moves_of run_step].
  - unfold capture_step.
    destruct (capture_alive sys) eqn:Ha; cbn [andb]; [|reflexivity].
    destruct (processing (svc sys)) eqn:Hp; [|reflexivity].
    unfold threads_of. rewrite Ha.
    rewrite play_cons. cbn [make_move]. unfold capture_test.
    cbn [capture_pc shared worker_pc]. rewrite Hp.
    rewrite play_cons. cbn [make_move]. unfold capture_frame.
    cbn [capture_pc shared worker_pc svc capture_alive worker].
    rewrite play_nil.
    destruct (result_of (capture_iteration frame (svc sys))); reflexivity.
  - unfold capture_read_fail.
    destruct (capture_alive sys) eqn:Ha; cbn [andb]; [|reflexivity].
    destruct (processing (svc sys)) eqn:Hp; [|reflexivity].
    unfold threads_of. rewrite Ha.
    rewrite play_cons. cbn [make_move]. unfold capture_test.
    cbn [capture_pc shared worker_pc]. rewrite Hp.
    reflexivity.
  - unfold worker_step.
    destruct (worker sys) as [|c|w] eqn:Hw.
    + destruct (processing (svc sys)) eqn:Hp; [|reflexivity].
      destruct (recognition_queue (svc sys)) as [|x q] eqn:Hq; cbn [Queue.get];
        [reflexivity|].
      unfold threads_of. rewrite Hw.
      one_line. rewrite Hp. one_line. rewrite Hq. reflexivity.
    + cbv beta iota zeta. rewrite recognize_and_publish_cases.
      destruct (recognize_reads_only c (svc sys)) as [Hs _].
      unfold threads_of. rewrite Hw.
      destruct (result_of (_recognize_face_crop c (svc sys))) eqn:Hr;
        cbn [repeat]; one_line; rewrite Hr, Hs; repeat one_line;
        reflexivity.
    + destruct (Qle_bool w now) eqn:Hwake; [|reflexivity].
      unfold threads_of. rewrite Hw. cbn [repeat].
      one_line. rewrite Hwake. repeat one_line. reflexivity.
Qed.

(** Every run of the two threads by steps is a run by moves. *)
Lemma runs_are_plays (steps : list step) :
  forall sys : Sys,
    exists moves, play moves (threads_of sys) = threads_of (run steps sys).
Proof.
  induction steps as [|st steps IH]; intro sys; [exists []; reflexivity|].
  destruct (IH (run_step st sys)) as [moves Hmoves].
  exists (moves_of st sys ++ moves).
  rewrite play_app, steps_are_moves. exact Hmoves.
Qed.

(** X16. An iteration of the capture loop never takes anything off the
    queue and never lowers [recognition_in_progress]; it leaves
    [result_displayed] alone.  Either flag and queue are as before, or the
    service was idle, showing no result, with an empty queue, and now holds
    exactly one crop with the flag raised. *)
Theorem capture_iteration_moves_slot_forward (frame : Image) (s : Svc) :
  result_displayed (state_of (capture_iteration frame s)) = result_displayed s /\
  ((recognition_in_progress (state_of (capture_iteration frame s))
    = recognition_in_progress s /\
    recognition_queue (state_of (capture_iteration frame s))
    = recognition_queue s) \/
   (recognition_in_progress s = false /\
    result_displayed s = false /\
    recognition_queue s = [] /\
    recognition_in_progress (state_of (capture_iteration frame s)) = true /\
    exists item,
      recognition_queue (state_of (capture_iteration frame s)) = [item])).
Proof. exact (capture_iteration_slot frame s). Qed.

(** X17. From a start with an empty queue and nothing in the worker's
    hand, whatever the order in which the capture loop's iterations and the
    worker's statements follow each other, one request at most is in
    flight: a crop is never queued while the worker holds another whose
    [recognition_in_progress] it has not yet cleared, and the queue never
    holds two. *)
Theorem one_request_in_flight (th : Thr) (moves : list move) :
  recognition_queue (shared th) = [] ->
  in_hand (worker_pc th) = 0%nat ->
  (length (recognition_queue (shared (play moves th)))
   + in_hand (worker_pc (play moves th)) <= 1)%nat.
Proof.
  intros Hq Hw.
  assert (H0 : one_in_flight th)
    by (unfold one_in_flight; rewrite Hw; left; exact Hq).
  pose proof (play_in_flight moves th H0) as H.
  unfold one_in_flight in H.
  destruct (in_hand (worker_pc (play moves th))) as [|n] eqn:Hn.
  - destruct H as [H|(_ & item & H)]; rewrite H; cbn; lia.
  - destruct H as [H _]. rewrite H. cbn.
    destruct (worker_pc (play moves th)); cbn in Hn; try discriminate;
      injection Hn as <-; lia.
Qed.

End SlotFacts.

Lemma one_request_in_flight_witness :
  let th := play (E := Scenario.externals) Scenario.overlap
              (threads_of Example.system) in
  worker_pc th = InSleep (11 + 1.0) /\
  result_displayed (shared th) = true /\
  length (recognition_queue (shared th)) = 1%nat /\
  (length (recognition_queue (shared th)) + in_hand (worker_pc th) <= 1)%nat.
Proof.
  cbv zeta. split; [vm_compute; reflexivity|].
  split; [vm_compute; reflexivity|]. split; [vm_compute; reflexivity|].
  apply (one_request_in_flight (E := Scenario.externals)
           (threads_of Example.system) Scenario.overlap).
  - vm_compute. reflexivity.
  - reflexivity.
Defined.

(** ** The pose buffer *)

Lemma deque_append_length {A : Type} (buf : list A) (x : A) :
  (length (deque_append buf x) <= length buf + 1)%nat /\
  (Z.of_nat (length buf) <= pose_buffer_maxlen ->
   Z.of_nat (length (deque_append buf x)) <= pose_buffer_maxlen).
Proof.
  unfold deque_append, pose_buffer_maxlen.
  destruct (12 <=? Z.of_nat (length buf)) eqn:Hfull.
  - apply Z.leb_le in Hfull.
    destruct buf as [|b buf]; [cbn in Hfull; lia|].
    cbn [tl]. rewrite length_app. cbn [length]. split; lia.
  - apply Z.leb_gt in Hfull. rewrite length_app. cbn [length]. split; lia.
Qed.

Section BufferFacts.

Context {Tracker : Type} {E : Externals Tracker}.

Local Abbreviation Svc := (@Service Tracker).
Local Abbreviation Sys := (System Tracker).

(** What [sample_pose] leaves behind: the service as it was, or with one
    sample appended to the buffer. *)
Lemma sample_pose_cases (frame face_crop : Image) (x1 y1 x2 y2 : Z) (s : Svc) :
  state_of (sample_pose frame face_crop x1 y1 x2 y2 s) = s \/
  (pose_stride s <> 0 /\
   frame_count s mod pose_stride s = 0 /\
   exists t,
     state_of (sample_pose frame face_crop x1 y1 x2 y2 s)
     = with_pose_buffer (deque_append (pose_buffer s) t) s).
Proof.
  unfold sample_pose, bind, gets, lift, raise, ret, modify, state_of. cbn.
  destruct (pose_stride s =? 0) eqn:Hk; cbn; [left; reflexivity|].
  apply Z.eqb_neq in Hk.
  destruct (frame_count s mod pose_stride s =? 0) eqn:Hmod; cbn;
    [|left; reflexivity].
  apply Z.eqb_eq in Hmod.
  destruct (estimate_head_pose_angles face_crop) as [[[yaw pitch] roll]|];
    cbn; [|left; reflexivity].
  destruct (shape frame) as [fh fw]. cbn.
  destruct (py_div _ _) as [area_rel|e]; cbn; [|left; reflexivity].
  right. split; [exact Hk|]. split; [exact Hmod|].
  eexists. reflexivity.
Qed.

Lemma sample_pose_keeps_bounded (frame face_crop : Image) (x1 y1 x2 y2 : Z) :
  triple (Tracker := Tracker) pose_buffer_bounded
    (sample_pose frame face_crop x1 y1 x2 y2) pose_buffer_bounded any_event.
Proof.
  intros s H. split; [|apply Forall_forall; intros; exact I].
  destruct (sample_pose_cases frame face_crop x1 y1 x2 y2 s)
    as [-> | (_ & _ & t & ->)]; [exact H|].
  unfold pose_buffer_bounded in *. cbn.
  apply deque_append_length. exact H.
Qed.

Lemma capture_iteration_keeps_bounded (frame : Image) :
  triple (Tracker := Tracker) pose_buffer_bounded (capture_iteration frame)
    pose_buffer_bounded any_event.
Proof.
  unfold capture_iteration, track_frame, detect_frame, follow_face,
    select_and_submit, submit_candidate, publish, _start_tracker,
    _stop_tracker.
  keeps ltac:(first [ exact I
                    | apply sample_pose_keeps_bounded
                    | apply put_nowait_keeps; intros ? ? H; exact H
                    | intros ? H; exact H
                    | intros ? _; unfold pose_buffer_bounded,
                        pose_buffer_maxlen; cbn; lia ]).
Qed.

Lemma sample_pose_grows (n : nat) (fc k : Z) (frame face_crop : Image)
  (x1 y1 x2 y2 : Z) :
  triple (Tracker := Tracker) (counted_with n fc k)
    (sample_pose frame face_crop x1 y1 x2 y2)
    (counted_with (n + (if (fc mod k =? 0)%Z then 1 else 0)) fc k) any_event.
Proof.
  intros s (Hfc & Hk & Hn). split; [|apply Forall_forall; intros; exact I].
  destruct (sample_pose_cases frame face_crop x1 y1 x2 y2 s)
    as [-> | (_ & Hmod & t & ->)].
  - repeat split; try assumption. lia.
  - unfold counted_with. cbn. repeat split; try assumption.
    rewrite Hfc, Hk in Hmod. rewrite Hmod. cbn.
    pose proof (proj1 (deque_append_length (pose_buffer s) t)). lia.
Qed.

Lemma counted_with_more (n m : nat) (fc k : Z) (s : Svc) :
  (n <= m)%nat -> counted_with n fc k s -> counted_with m fc k s.
Proof. intros Hnm (H1 & H2 & H3). repeat split; try assumption. lia. Qed.

Ltac counted_side_condition :=
  first [ exact I
        | apply put_nowait_keeps; intros ? ? H; exact H
        | intros ? H; exact H
        | intros ? (H1 & H2 & H3); repeat split; cbn; try assumption; lia ].

Lemma capture_branch_counted (n : nat) (fc k : Z) (frame : Image)
  (trk : option Tracker) :
  triple (Tracker := Tracker) (counted_with n fc k)
    (bind (match trk with
           | Some t => track_frame t frame
           | None => detect_frame frame
           end) (publish frame))
    (counted_with (n + (if (fc mod k =? 0)%Z then 1 else 0)) fc k) any_event.
Proof.
  set (m := (n + (if (fc mod k =? 0)%Z then 1 else 0))%nat).
  assert (Hnm : (n <= m)%nat) by (unfold m; lia).
  apply triple_bind with (R := counted_with m fc k); [|intros ? H; exact H|].
  - destruct trk as [t|].
    + unfold track_frame.
      destruct (tracker_update t frame) as [t' [ok bbox]].
      apply triple_bind with (R := counted_with n fc k);
        [keeps counted_side_condition
        | intros ?; apply counted_with_more; exact Hnm | intros _].
      destruct ok.
      * unfold follow_face.
        apply triple_bind with (R := counted_with m fc k);
          [|intros ? H; exact H|].
        -- apply triple_bind with (R := counted_with n fc k);
             [keeps counted_side_condition
             | intros ?; apply counted_with_more; exact Hnm | intros ?].
           apply triple_bind with (R := counted_with n fc k);
             [keeps counted_side_condition
             | intros ?; apply counted_with_more; exact Hnm | intros _].
           destruct (clip_box frame bbox) as [[[x1 y1] x2] y2].
           apply triple_bind with (R := counted_with m fc k);
             [apply sample_pose_grows | intros ? H; exact H | intros _].
           apply triple_ret.
        -- intros [[[x1 y1] x2] y2].
           unfold select_and_submit, submit_candidate.
           keeps counted_side_condition.
      * apply triple_weaken with (P := counted_with n fc k)
                                 (Q := counted_with n fc k);
          [|intros ? H; exact H
           |intros ?; apply counted_with_more; exact Hnm].
        unfold _stop_tracker. keeps counted_side_condition.
    + apply triple_weaken with (P := counted_with n fc k)
                               (Q := counted_with n fc k);
        [|intros ? H; exact H
         |intros ?; apply counted_with_more; exact Hnm].
      unfold detect_frame, _start_tracker. keeps counted_side_condition.
  - intro overlays. unfold publish. keeps counted_side_condition.
Qed.

(** X18. Along every sequence of steps the pose buffer holds at most twelve
    samples. *)
Theorem pose_buffer_never_exceeds_maxlen (sys : Sys) (steps : list step) :
  (length (pose_buffer (svc sys)) <= 12)%nat ->
  (length (pose_buffer (svc (run steps sys))) <= 12)%nat.
Proof.
  revert sys. induction steps as [|st steps IH]; intros sys H; [exact H|].
  cbn. apply IH. destruct st as [frame| |now]; cbn.
  - unfold capture_step.
    destruct (capture_alive sys && processing (svc sys)); [|exact H].
    cbn [svc].
    assert (Hb : pose_buffer_bounded (svc sys))
      by (unfold pose_buffer_bounded, pose_buffer_maxlen; lia).
    destruct (capture_iteration_keeps_bounded frame (svc sys) Hb) as [Hb' _].
    unfold pose_buffer_bounded, pose_buffer_maxlen in Hb'. lia.
  - unfold capture_read_fail.
    destruct (capture_alive sys && processing (svc sys)); exact H.
  - rewrite worker_step_buffer. exact H.
Qed.

(** X19. Every iteration counts its frame, whatever happens in it.  It adds
    at most one sample to the pose buffer, and none at all on a frame whose
    count is not a multiple of [pose_stride]. *)
Theorem pose_sampled_on_stride (frame : Image) (s : Svc) :
  frame_count (state_of (capture_iteration frame s)) = frame_count s + 1 /\
  (length (pose_buffer (state_of (capture_iteration frame s)))
   <= length (pose_buffer s) + 1)%nat /\
  ((frame_count s + 1) mod pose_stride s <> 0 ->
   (length (pose_buffer (state_of (capture_iteration frame s)))
    <= length (pose_buffer s))%nat).
Proof.
  rewrite capture_iteration_unfold.
  destruct (capture_branch_counted (length (pose_buffer s))
              (frame_count s + 1) (pose_stride s) frame (tracker s)
              (with_frame_count (frame_count s + 1) s))
    as [(Hfc & _ & Hlen) _].
  { repeat split. cbn. lia. }
  split; [exact Hfc|]. split.
  - destruct ((frame_count s + 1) mod pose_stride s =? 0); lia.
  - intro Hmod. apply Z.eqb_neq in Hmod. rewrite Hmod in Hlen. lia.
Qed.

End BufferFacts.

Lemma pose_buffer_never_exceeds_maxlen_witness :
  (length (pose_buffer (svc (run (E := Example.externals)
                               Example.steps_to_recognition Example.system)))
   <= 12)%nat.
Proof.
  apply (pose_buffer_never_exceeds_maxlen (E := Example.externals)
           Example.system Example.steps_to_recognition).
  vm_compute. lia.
Defined.

Lemma pose_sampled_on_stride_witness :
  (frame_count (svc Example.system) + 1) mod pose_stride (svc Example.system)
  <> 0 /\
  (length (pose_buffer (state_of (capture_iteration (E := Example.externals)
                                    Example.frame (svc Example.system))))
   <= length (pose_buffer (svc Example.system)))%nat.
Proof.
  assert (H : (frame_count (svc Example.system) + 1)
              mod pose_stride (svc Example.system) <> 0)
    by (vm_compute; discriminate).
  split; [exact H|].
  exact (proj2 (proj2 (pose_sampled_on_stride (E := Example.externals)
                         Example.frame (svc Example.system))) H).
Defined.

(** ** Detection and the start of tracking *)

Lemma insert_desc_perm (b : Z * Z * Z * Z * Q) (l : list (Z * Z * Z * Z * Q)) :
  Permutation (b :: l) (insert_desc b l).
Proof.
  induction l as [|c l IH]; cbn; [apply Permutation_refl|].
  destruct (box_area c <? box_area b); [apply Permutation_refl|].
  apply perm_trans with (c :: b :: l); [apply perm_swap|].
  apply perm_skip. exact IH.
Qed.

Lemma insert_desc_descending (b : Z * Z * Z * Z * Q)
  (l : list (Z * Z * Z * Z * Q)) :
  descending l -> descending (insert_desc b l).
Proof.
  induction l as [|c l IH]; cbn; intro H.
  - split; [intros c []|exact I].
  - destruct H as [Hc Hl].
    destruct (box_area c <? box_area b) eqn:Hlt; cbn.
    + apply Z.ltb_lt in Hlt. split; [|split; assumption].
      intros d [<-|Hd]; [lia|]. specialize (Hc d Hd). lia.
    + apply Z.ltb_ge in Hlt. split; [|apply IH; exact Hl].
      intros d Hd.
      apply (Permutation_in d (Permutation_sym (insert_desc_perm b l))) in Hd.
      destruct Hd as [<-|Hd]; [exact Hlt | apply Hc; exact Hd].
Qed.

Lemma sort_from_spec (faces acc : list (Z * Z * Z * Z * Q)) :
  descending acc ->
  Permutation (faces ++ acc)
              (fold_left (fun a b => insert_desc b a) faces acc) /\
  descending (fold_left (fun a b => insert_desc b a) faces acc).
Proof.
  revert acc. induction faces as [|b faces IH]; intros acc Hacc; cbn.
  - split; [apply Permutation_refl | exact Hacc].
  - destruct (IH (insert_desc b acc) (insert_desc_descending b acc Hacc))
      as [Hperm Hdesc].
    split; [|exact Hdesc].
    apply perm_trans with (faces ++ insert_desc b acc); [|exact Hperm].
    apply perm_trans with (faces ++ b :: acc);
      [apply Permutation_middle|].
    apply Permutation_app_head. apply insert_desc_perm.
Qed.

(** X20. [faces.sort(key=area, reverse=True)] rearranges the detections
    without losing or adding any, largest area first; the face the loop then
    takes, [faces[0]], is a detection that none exceeds in area. *)
Theorem largest_face_is_chosen (faces : list (Z * Z * Z * Z * Q)) :
  Permutation faces (sort_by_area_desc faces) /\
  descending (sort_by_area_desc faces) /\
  (faces <> [] -> sort_by_area_desc faces <> []) /\
  forall face rest,
    sort_by_area_desc faces = face :: rest ->
    In face faces /\
    forall other, In other faces -> box_area other <= box_area face.
Proof.
  unfold sort_by_area_desc.
  destruct (sort_from_spec faces [] I) as [Hperm Hdesc].
  rewrite app_nil_r in Hperm.
  split; [exact Hperm|]. split; [exact Hdesc|]. split.
  - intros Hne Hnil. rewrite Hnil in Hperm.
    apply Permutation_sym, Permutation_nil in Hperm. contradiction.
  - intros face rest Heq. rewrite Heq in Hperm, Hdesc.
    split.
    + apply (Permutation_in face (Permutation_sym Hperm)). left. reflexivity.
    + intros other Hother.
      apply (Permutation_in other Hperm) in Hother.
      destruct Hother as [<-|Hin]; [lia|].
      destruct Hdesc as [Hmax _]. apply Hmax. exact Hin.
Qed.

Section StartFacts.

Context {Tracker : Type} {E : Externals Tracker}.

Local Abbreviation Svc := (@Service Tracker).
Local Abbreviation Sys := (System Tracker).
Local Abbreviation Thr := (Threads Tracker).

Lemma publish_keeps_tracking (frame : Image) (overlays : list Overlay) (s : Svc) :
  tracker (state_of (publish frame overlays s)) = tracker s /\
  pose_buffer (state_of (publish frame overlays s)) = pose_buffer s /\
  track_ok_frames (state_of (publish frame overlays s)) = track_ok_frames s.
Proof.
  unfold publish, bind, gets, modify, emit, ret, state_of. cbn.
  destruct (on_overlay s); repeat split.
Qed.

(** What [detect_frame] does to the tracker. *)
Lemma detect_frame_cases (frame : Image) (s : Svc) :
  state_of (detect_frame frame s) = s \/
  exists face rest,
    sort_by_area_desc
      (detector_detect
         (cv2_resize frame (video_scale_factor s) (video_scale_factor s)))
    = face :: rest /\
    ~ (video_scale_factor s == 0)%Q /\
    (min_face_area_rel s
     <= area_ratio frame (rescaled_box (video_scale_factor s) face))%Q /\
    result_of (detect_frame frame s)
    = Ok [(let '(x1, y1, x2, y2) :=
             rescaled_box (video_scale_factor s) face in
           (x1, y1, x2, y2, "Rostro"%string, 0%Q))] /\
    exists t,
      state_of (detect_frame frame s)
      = with_pose_buffer [] (with_track_ok_frames 0 (with_tracker (Some t) s)).
Proof.
  unfold detect_frame, _start_tracker, bind, gets, lift, ret, modify,
    state_of, result_of, py_div, shape. cbn.
  destruct (sort_by_area_desc _) as [|[[[[x1s y1s] x2s] y2s] sc] rest] eqn:Hsort;
    [left; reflexivity|].
  destruct (Qeq_bool (video_scale_factor s) 0) eqn:Hscale; cbn;
    [left; reflexivity|].
  destruct (Qeq_bool
              (inject_Z (Z.of_nat (length (img_rows frame)) * img_cols frame))
              0) eqn:Harea; cbn; [left; reflexivity|].
  destruct (Qle_bool (min_face_area_rel s) _) eqn:Hgate; cbn;
    [|left; reflexivity].
  right. exists (x1s, y1s, x2s, y2s, sc), rest.
  split; [reflexivity|]. split; [apply Qeq_bool_false; exact Hscale|].
  split.
  - unfold area_ratio, rescaled_box, shape.
    apply Qle_bool_iff. exact Hgate.
  - split; [reflexivity|]. eexists. reflexivity.
Qed.

(** X21. Tracking starts only on a face that is large enough: when an
    iteration finds no tracker and leaves one, the detector found faces on
    the reduced frame, and the largest of them, brought back to the scale of
    the full frame, covers at least [min_face_area_rel] of it; the pose
    buffer is then empty and the count of tracked frames is zero. *)
Theorem tracking_starts_on_large_face (frame : Image) (s : Svc) :
  tracker s = None ->
  tracker (state_of (capture_iteration frame s)) <> None ->
  (exists face rest,
      sort_by_area_desc
        (detector_detect
           (cv2_resize frame (video_scale_factor s) (video_scale_factor s)))
      = face :: rest /\
      (min_face_area_rel s
       <= area_ratio frame (rescaled_box (video_scale_factor s) face))%Q) /\
  pose_buffer (state_of (capture_iteration frame s)) = [] /\
  track_ok_frames (state_of (capture_iteration frame s)) = 0.
Proof.
  intros Hnone Hsome.
  rewrite capture_iteration_unfold in Hsome |- *. rewrite Hnone in Hsome |- *.
  set (s1 := with_frame_count (frame_count s + 1) s) in *.
  pose proof (detect_frame_cases frame s1) as Hcases.
  unfold bind, state_of, result_of in *.
  destruct (detect_frame frame s1) as [[r s2] l2]. cbn [fst snd] in Hcases.
  destruct Hcases as [-> | (face & rest & Hsort & _ & Hgate & -> & t & ->)].
  - exfalso. apply Hsome.
    destruct r as [overlays|e]; [|exact Hnone].
    pose proof (publish_keeps_tracking frame overlays s1) as (Ht & _).
    unfold state_of in Ht.
    destruct (publish frame overlays s1) as [[r3 s3] l3]. cbn [fst snd] in *.
    rewrite Ht. exact Hnone.
  - match goal with
    | |- context [publish frame ?o ?st] =>
        pose proof (publish_keeps_tracking frame o st) as (_ & Hb & Hn);
        unfold state_of in Hb, Hn;
        destruct (publish frame o st) as [[r3 s3] l3]
    end.
    cbn [fst snd] in *. split; [|split].
    + exists face, rest. split; [exact Hsort | exact Hgate].
    + rewrite Hb. reflexivity.
    + rewrite Hn. reflexivity.
Qed.

(** X22. Only the best sample's crop is ever handed over, and only through
    both gates: when the selection puts a crop on the queue, nothing was
    displayed, the buffer held three samples at least, and the crop is that
    of a buffered sample whose key [(score, -area)] no buffered sample
    beats, whose score is under [frontality_thr] and whose area ratio is at
    least [min_face_area_rel]. *)
Theorem only_gated_best_crop_is_submitted (s : Svc) (item : Image)
  (accepted : bool) :
  In (EvPutNowait item accepted) (events_of (select_and_submit s)) ->
  result_displayed s = false /\
  (3 <= length (pose_buffer s))%nat /\
  exists best,
    In best (pose_buffer s) /\
    crop_of best = item /\
    (forall t, In t (pose_buffer s) ->
               lex_le (quality_key best) (quality_key t)) /\
    (score_of best < frontality_thr s)%Q /\
    (min_face_area_rel s <= area_of best)%Q.
Proof.
  unfold select_and_submit, bind, gets, lift, events_of. cbn.
  destruct (recognition_in_progress s); cbn; [intros []|].
  destruct (result_displayed s); cbn; [intros []|].
  destruct (recognition_queue s) as [|x q] eqn:Hqueue; cbn; [|intros []].
  destruct (3 <=? Z.of_nat (length (pose_buffer s))) eqn:Hlen; cbn;
    [|intros []].
  destruct (py_min (pose_buffer s)) as [[[[sc na] cr] an]|e] eqn:Hmin; cbn;
    [|intros []].
  destruct (PyFloat.Qltb sc (frontality_thr s)) eqn:Hscore; cbn;
    [|intros []].
  destruct (Qle_bool (min_face_area_rel s) (- na)) eqn:Harea; cbn;
    [|intros []].
  unfold submit_candidate, try_except, bind.
  rewrite (put_nowait_empty s cr Hqueue). cbn.
  intros [Hev|[]]. injection Hev as <- _.
  split; [reflexivity|]. split; [apply Z.leb_le in Hlen; lia|].
  destruct (py_min_least _ _ Hmin) as [Hin Hleast].
  exists (sc, na, cr, an).
  split; [exact Hin|]. split; [reflexivity|]. split; [exact Hleast|]. split.
  - apply Qltb_lt. exact Hscore.
  - apply Qle_bool_iff. exact Harea.
Qed.

Lemma capture_iteration_counts (frame : Image) (s : Svc) :
  frame_count (state_of (capture_iteration frame s)) = frame_count s + 1.
Proof.
  rewrite capture_iteration_unfold.
  destruct (capture_branch_counted (length (pose_buffer s))
              (frame_count s + 1) (pose_stride s) frame (tracker s)
              (with_frame_count (frame_count s + 1) s))
    as [(Hfc & _ & _) _].
  { repeat split. cbn. lia. }
  exact Hfc.
Qed.

Lemma capture_iteration_keeps_run_flag (b : bool) (frame : Image) :
  triple (Tracker := Tracker) (fun s => processing s = b)
    (capture_iteration frame) (fun s => processing s = b) any_event.
Proof. unfold_iteration. keeps side_condition. Qed.

(** With the run flag down a move keeps it down, lets the capture thread
    count the frame it was reading and nothing more, and lets the worker
    take a crop only if it was waiting for one. *)
Lemma make_move_winds_down (m : move) (th : Thr) :
  processing (shared th) = false ->
  processing (shared (make_move m th)) = false /\
  frame_count (shared th) <= frame_count (shared (make_move m th)) /\
  frame_count (shared (make_move m th))
  + frames_owed (capture_pc (make_move m th))
  <= frame_count (shared th) + frames_owed (capture_pc th) /\
  (length (recognition_queue (shared th))
   + gets_owed (worker_pc (make_move m th))
   <= length (recognition_queue (shared (make_move m th)))
      + gets_owed (worker_pc th))%nat.
Proof.
  intro Hoff. destruct m as [|frame| |now| |]; cbn [make_move].
  - unfold capture_test.
    destruct (capture_pc th) eqn:Hpc; cbn [shared capture_pc worker_pc];
      try rewrite Hpc; try rewrite Hoff; cbn [frames_owed];
      repeat split; try assumption; lia.
  - unfold capture_frame.
    destruct (capture_pc th) eqn:Hpc; cbn [shared capture_pc worker_pc];
      try rewrite Hpc; cbn [frames_owed];
      try (repeat split; try assumption; lia).
    destruct (capture_iteration_keeps_run_flag false frame (shared th) Hoff)
      as [Hoff' _].
    pose proof (capture_iteration_counts frame (shared th)) as Hfc.
    pose proof (capture_iteration_slot frame (shared th)) as (_ & Hslot).
    split; [exact Hoff'|]. split; [lia|]. split.
    + destruct (result_of (capture_iteration frame (shared th)));
        cbn [frames_owed]; lia.
    + destruct Hslot as [[_ Hq]|(_ & _ & Hq & _ & item & Hq')].
      * rewrite Hq. lia.
      * rewrite Hq, Hq'. cbn. lia.
  - unfold capture_no_frame.
    destruct (capture_pc th) eqn:Hpc; cbn [shared capture_pc worker_pc];
      try rewrite Hpc; cbn [frames_owed];
      repeat split; try assumption; lia.
  - unfold worker_line.
    destruct (worker_pc th) as [| |c| | | | | | | |w| | | | |] eqn:Hpc;
      cbn [shared capture_pc worker_pc]; try rewrite Hpc.
    all: try (rewrite Hoff).
    all: try (destruct (recognize_reads_only c (shared th)) as [Hs _];
              rewrite Hs;
              destruct (result_of (_recognize_face_crop c (shared th)))).
    all: try (destruct (Qle_bool w now);
              cbn [shared capture_pc worker_pc]; try rewrite Hpc).
    all: try (match goal with
              | H : worker_pc ?t = InGet |- _ =>
                  destruct (recognition_queue (shared t)) as [|x q] eqn:Hq;
                  cbn [Queue.get shared capture_pc worker_pc];
                  [rewrite Hpc, Hq|]
              end).
    all: cbn; repeat split; try assumption; lia.
  - unfold get_times_out.
    destruct (worker_pc th) eqn:Hpc;
      try (rewrite Hpc; repeat split; try assumption; lia).
    destruct (recognition_queue (shared th)) eqn:Hq;
      cbn [shared capture_pc worker_pc gets_owed length];
      try rewrite Hpc; try rewrite Hq; cbn [gets_owed length];
      repeat split; try assumption; lia.
  - unfold stop_requested. cbn. repeat split; lia.
Qed.

(** X23. Lowering the run flag does not stop the threads where they stand:
    each finishes the pass it is in and leaves at its next test.  Along
    every sequence of moves after [stop_async_processing] the flag stays
    down, the capture loop processes at most one more frame, and only if it
    was already reading it, and the worker takes at most one more crop off
    the queue, and only if it was already waiting in [get]. *)
Theorem stop_leaves_one_pass_each (th : Thr) (moves : list move) :
  processing (shared th) = false ->
  processing (shared (play moves th)) = false /\
  frame_count (shared th) <= frame_count (shared (play moves th))
  <= frame_count (shared th) + frames_owed (capture_pc th) /\
  (length (recognition_queue (shared th))
   <= length (recognition_queue (shared (play moves th)))
      + gets_owed (worker_pc th))%nat.
Proof.
  intro Hoff.
  assert (H : processing (shared (play moves th)) = false /\
              frame_count (shared th) <= frame_count (shared (play moves th)) /\
              frame_count (shared (play moves th))
              + frames_owed (capture_pc (play moves th))
              <= frame_count (shared th) + frames_owed (capture_pc th) /\
              (length (recognition_queue (shared th))
               + gets_owed (worker_pc (play moves th))
               <= length (recognition_queue (shared (play moves th)))
                  + gets_owed (worker_pc th))%nat).
  { revert th Hoff.
    induction moves as [|m moves IH]; intros th Hoff.
    - cbn. repeat split; try assumption; lia.
    - destruct (make_move_winds_down m th Hoff) as (Hoff1 & Hlo1 & Hhi1 & Hq1).
      destruct (IH (make_move m th) Hoff1) as (Hoff2 & Hlo2 & Hhi2 & Hq2).
      rewrite !play_cons.
      split; [exact Hoff2|]. split; [lia|]. split; lia. }
  destruct H as (Hoff' & Hlo & Hhi & Hq).
  split; [exact Hoff'|]. split.
  - assert (0 <= frames_owed (capture_pc (play moves th)))
      by (destruct (capture_pc (play moves th)); cbn; lia).
    lia.
  - lia.
Qed.

End StartFacts.

Lemma largest_face_is_chosen_witness :
  sort_by_area_desc [(0, 0, 1, 1, 0.5%Q); (0, 0, 3, 3, 0.7%Q);
                     (1, 1, 4, 4, 0.6%Q)] <> [] /\
  In (0, 0, 3, 3, 0.7%Q)
     [(0, 0, 1, 1, 0.5%Q); (0, 0, 3, 3, 0.7%Q); (1, 1, 4, 4, 0.6%Q)] /\
  box_area (0, 0, 1, 1, 0.5%Q) <= box_area (0, 0, 3, 3, 0.7%Q).
Proof.
  destruct (largest_face_is_chosen
              [(0, 0, 1, 1, 0.5%Q); (0, 0, 3, 3, 0.7%Q); (1, 1, 4, 4, 0.6%Q)])
    as (_ & _ & Hne & Hhead).
  split; [apply Hne; discriminate|].
  destruct (Hhead (0, 0, 3, 3, 0.7%Q)
              [(1, 1, 4, 4, 0.6%Q); (0, 0, 1, 1, 0.5%Q)] eq_refl)
    as [Hin Hmax].
  split; [exact Hin|].
  apply Hmax. left. reflexivity.
Defined.

Lemma tracking_starts_on_large_face_witness :
  (exists face rest,
      sort_by_area_desc
        (detector_detect (Externals := Example.externals)
           (cv2_resize (Externals := Example.externals) Example.frame
              (video_scale_factor (svc Example.system))
              (video_scale_factor (svc Example.system))))
      = face :: rest /\
      (min_face_area_rel (svc Example.system)
       <= area_ratio Example.frame
            (rescaled_box (video_scale_factor (svc Example.system)) face))%Q) /\
  pose_buffer (state_of (capture_iteration (E := Example.externals)
                           Example.frame (svc Example.system))) = [] /\
  track_ok_frames (state_of (capture_iteration (E := Example.externals)
                               Example.frame (svc Example.system))) = 0.
Proof.
  apply (tracking_starts_on_large_face (E := Example.externals) Example.frame
           (svc Example.system)).
  - reflexivity.
  - vm_compute. discriminate.
Defined.

Lemma only_gated_best_crop_is_submitted_witness :
  result_displayed Scenario.selecting = false /\
  (3 <= length (pose_buffer Scenario.selecting))%nat /\
  exists best,
    In best (pose_buffer Scenario.selecting) /\
    crop_of best = crop Example.frame 0 3 0 3 /\
    (forall t, In t (pose_buffer Scenario.selecting) ->
               lex_le (quality_key best) (quality_key t)) /\
    (score_of best < frontality_thr Scenario.selecting)%Q /\
    (min_face_area_rel Scenario.selecting <= area_of best)%Q.
Proof.
  apply (only_gated_best_crop_is_submitted Scenario.selecting
           (crop Example.frame 0 3 0 3) true).
  vm_compute. left. reflexivity.
Defined.

Lemma stop_leaves_one_pass_each_witness :
  let th := Scenario.stopping in
  let th' := play (E := Scenario.externals) Scenario.winding_down th in
  (capture_pc th = InRead /\ worker_pc th = InGet) /\
  (frame_count (shared th') = frame_count (shared th) + 1 /\
   recognition_queue (shared th) <> [] /\
   recognition_queue (shared th') = []) /\
  processing (shared th') = false /\
  frame_count (shared th) <= frame_count (shared th')
  <= frame_count (shared th) + frames_owed (capture_pc th) /\
  (length (recognition_queue (shared th))
   <= length (recognition_queue (shared th')) + gets_owed (worker_pc th))%nat.
Proof.
  cbv zeta.
  split; [split; vm_compute; reflexivity|].
  split; [split; [|split]; vm_compute; first [reflexivity | discriminate]|].
  apply (stop_leaves_one_pass_each (E := Scenario.externals) Scenario.stopping
           Scenario.winding_down).
  vm_compute. reflexivity.
Defined.

(** ** Crops *)

Lemma slice_bound_range (n i : Z) :
  0 <= n -> 0 <= slice_bound n i <= n.
Proof.
  intro Hn. unfold slice_bound.
  destruct (i <? 0) eqn:Hi; [lia|]. apply Z.ltb_ge in Hi. lia.
Qed.

Lemma py_slice_length {A : Type} (l : list A) (a b : Z) :
  Z.of_nat (length (py_slice l a b))
  = Z.max 0 (slice_bound (Z.of_nat (length l)) b
             - slice_bound (Z.of_nat (length l)) a).
Proof.
  unfold py_slice. rewrite length_firstn, length_skipn.
  pose proof (slice_bound_range (Z.of_nat (length l)) a (Nat2Z.is_nonneg _)).
  pose proof (slice_bound_range (Z.of_nat (length l)) b (Nat2Z.is_nonneg _)).
  lia.
Qed.

Lemma py_slice_incl {A : Type} (l : list A) (a b : Z) (x : A) :
  In x (py_slice l a b) -> In x l.
Proof.
  unfold py_slice. intro H.
  set (a' := Z.to_nat (slice_bound (Z.of_nat (length l)) a)) in *.
  set (k := Z.to_nat (slice_bound (Z.of_nat (length l)) b
                      - slice_bound (Z.of_nat (length l)) a)) in *.
  rewrite <- (firstn_skipn a' l). apply in_or_app. right.
  rewrite <- (firstn_skipn k (skipn a' l)). apply in_or_app. left. exact H.
Qed.

(** The shape of a crop, whatever its bounds. *)
Lemma crop_shape (frame : Image) (y1 y2 x1 x2 : Z) :
  well_formed_image frame ->
  shape (crop frame y1 y2 x1 x2)
  = (Z.max 0 (slice_bound (fst (shape frame)) y2
              - slice_bound (fst (shape frame)) y1),
     Z.max 0 (slice_bound (snd (shape frame)) x2
              - slice_bound (snd (shape frame)) x1)) /\
  well_formed_image (crop frame y1 y2 x1 x2).
Proof.
  intros [Hcols Hrows]. unfold shape, crop. cbn [img_rows img_cols fst snd].
  rewrite length_map, py_slice_length. split; [reflexivity|].
  split; [cbn; lia|]. cbn [img_rows img_cols].
  intros row Hrow. apply in_map_iff in Hrow.
  destruct Hrow as (r & <- & Hr).
  apply py_slice_incl in Hr. rewrite py_slice_length, (Hrows r Hr).
  reflexivity.
Qed.

(** X24. The crop of a box that lies inside the frame has the height and
    width of the box, and every one of its rows has that width: the area the
    pose score is gated on is the area of the crop that is queued. *)
Theorem crop_of_box_inside_frame (frame : Image) (y1 y2 x1 x2 : Z) :
  well_formed_image frame ->
  0 <= y1 <= y2 -> y2 <= fst (shape frame) ->
  0 <= x1 <= x2 -> x2 <= snd (shape frame) ->
  shape (crop frame y1 y2 x1 x2) = (y2 - y1, x2 - x1) /\
  well_formed_image (crop frame y1 y2 x1 x2) /\
  size (crop frame y1 y2 x1 x2) = (y2 - y1) * (x2 - x1) * 3.
Proof.
  intros Hwf Hy Hy2 Hx Hx2.
  destruct (crop_shape frame y1 y2 x1 x2 Hwf) as [Hshape Hwf'].
  assert (Heq : shape (crop frame y1 y2 x1 x2) = (y2 - y1, x2 - x1)).
  { rewrite Hshape. unfold slice_bound.
    destruct (y1 <? 0) eqn:E1; [apply Z.ltb_lt in E1; lia|].
    destruct (y2 <? 0) eqn:E2; [apply Z.ltb_lt in E2; lia|].
    destruct (x1 <? 0) eqn:E3; [apply Z.ltb_lt in E3; lia|].
    destruct (x2 <? 0) eqn:E4; [apply Z.ltb_lt in E4; lia|].
    f_equal; lia. }
  split; [exact Heq|]. split; [exact Hwf'|].
  unfold size. rewrite Heq. reflexivity.
Qed.

(** X25. A tracked box whose right edge has left the frame on the left
    ([x + w < 0]) is not cropped to nothing: [clip_box] keeps the negative
    bound, the slice counts it from the right edge of the frame, and the
    crop is [frame_width + x + w] columns wide. *)
Theorem crop_wraps_around_negative_edge (frame : Image)
  (bx by_ bw bh : Q) :
  well_formed_image frame ->
  py_int bx + py_int bw < 0 ->
  0 <= py_int bw ->
  - snd (shape frame) <= py_int bx + py_int bw ->
  let '(x1, y1, x2, y2) := clip_box frame (bx, by_, bw, bh) in
  x1 = 0 /\
  x2 = py_int bx + py_int bw /\
  snd (shape (crop frame y1 y2 x1 x2))
  = snd (shape frame) + (py_int bx + py_int bw).
Proof.
  intros Hwf Hneg Hw Hin. unfold clip_box.
  destruct (shape frame) as [fh fw] eqn:Hshape. cbn [snd] in Hin.
  split; [lia|]. split; [lia|].
  destruct (crop_shape frame (Z.max 0 (py_int by_))
              (Z.min fh (py_int by_ + py_int bh)) (Z.max 0 (py_int bx))
              (Z.min fw (py_int bx + py_int bw)) Hwf) as [Hcrop _].
  rewrite Hcrop, Hshape. cbn [fst snd].
  destruct Hwf as [Hcols _].
  assert (Hfw : fw = img_cols frame)
    by (unfold shape in Hshape; injection Hshape as _ <-; reflexivity).
  unfold slice_bound.
  destruct (Z.min fw (py_int bx + py_int bw) <? 0) eqn:E1;
    [|apply Z.ltb_ge in E1; lia].
  destruct (Z.max 0 (py_int bx) <? 0) eqn:E2; [apply Z.ltb_lt in E2; lia|].
  lia.
Qed.

(** ** The detector *)

Lemma py_int_monotone (x y : Q) : (x <= y)%Q -> py_int x <= py_int y.
Proof.
  intro Hxy. unfold py_int.
  destruct (Qle_bool 0 x) eqn:Hx, (Qle_bool 0 y) eqn:Hy.
  - apply Qfloor_resp_le. exact Hxy.
  - apply Qle_bool_iff in Hx.
    assert (~ (0 <= y)%Q) by (intro H; apply Qle_bool_iff in H; congruence).
    lra.
  - apply Qle_bool_iff in Hy.
    assert (Hx' : ~ (0 <= x)%Q)
      by (intro H; apply Qle_bool_iff in H; congruence).
    apply Z.le_trans with 0.
    + pose proof (Qceiling_resp_le x 0) as H.
      change (Qceiling 0) with 0 in H. apply H. lra.
    + pose proof (Qfloor_resp_le 0 y Hy) as H.
      change (Qfloor 0) with 0 in H. exact H.
  - apply Qceiling_resp_le. exact Hxy.
Qed.

Lemma py_int_inject (n : Z) : py_int (inject_Z n) = n.
Proof.
  unfold py_int. destruct (Qle_bool 0 (inject_Z n));
    [apply Qfloor_Z | apply Qceiling_Z].
Qed.

(** X26. The boxes of the MediaPipe branch are clipped on the sides the code
    clips: never left of or above the frame with their first corner, never
    right of or below it with their second; there is one per detection, in
    order.  A detection whose relative box lies inside the unit square gives
    a proper box, [0 <= x1 <= x2 <= w] and [0 <= y1 <= y2 <= h]. *)
Theorem mediapipe_boxes_are_clipped (mp_process : Image -> list MpDetection)
  (cascade : Image -> list (Z * Z * Z * Z)) (frame : Image) :
  0 <= snd (shape frame) ->
  length (FaceDetector_detect true mp_process cascade frame)
  = length (mp_process (cvtColor_BGR2RGB frame)) /\
  forall k d,
    nth_error (mp_process (cvtColor_BGR2RGB frame)) k = Some d ->
    exists x1 y1 x2 y2 sc,
      nth_error (FaceDetector_detect true mp_process cascade frame) k
      = Some (x1, y1, x2, y2, sc) /\
      0 <= x1 /\ 0 <= y1 /\
      x2 <= snd (shape frame) /\ y2 <= fst (shape frame) /\
      ((0 <= bb_xmin d)%Q -> (0 <= bb_width d)%Q ->
       (bb_xmin d + bb_width d <= 1)%Q ->
       (0 <= bb_ymin d)%Q -> (0 <= bb_height d)%Q ->
       (bb_ymin d + bb_height d <= 1)%Q ->
       x1 <= x2 /\ y1 <= y2 /\ 0 <= x2 /\ 0 <= y2).
Proof.
  intro Hw. unfold FaceDetector_detect.
  destruct (shape frame) as [h w] eqn:Hshape. cbn [fst snd] in *.
  assert (Hh : 0 <= h)
    by (unfold shape in Hshape; injection Hshape as <- _; lia).
  split; [apply length_map|].
  intros k d Hk. unfold mediapipe_box.
  do 5 eexists. split; [rewrite nth_error_map, Hk; reflexivity|].
  split; [lia|]. split; [lia|]. split; [lia|]. split; [lia|].
  intros Hx0 Hwd Hx1 Hy0 Hhd Hy1.
  assert (HwQ : (0 <= inject_Z w)%Q)
    by (change (inject_Z 0 <= inject_Z w)%Q; rewrite <- Zle_Qle; exact Hw).
  assert (HhQ : (0 <= inject_Z h)%Q)
    by (change (inject_Z 0 <= inject_Z h)%Q; rewrite <- Zle_Qle; exact Hh).
  assert (Hxa : py_int (bb_xmin d * inject_Z w)
                <= py_int ((bb_xmin d + bb_width d) * inject_Z w))
    by (apply py_int_monotone; nra).
  assert (Hya : py_int (bb_ymin d * inject_Z h)
                <= py_int ((bb_ymin d + bb_height d) * inject_Z h))
    by (apply py_int_monotone; nra).
  assert (Hxb : 0 <= py_int (bb_xmin d * inject_Z w)).
  { rewrite <- (py_int_inject 0). apply py_int_monotone.
    change (inject_Z 0) with 0%Q. nra. }
  assert (Hyb : 0 <= py_int (bb_ymin d * inject_Z h)).
  { rewrite <- (py_int_inject 0). apply py_int_monotone.
    change (inject_Z 0) with 0%Q. nra. }
  assert (Hxc : py_int (bb_xmin d * inject_Z w) <= w).
  { rewrite <- (py_int_inject w) at 2. apply py_int_monotone. nra. }
  assert (Hyc : py_int (bb_ymin d * inject_Z h) <= h).
  { rewrite <- (py_int_inject h) at 2. apply py_int_monotone. nra. }
  lia.
Qed.

(** The boxes of the Haar branch are the rectangles of the cascade,
    corner to corner, in order, each with the score 0.8: the area the
    capture loop sorts by is the width times the height of the rectangle. *)
Theorem haar_boxes_are_rectangles (mp_process : Image -> list MpDetection)
  (cascade : Image -> list (Z * Z * Z * Z)) (frame : Image) :
  length (FaceDetector_detect false mp_process cascade frame)
  = length (cascade frame) /\
  forall k x y w h,
    nth_error (cascade frame) k = Some (x, y, w, h) ->
    nth_error (FaceDetector_detect false mp_process cascade frame) k
    = Some (x, y, x + w, y + h, 0.8%Q) /\
    box_area (x, y, x + w, y + h, 0.8%Q) = w * h.
Proof.
  unfold FaceDetector_detect. split; [apply length_map|].
  intros k x y w h Hk. split.
  - rewrite nth_error_map, Hk. reflexivity.
  - unfold box_area. ring.
Qed.

Lemma example_frame_well_formed : well_formed_image Example.frame.
Proof.
  split; [cbn; lia|].
  intros row H. cbn in H.
  repeat (destruct H as [<-|H]; [reflexivity|]). contradiction.
Qed.

Lemma crop_of_box_inside_frame_witness :
  shape (crop Example.frame 0 4 1 3) = (4 - 0, 3 - 1) /\
  well_formed_image (crop Example.frame 0 4 1 3) /\
  size (crop Example.frame 0 4 1 3) = (4 - 0) * (3 - 1) * 3.
Proof.
  apply (crop_of_box_inside_frame Example.frame 0 4 1 3).
  - exact example_frame_well_formed.
  - lia.
  - cbn. lia.
  - lia.
  - cbn. lia.
Defined.

Lemma crop_wraps_around_negative_edge_witness :
  let '(x1, y1, x2, y2) := clip_box Example.frame (-3, 0, 1, 4)%Q in
  x1 = 0 /\
  x2 = py_int (-3) + py_int 1 /\
  snd (shape (crop Example.frame y1 y2 x1 x2))
  = snd (shape Example.frame) + (py_int (-3) + py_int 1).
Proof.
  apply (crop_wraps_around_negative_edge Example.frame (-3) 0 1 4).
  - exact example_frame_well_formed.
  - vm_compute. reflexivity.
  - vm_compute. discriminate.
  - vm_compute. discriminate.
Defined.

Lemma mediapipe_boxes_are_clipped_witness :
  length (FaceDetector_detect true Scenario.mp_process Scenario.cascade
            Example.frame)
  = length (Scenario.mp_process (cvtColor_BGR2RGB Example.frame)) /\
  forall k d,
    nth_error (Scenario.mp_process (cvtColor_BGR2RGB Example.frame)) k
    = Some d ->
    exists x1 y1 x2 y2 sc,
      nth_error (FaceDetector_detect true Scenario.mp_process Scenario.cascade
                   Example.frame) k
      = Some (x1, y1, x2, y2, sc) /\
      0 <= x1 /\ 0 <= y1 /\
      x2 <= snd (shape Example.frame) /\ y2 <= fst (shape Example.frame) /\
      ((0 <= bb_xmin d)%Q -> (0 <= bb_width d)%Q ->
       (bb_xmin d + bb_width d <= 1)%Q ->
       (0 <= bb_ymin d)%Q -> (0 <= bb_height d)%Q ->
       (bb_ymin d + bb_height d <= 1)%Q ->
       x1 <= x2 /\ y1 <= y2 /\ 0 <= x2 /\ 0 <= y2).
Proof.
  apply (mediapipe_boxes_are_clipped Scenario.mp_process Scenario.cascade
           Example.frame).
  cbn. lia.
Defined.

Lemma haar_boxes_are_rectangles_witness :
  nth_error (FaceDetector_detect false Scenario.mp_process Scenario.cascade
               Example.frame) 0
  = Some (1, 1, 1 + 2, 1 + 2, 0.8%Q) /\
  box_area (1, 1, 1 + 2, 1 + 2, 0.8%Q) = 2 * 2.
Proof.
  apply (proj2 (haar_boxes_are_rectangles Scenario.mp_process Scenario.cascade
                  Example.frame) 0%nat 1 1 2 2).
  reflexivity.
Defined.

(** ** Angles *)

Lemma py_mod_range (a b : Q) :
  (0 < b)%Q ->
  (0 <= py_mod a b)%Q /\ (py_mod a b < b)%Q /\
  (py_mod a b == a - b * inject_Z (Qfloor (a / b)))%Q.
Proof.
  intro Hb. unfold py_mod.
  pose proof (Qfloor_le (a / b)) as Hlo.
  pose proof (Qlt_floor (a / b)) as Hhi.
  rewrite inject_Z_plus in Hhi. change (inject_Z 1) with 1%Q in Hhi.
  assert (Hab : (a == b * (a / b))%Q) by (field; lra).
  set (f := inject_Z (Qfloor (a / b))) in *.
  set (x := (a / b)%Q) in *.
  split; [|split; [|reflexivity]].
  - rewrite Hab at 1. nra.
  - rewrite Hab at 1. nra.
Qed.

Lemma norm180_range (a : Q) :
  (-180 <= norm180 a)%Q /\ (norm180 a < 180)%Q /\
  exists k : Z, (norm180 a == a - 360 * inject_Z k)%Q.
Proof.
  unfold norm180.
  destruct (py_mod_range (a + 180) 360) as (Hlo & Hhi & Heq); [lra|].
  split; [lra|]. split; [lra|].
  exists (Qfloor ((a + 180) / 360)). rewrite Heq. ring.
Qed.

Lemma py_abs_cases (x : Q) :
  ((0 <= x)%Q /\ py_abs x = x) \/ ((x < 0)%Q /\ py_abs x = Qopp x).
Proof.
  unfold py_abs. destruct (Qle_bool 0 x) eqn:H.
  - left. split; [apply Qle_bool_iff; exact H | reflexivity].
  - right. split; [|reflexivity].
    apply Qnot_le_lt. intro Hx. apply Qle_bool_iff in Hx. congruence.
Qed.

(** X27. The angles [_estimate_head_pose_angles] returns are brought into
    range by its last lines: yaw and roll lie in [-180, 180) and differ from
    the raw angle by a whole number of turns, and the pitch, folded, lies in
    [-90, 90]. *)
Theorem returned_angles_are_in_range (yaw pitch roll : Q) :
  let '(y, p, r) := normalize_angles yaw pitch roll in
  (-180 <= y)%Q /\ (y < 180)%Q /\
  (exists k : Z, (y == yaw - 360 * inject_Z k)%Q) /\
  (-90 <= p)%Q /\ (p <= 90)%Q /\
  (-180 <= r)%Q /\ (r < 180)%Q /\
  (exists k : Z, (r == roll - 360 * inject_Z k)%Q).
Proof.
  unfold normalize_angles. cbv zeta.
  destruct (norm180_range yaw) as (Hy1 & Hy2 & Hy3).
  destruct (norm180_range roll) as (Hr1 & Hr2 & Hr3).
  destruct (norm180_range pitch) as (Hp1 & Hp2 & _).
  split; [exact Hy1|]. split; [exact Hy2|]. split; [exact Hy3|].
  assert (Hp : (-90 <= (if PyFloat.Qltb 90 (py_abs (norm180 pitch))
                        then (180 - py_abs (norm180 pitch))
                             * (if PyFloat.Qltb 0 (norm180 pitch)
                                then 1 else -1)
                        else norm180 pitch))%Q /\
               ((if PyFloat.Qltb 90 (py_abs (norm180 pitch))
                 then (180 - py_abs (norm180 pitch))
                      * (if PyFloat.Qltb 0 (norm180 pitch) then 1 else -1)
                 else norm180 pitch) <= 90)%Q).
  { set (q := norm180 pitch) in *.
    destruct (PyFloat.Qltb 90 (py_abs q)) eqn:Hfold.
    - apply Qltb_lt in Hfold.
      destruct (PyFloat.Qltb 0 q) eqn:Hsign.
      + apply Qltb_lt in Hsign.
        destruct (py_abs_cases q) as [[_ Ha]|[Hn _]]; [|lra].
        rewrite Ha in Hfold |- *. split; lra.
      + apply Qltb_ge in Hsign.
        destruct (py_abs_cases q) as [[H0 Ha]|[Hn Ha]];
          rewrite Ha in Hfold |- *; split; lra.
    - apply Qltb_ge in Hfold.
      destruct (py_abs_cases q) as [[H0 Ha]|[Hn Ha]];
        rewrite Ha in Hfold; split; lra. }
  destruct Hp as [Hp3 Hp4].
  split; [exact Hp3|]. split; [exact Hp4|].
  split; [exact Hr1|]. split; [exact Hr2|]. exact Hr3.
Qed.

(** ** The camera *)

(** X28. [initialize_camera] keeps the requested index when it opens.
    Otherwise it tries 1, 2, 3 and 4 in that order and keeps the first that
    opens; index 0 is never a fallback.  It raises exactly when the requested
    index and all four fallbacks fail, after five attempts. *)
Theorem initialize_camera_falls_back_in_order (opens : nat -> Z -> bool)
  (camera_index : Z) :
  match initialize_camera opens camera_index with
  | Some i =>
      (i = camera_index /\ opens O camera_index = true) \/
      (opens O camera_index = false /\
       1 <= i <= 4 /\
       opens (Z.to_nat i) i = true /\
       forall j, 1 <= j < i -> opens (Z.to_nat j) j = false)
  | None =>
      opens O camera_index = false /\
      forall j, 1 <= j <= 4 -> opens (Z.to_nat j) j = false
  end.
Proof.
  unfold initialize_camera.
  destruct (opens O camera_index) eqn:H0; [left; split; reflexivity|].
  cbn [try_indices].
  destruct (opens 1%nat 1) eqn:H1.
  { right. split; [reflexivity|]. split; [lia|]. split; [exact H1|].
    intros j Hj. lia. }
  destruct (opens 2%nat 2) eqn:H2.
  { right. split; [reflexivity|]. split; [lia|]. split; [exact H2|].
    intros j Hj. assert (j = 1) as -> by lia. exact H1. }
  destruct (opens 3%nat 3) eqn:H3.
  { right. split; [reflexivity|]. split; [lia|]. split; [exact H3|].
    intros j Hj. assert (j = 1 \/ j = 2) as [-> | ->] by lia; assumption. }
  destruct (opens 4%nat 4) eqn:H4.
  { right. split; [reflexivity|]. split; [lia|]. split; [exact H4|].
    intros j Hj.
    assert (j = 1 \/ j = 2 \/ j = 3) as [-> | [-> | ->]] by lia; assumption. }
  split; [reflexivity|].
  intros j Hj.
  assert (j = 1 \/ j = 2 \/ j = 3 \/ j = 4) as [-> | [-> | [-> | ->]]] by lia;
    assumption.
Qed.

Lemma initialize_camera_falls_back_in_order_witness :
  initialize_camera Scenario.opens 0 = Some 2 /\
  forall j, 1 <= j < 2 -> Scenario.opens (Z.to_nat j) j = false.
Proof.
  split; [reflexivity|].
  pose proof (initialize_camera_falls_back_in_order Scenario.opens 0) as H.
  change (initialize_camera Scenario.opens 0) with (Some 2) in H.
  destruct H as [[H _]|(_ & _ & _ & H)]; [discriminate H | exact H].
Defined.
